(** * Session and media consistency layer of the EBURON client

    A shallow embedding of the three source units that keep the chat
    transcript, the durable history, the blob store and the metadata table
    in step:

    - [services/geminiService.ts]: [createChat], [sendMessageToChat];
    - [services/supabaseService.ts]: [base64ToBlob], [saveImage],
      [getUserImages], [deleteImage];
    - [components/Chatbot.tsx]: [initChat], [handleSend],
      [handleClearHistory].

    Every [async] function is a program of the monad [Prog]: a tree whose
    nodes are the React state setters, the console and alert output, and
    the calls to the outside world (Supabase, the Gemini chat, [fetch],
    [atob], [Date]).  The outside world is never fixed: a program is run
    against an arbitrary handler, or stepped by an event loop that may
    settle any pending promise with any response. *)

From Stdlib Require Import String Ascii List Bool Arith NArith Lia Sorted.
Import ListNotations.
Open Scope list_scope.
Open Scope string_scope.

Set Implicit Arguments.

(* ================================================================= *)
(** ** JavaScript strings *)

(** A [string] holds the UTF-16 code units of a JavaScript string, one
    [ascii] per unit; the model covers the units below 256. *)

Module JS.

(** The code units below 256 that [String.prototype.trim] strips:
    TAB, LF, VT, FF, CR, SPACE and NBSP. *)
Definition isWhiteSpace (c : ascii) : bool :=
  let n := nat_of_ascii c in
  Nat.eqb n 9 || Nat.eqb n 10 || Nat.eqb n 11 || Nat.eqb n 12
  || Nat.eqb n 13 || Nat.eqb n 32 || Nat.eqb n 160.

Fixpoint trimStart (s : string) : string :=
  match s with
  | EmptyString => EmptyString
  | String c rest => if isWhiteSpace c then trimStart rest else s
  end.

Fixpoint rev_append (s acc : string) : string :=
  match s with
  | EmptyString => acc
  | String c rest => rev_append rest (String c acc)
  end.

Definition reverse (s : string) : string := rev_append s EmptyString.

Definition trimEnd (s : string) : string := reverse (trimStart (reverse s)).

(** [s.trim()] *)
Definition trim (s : string) : string := trimEnd (trimStart s).

(** Truthiness of a string: every string but the empty one. *)
Definition truthy (s : string) : bool :=
  match s with
  | EmptyString => false
  | String _ _ => true
  end.

Fixpoint startsWith (s sub : string) : bool :=
  match sub, s with
  | EmptyString, _ => true
  | String _ _, EmptyString => false
  | String b sub', String a s' => Ascii.eqb a b && startsWith s' sub'
  end.

(** [s.includes(sub)]: case-sensitive search of [sub] at every offset. *)
Fixpoint includes (s sub : string) : bool :=
  startsWith s sub ||
  match s with
  | EmptyString => false
  | String _ s' => includes s' sub
  end.

(** A string made of white space only (the empty string included). *)
Fixpoint blank (s : string) : bool :=
  match s with
  | EmptyString => true
  | String c rest => isWhiteSpace c && blank rest
  end.

End JS.

(* ================================================================= *)
(** ** Values exchanged with the collaborators *)

(** An error object; the code only ever reads its [message]. *)
Record Err : Type := Error { message : string }.

(** A settled promise. *)
Inductive Settled (A : Type) : Type :=
| Resolved (a : A)
| Rejected (e : Err).
Arguments Resolved {A} a.
Arguments Rejected {A} e.

(** The [{ data, error }] object every Supabase call resolves with. *)
Record Response (A : Type) : Type := mkResponse {
  data : option A;
  error : option Err
}.
Arguments mkResponse {A} data error.

(** [interface Message { sender: 'user' | 'bot'; text: string }].  Rows
    read from [chat_history] are cast to it unchecked, so [sender] is a
    string. *)
Record Message : Type := mkMessage {
  sender : string;
  text : string
}.

(** A row written to [chat_history]. *)
Record ChatRow : Type := mkChatRow {
  chat_user_id : string;
  chat_sender : string;
  chat_text : string
}.

(** [interface ChatHistoryContent { role; parts: { text }[] }] *)
Record ChatHistoryContent : Type := mkContent {
  role : string;
  parts : list string
}.

(** The argument object of [ai.chats.create], which is all this client
    knows of a [Chat]. *)
Record Chat : Type := mkChat {
  model : string;
  config : option string;
  history : option (list ChatHistoryContent)
}.

(** [new Blob([byteArray], { type })] *)
Record Blob : Type := mkBlob {
  bytes : list N;
  type : string
}.

(** A row of [user_images] as selected by [getUserImages]:
    [id, prompt, storage_path, created_at]. *)
Record ImageRow : Type := mkImageRow {
  image_id : N;
  prompt : string;
  storage_path : string;
  created_at : N
}.

(** [{ ...image, url }] *)
Record GalleryImage : Type := mkGalleryImage {
  image :> ImageRow;
  url : string
}.

(** The [Response] object of [fetch]; only [ok] is read. *)
Record FetchResponse : Type := mkFetchResponse {
  ok : bool;
  status : N
}.

(** The authenticated principal of [useAuth]. *)
Record User : Type := mkUser { user_id : string }.

(* ================================================================= *)
(** ** Calls to the outside world *)

Inductive Cmd : Type :=
(** [atob(base64)] *)
| Atob (base64 : string)
(** [new Date().toISOString()] *)
| DateToISOString
(** [supabase.storage.from(bucket).upload(path, blob)] *)
| StorageUpload (bucket path : string) (blob : Blob)
(** [supabase.storage.from(bucket).remove(paths)] *)
| StorageRemove (bucket : string) (paths : list string)
(** [supabase.storage.from(bucket).createSignedUrl(path, expiresIn)] *)
| StorageCreateSignedUrl (bucket path : string) (expiresIn : N)
(** [supabase.from('user_images').insert({ user_id, prompt, storage_path })] *)
| ImagesInsert (userId promptText storagePath : string)
(** [supabase.from('user_images').select('id, prompt, storage_path, created_at')
      .eq('user_id', userId).order('created_at', { ascending: false })] *)
| ImagesSelectDesc (userId : string)
(** [supabase.from('user_images').delete().eq('user_id', userId)
      .eq('storage_path', storagePath)] *)
| ImagesDelete (userId storagePath : string)
(** [supabase.from('chat_history').select('sender, text')
      .eq('user_id', userId).order('created_at', { ascending: true })] *)
| ChatHistorySelectAsc (userId : string)
(** [supabase.from('chat_history').insert(rows)] *)
| ChatHistoryInsert (rows : list ChatRow)
(** [supabase.from('chat_history').delete().eq('user_id', userId)] *)
| ChatHistoryDelete (userId : string)
(** [chat.sendMessage({ message })] *)
| ChatSendMessage (chat : Chat) (msg : string)
(** [fetch(url)] *)
| Fetch (address : string)
(** [response.text()] *)
| ResponseText (response : FetchResponse).

(** What each call hands back.  A Supabase call resolves with a
    [{ data, error }] object, as the code destructures it; [atob],
    [chat.sendMessage], [fetch] and [response.text] may throw or reject,
    which is why the code wraps them in [try]. *)
Definition Resp (c : Cmd) : Type :=
  match c with
  | Atob _ => Settled string
  | DateToISOString => string
  | StorageUpload _ _ _ => Response unit
  | StorageRemove _ _ => Response unit
  | StorageCreateSignedUrl _ _ _ => Response string
  | ImagesInsert _ _ _ => Response unit
  | ImagesSelectDesc _ => Response (list ImageRow)
  | ImagesDelete _ _ => Response unit
  | ChatHistorySelectAsc _ => Response (list Message)
  | ChatHistoryInsert _ => Response unit
  | ChatHistoryDelete _ => Response unit
  | ChatSendMessage _ _ => Settled string
  | Fetch _ => Settled FetchResponse
  | ResponseText _ => Settled string
  end.

(** Output that leaves the program without an answer. *)
Inductive Output : Type :=
| ConsoleError (label detail : string)
| Alert (msg : string).

Inductive Event : Type :=
| Issued (c : Cmd)
| Printed (o : Output).

(* ================================================================= *)
(** ** The program monad *)

Section Programs.

(** [S] is the React state the program's setters act on. *)
Variable S : Type.

Inductive Prog (R : Type) : Type :=
| Ret (r : R)
| Throw (e : Err)
| Update (f : S -> S) (k : Prog R)
| Emit (o : Output) (k : Prog R)
| Call (c : Cmd) (k : Resp c -> Prog R).

Arguments Ret {R} r.
Arguments Throw {R} e.
Arguments Update {R} f k.
Arguments Emit {R} o k.
Arguments Call {R} c k.

Fixpoint bind {A B : Type} (p : Prog A) (q : A -> Prog B) : Prog B :=
  match p with
  | Ret a => q a
  | Throw e => Throw e
  | Update f k => Update f (bind k q)
  | Emit o k => Emit o (bind k q)
  | Call c k => Call c (fun r => bind (k r) q)
  end.

(** [try { p } catch (e) { h e }] *)
Fixpoint try_catch {A : Type} (p : Prog A) (h : Err -> Prog A) : Prog A :=
  match p with
  | Ret a => Ret a
  | Throw e => h e
  | Update f k => Update f (try_catch k h)
  | Emit o k => Emit o (try_catch k h)
  | Call c k => Call c (fun r => try_catch (k r) h)
  end.

(** [try { p } finally { q }]: [q] runs on both exits, and the exit of
    [p] is kept unless [q] itself throws. *)
Fixpoint finally {A : Type} (p : Prog A) (q : Prog unit) : Prog A :=
  match p with
  | Ret a => bind q (fun _ => Ret a)
  | Throw e => bind q (fun _ => Throw e)
  | Update f k => Update f (finally k q)
  | Emit o k => Emit o (finally k q)
  | Call c k => Call c (fun r => finally (k r) q)
  end.

(** A call whose answer is used as it comes. *)
Definition call (c : Cmd) : Prog (Resp c) := Call c (fun r => Ret r).

(** [await] of a promise that may reject: the rejection is thrown. *)
Definition settle {A : Type} (s : Settled A) : Prog A :=
  match s with
  | Resolved a => Ret a
  | Rejected e => Throw e
  end.

Definition set (f : S -> S) : Prog unit := Update f (Ret tt).
Definition console_error (label detail : string) : Prog unit :=
  Emit (ConsoleError label detail) (Ret tt).
Definition alert (msg : string) : Prog unit := Emit (Alert msg) (Ret tt).

(** [Promise.all(xs.map(f))]: the calls are issued in the order of [xs]
    and the results come back in that order. *)
Fixpoint promise_all {A B : Type} (f : A -> Prog B) (xs : list A)
  : Prog (list B) :=
  match xs with
  | [] => Ret []
  | x :: rest =>
      bind (f x) (fun y => bind (promise_all f rest) (fun ys => Ret (y :: ys)))
  end.

(** *** Running a program to completion *)

(** A handler answers each call and threads its own state [W]. *)
Definition Handler (W : Type) : Type := forall c : Cmd, W -> Resp c * W.

Record Run (W R : Type) : Type := mkRun {
  final : S;
  world : W;
  log : list Event;
  outcome : Settled R
}.

Definition logged {W R : Type} (ev : Event) (r : Run W R) : Run W R :=
  {| final := final r; world := world r; log := ev :: log r;
     outcome := outcome r |}.

Fixpoint run {W R : Type} (h : Handler W) (p : Prog R) (s : S) (w : W)
  : Run W R :=
  match p with
  | Ret r => mkRun s w [] (Resolved r)
  | Throw e => mkRun s w [] (Rejected e)
  | Update f k => run h k (f s) w
  | Emit o k => logged (Printed o) (run h k s w)
  | Call c k =>
      let (a, w') := h c w in
      logged (Issued c) (run h (k a) s w')
  end.

(** *** Running a program up to its next pending call *)

Inductive Status : Type :=
| Done
| Failed (e : Err)
| Blocked (c : Cmd) (k : Resp c -> Prog unit).

Fixpoint advance (p : Prog unit) (s : S) : S * list Output * Status :=
  match p with
  | Ret _ => (s, [], Done)
  | Throw e => (s, [], Failed e)
  | Update f k => advance k (f s)
  | Emit o k =>
      let '(s', out, st) := advance k s in (s', o :: out, st)
  | Call c k => (s, [], Blocked c k)
  end.

End Programs.

Arguments Ret {S R} r.
Arguments Throw {S R} e.
Arguments Update {S R} f k.
Arguments Emit {S R} o k.
Arguments Call {S R} c k.
Arguments call {S} c.
Arguments settle {S A} s.
Arguments set {S} f.
Arguments console_error {S} label detail.
Arguments alert {S} msg.
Arguments Done {S}.
Arguments Failed {S} e.
Arguments Blocked {S} c k.

Declare Scope prog_scope.
Delimit Scope prog_scope with prog.
Notation "x <- p ;; q" := (bind p (fun x => q))
  (at level 61, p at next level, right associativity) : prog_scope.
Notation "p ;; q" := (bind p (fun _ => q))
  (at level 61, right associativity) : prog_scope.
Open Scope prog_scope.

(* ================================================================= *)
(** ** services/geminiService.ts *)

(** [config: systemInstruction ? { systemInstruction } : undefined]: an
    absent or empty instruction gives no config. *)
Definition createChat (systemInstruction : option string)
    (seed : option (list ChatHistoryContent)) : Chat :=
  {| model := "gemini-2.5-flash";
     config := match systemInstruction with
               | Some s => if JS.truthy s then Some s else None
               | None => None
               end;
     history := seed |}.

Definition chatFailureText : string :=
  "Sorry, I encountered an error. Please try again.".

Definition sendMessageToChat {S : Type} (chat : Chat) (msg : string)
  : Prog S string :=
  try_catch
    (response <- call (ChatSendMessage chat msg) ;;
     settle response)
    (fun error =>
       console_error "Error sending message:" (message error) ;;
       Ret chatFailureText).

(* ================================================================= *)
(** ** services/supabaseService.ts *)

Definition bucket : string := "user_images".

Definition charCodeAt (c : ascii) : N := N.of_nat (nat_of_ascii c).

(** [contentType] defaults to ['image/png']; [Uint8Array] keeps each
    number modulo 256. *)
Definition base64ToBlob {S : Type} (base64 : string)
    (contentType : option string) : Prog S Blob :=
  decoded <- call (Atob base64) ;;
  byteCharacters <- settle decoded ;;
  let byteNumbers := map charCodeAt (list_ascii_of_string byteCharacters) in
  let byteArray := map (fun n => N.modulo n 256) byteNumbers in
  Ret {| bytes := byteArray;
         type := match contentType with
                 | Some t => t
                 | None => "image/png"
                 end |}.

Definition saveImage {S : Type} (userId promptText imageBase64 : string)
  : Prog S unit :=
  imageBlob <- base64ToBlob imageBase64 None ;;
  iso <- call DateToISOString ;;
  let filePath := userId ++ "/" ++ iso ++ ".png" in
  uploaded <- call (StorageUpload bucket filePath imageBlob) ;;
  match error uploaded with
  | Some uploadError =>
      console_error "Storage upload error:" (message uploadError) ;;
      Throw (Error ("Failed to upload image to storage: "
                    ++ message uploadError))
  | None =>
      inserted <- call (ImagesInsert userId promptText filePath) ;;
      match error inserted with
      | Some insertError =>
          console_error "Database insert error:" (message insertError) ;;
          call (StorageRemove bucket [filePath]) ;;
          Throw (Error ("Failed to save image metadata: "
                        ++ message insertError))
      | None => Ret tt
      end
  end.

(** [xs.map((x, index) => f x index)] for a callback with effects. *)
Fixpoint map_indexed {S A B : Type} (f : A -> nat -> Prog S B)
    (xs : list A) (index : nat) : Prog S (list B) :=
  match xs with
  | [] => Ret []
  | x :: rest =>
      y <- f x index ;;
      ys <- map_indexed f rest (Datatypes.S index) ;;
      Ret (y :: ys)
  end.

(** The callback of the second [map] in [getUserImages].  Destructuring
    [signedUrlResults[index]] throws when the index is out of range. *)
Definition attachUrl {S : Type} (signedUrlResults : list (Response string))
    (image : ImageRow) (index : nat) : Prog S GalleryImage :=
  match nth_error signedUrlResults index with
  | None => Throw (Error "Cannot destructure property 'data' of undefined")
  | Some signed =>
      match error signed, data signed with
      | None, Some signedUrl => Ret {| image := image; url := signedUrl |}
      | _, _ =>
          console_error ("Failed to get signed URL for " ++ storage_path image)
            (match error signed with
             | Some e => message e
             | None => "null"
             end) ;;
          Ret {| image := image; url := "" |}
      end
  end.

Definition getUserImages {S : Type} (userId : string)
  : Prog S (list GalleryImage) :=
  selected <- call (ImagesSelectDesc userId) ;;
  match error selected with
  | Some dbError =>
      Throw (Error ("Failed to fetch image records: " ++ message dbError))
  | None =>
      match data selected with
      | None => Ret []
      | Some [] => Ret []
      | Some imagesData =>
          signedUrlResults <-
            promise_all
              (fun image =>
                 call (StorageCreateSignedUrl bucket (storage_path image) 3600))
              imagesData ;;
          map_indexed (attachUrl signedUrlResults) imagesData 0
      end
  end.

Definition deleteImage {S : Type} (userId storagePath : string)
  : Prog S unit :=
  removed <- call (StorageRemove bucket [storagePath]) ;;
  match error removed with
  | Some storageError =>
      Throw (Error ("Failed to delete image from storage: "
                    ++ message storageError))
  | None =>
      deleted <- call (ImagesDelete userId storagePath) ;;
      match error deleted with
      | Some dbError =>
          console_error "Failed to delete image metadata from database:"
            (message dbError) ;;
          Throw (Error ("Failed to delete image record: " ++ message dbError))
      | None => Ret tt
      end
  end.

(* ================================================================= *)
(** ** components/Chatbot.tsx *)

(** The [useState] cells of the component and the [user] of [useAuth]. *)
Record State : Type := mkState {
  chat : option Chat;
  messages : list Message;
  input : string;
  isLoading : bool;
  user : option User
}.

Definition setChat (c : option Chat) : Prog State unit :=
  set (fun s => mkState c (messages s) (input s) (isLoading s) (user s)).

(** [setMessages(value)] *)
Definition setMessages (ms : list Message) : Prog State unit :=
  set (fun s => mkState (chat s) ms (input s) (isLoading s) (user s)).

(** [setMessages((prev) => [...prev, m])] *)
Definition appendMessage (m : Message) : Prog State unit :=
  set (fun s =>
         mkState (chat s) (messages s ++ [m])%list (input s) (isLoading s)
           (user s)).

Definition withInput (value : string) (s : State) : State :=
  mkState (chat s) (messages s) value (isLoading s) (user s).

Definition setInput (value : string) : Prog State unit :=
  set (withInput value).

(** The [user] cell is written by [useAuth], not by the component. *)
Definition withUser (u : option User) (s : State) : State :=
  mkState (chat s) (messages s) (input s) (isLoading s) u.

Definition setIsLoading (b : bool) : Prog State unit :=
  set (fun s => mkState (chat s) (messages s) (input s) b (user s)).

Definition setupIncompleteNotice : Message :=
  {| sender := "bot";
     text := "DATABASE SETUP INCOMPLETE:

The 'chat_history' table is missing from your Supabase database. Please execute the required SQL script provided in the documentation in your Supabase project's SQL Editor to create the necessary tables." |}.

Definition loadErrorNotice (reason : string) : Message :=
  {| sender := "bot";
     text := "Hello! I couldn't load previous messages due to an error: "
             ++ reason |}.

Definition greeting : Message :=
  {| sender := "bot";
     text := "Hello! This is EBURON. How can I help you today?" |}.

Definition sendFailureNotice : Message :=
  {| sender := "bot";
     text := "Sorry, I couldn't get a response. Please try again." |}.

Definition historyCleared : Message :=
  {| sender := "bot"; text := "History cleared. How can I help you?" |}.

(** The block [let knowledge = ''; try { ... } catch (e) { ... }] that
    [initChat] and [handleClearHistory] both open with. *)
Definition loadKnowledge : Prog State string :=
  try_catch
    (fetched <- call (Fetch "/knowledge_base.txt") ;;
     response <- settle fetched ;;
     if ok response
     then (body <- call (ResponseText response) ;; settle body)
     else Ret "")
    (fun e =>
       console_error "Could not load knowledge base." (message e) ;;
       Ret "").

Definition formatHistory (rows : option (list Message))
  : list ChatHistoryContent :=
  match rows with
  | Some rs =>
      map (fun msg =>
             {| role := if String.eqb (sender msg) "user"
                        then "user" else "model";
                parts := [text msg] |}) rs
  | None => []
  end.

Definition tableMissing (reason : string) : bool :=
  JS.includes reason "does not exist"
  || JS.includes reason "Could not find the table".

Definition initChat (currentUserId : string) : Prog State unit :=
  setIsLoading true ;;
  knowledge <- loadKnowledge ;;
  selected <- call (ChatHistorySelectAsc currentUserId) ;;
  let formattedHistory := formatHistory (data selected) in
  setChat (Some (createChat (Some knowledge) (Some formattedHistory))) ;;
  match error selected with
  | Some err =>
      console_error "Error fetching chat history:" (message err) ;;
      if tableMissing (message err)
      then setMessages [setupIncompleteNotice]
      else setMessages [loadErrorNotice (message err)]
  | None =>
      match data selected with
      | Some ((_ :: _) as rows) => setMessages rows
      | _ => setMessages [greeting]
      end
  end ;;
  setIsLoading false.

(** [handleSend] closes over the [input], [chat], [isLoading] and [user]
    of the render it was created in: [seen].  Its setters act on the live
    state. *)
Definition handleSend (seen : State) : Prog State unit :=
  match chat seen, user seen with
  | Some liveChat, Some u =>
      if negb (JS.truthy (JS.trim (input seen))) || isLoading seen
      then Ret tt
      else
        let userMessage := {| sender := "user"; text := input seen |} in
        appendMessage userMessage ;;
        let currentInput := input seen in
        setInput "" ;;
        setIsLoading true ;;
        finally
          (try_catch
             (botResponseText <- sendMessageToChat liveChat currentInput ;;
              let botMessage :=
                {| sender := "bot"; text := botResponseText |} in
              appendMessage botMessage ;;
              saved <- call (ChatHistoryInsert
                               [ mkChatRow (user_id u) "user" currentInput;
                                 mkChatRow (user_id u) "bot" botResponseText ]) ;;
              match error saved with
              | Some err =>
                  console_error "Failed to save message to Supabase:"
                    (message err)
              | None => Ret tt
              end)
             (fun _ => appendMessage sendFailureNotice))
          (setIsLoading false)
  | _, _ => Ret tt
  end.

Definition handleClearHistory (seen : State) : Prog State unit :=
  match user seen with
  | None => Ret tt
  | Some u =>
      cleared <- call (ChatHistoryDelete (user_id u)) ;;
      match error cleared with
      | Some err =>
          console_error "Failed to clear history:" (message err) ;;
          alert "Could not clear history. Please try again."
      | None =>
          setMessages [historyCleared] ;;
          knowledge <- loadKnowledge ;;
          setChat (Some (createChat (Some knowledge) None))
      end
  end.

(** *** Serial use: one exchange at a time *)

(** The user types [typed] and presses send; the exchange runs to its end
    before anything else happens. *)
Definition sendTurn {W : Type} (h : Handler W) (typed : string)
    (sw : State * W) : State * W :=
  let seen := withInput typed (fst sw) in
  let r := run h (handleSend seen) seen (snd sw) in
  (final r, world r).

Definition sendTurns {W : Type} (h : Handler W) (typed : list string)
    (sw : State * W) : State * W :=
  fold_left (fun acc t => sendTurn h t acc) typed sw.

(** A transcript tail of whole exchanges: user turn, then bot turn. *)
Fixpoint exchanges (turns : list (string * string)) : list Message :=
  match turns with
  | [] => []
  | (asked, answered) :: rest =>
      mkMessage "user" asked :: mkMessage "bot" answered :: exchanges rest
  end.

(** *** The event loop: several handlers in flight *)

Inductive Origin : Type := FromInit | FromSend | FromClear.

(** An [async] function suspended at an [await]. *)
Record Task : Type := mkTask {
  origin : Origin;
  pending : Cmd;
  resume : Resp pending -> Prog State unit
}.

Record Sys : Type := mkSys {
  view : State;
  tasks : list Task
}.

(** Start (or continue) a handler: it runs until it ends or awaits. *)
Definition spawn (o : Origin) (p : Prog State unit) (sys : Sys) : Sys :=
  let '(s', _, st) := advance p (view sys) in
  {| view := s';
     tasks := match st with
              | Blocked c k => (tasks sys ++ [mkTask o c k])%list
              | _ => tasks sys
              end |}.

(** First render and the [useEffect] that follows it:
    [if (!user) return; initChat(user.id)]. *)
Definition mount (u : option User) : Sys :=
  let first := {| view := mkState None [] "" false u; tasks := [] |} in
  match u with
  | None => first
  | Some usr => spawn FromInit (initChat (user_id usr)) first
  end.

(** [useAuth] hands out another [user]: the component renders with it
    and the effect, which is keyed on [user] and has no cleanup, runs
    again beside whatever is in flight.  A [User] here is its id, so the
    same user handed out anew, as another object, is a change too. *)
Definition userChanged (u : option User) (sys : Sys) : Sys :=
  let rendered := {| view := withUser u (view sys); tasks := tasks sys |} in
  match u with
  | None => rendered
  | Some usr => spawn FromInit (initChat (user_id usr)) rendered
  end.

(** [useAuth] is not part of these sources.  What it may do is a
    parameter of the event loop: [auth sys u] says that in the state
    [sys] it may hand out [u]. *)
Definition AuthPolicy : Type := Sys -> option User -> Prop.

(** One turn of the event loop.  The user edits the input ([onChange]),
    presses send or clear (a handler closes over the state of the latest
    render), a pending promise settles, with any answer, and its handler
    goes on to its next [await], or [useAuth] hands out another [user]. *)
Inductive step (auth : AuthPolicy) : Sys -> Sys -> Prop :=
| step_change (sys : Sys) (value : string) :
    step auth sys {| view := withInput value (view sys); tasks := tasks sys |}
| step_send (sys : Sys) :
    step auth sys (spawn FromSend (handleSend (view sys)) sys)
| step_clear (sys : Sys) :
    step auth sys (spawn FromClear (handleClearHistory (view sys)) sys)
| step_settle (sys : Sys) (before after : list Task) (t : Task)
    (answer : Resp (pending t)) :
    tasks sys = (before ++ t :: after)%list ->
    step auth sys (spawn (origin t) (resume t answer)
                     {| view := view sys; tasks := (before ++ after)%list |})
| step_auth (sys : Sys) (u : option User) :
    auth sys u ->
    step auth sys (userChanged u sys).

(** The states of a component mounted with [u]. *)
Inductive reachable (auth : AuthPolicy) (u : option User) : Sys -> Prop :=
| reach_mount : reachable auth u (mount u)
| reach_step (sys sys' : Sys) :
    reachable auth u sys -> step auth sys sys' -> reachable auth u sys'.

(** Any number of steps of the event loop. *)
Inductive steps (auth : AuthPolicy) : Sys -> Sys -> Prop :=
| steps_refl (sys : Sys) : steps auth sys sys
| steps_step (sys mid sys' : Sys) :
    step auth sys mid -> steps auth mid sys' -> steps auth sys sys'.

Definition isSend (t : Task) : bool :=
  match origin t with
  | FromSend => true
  | _ => false
  end.

(** The exchanges in flight. *)
Definition outstanding (sys : Sys) : nat :=
  length (filter isSend (tasks sys)).

(* ================================================================= *)
(** ** A reference collaborator *)

(** An in-memory Supabase, Gemini chat and browser to run the programs
    against.  [faults] names the calls that fail and with which error. *)
Module Backend.

Record Store : Type := mkStore {
  objects : list (string * Blob);
  user_images : list (string * ImageRow);
  chat_history : list ChatRow;
  ticks : N
}.

Record Env : Type := mkEnv {
  faults : Cmd -> option Err;
  decode : string -> Settled string;
  today : string;
  reply : string -> string;
  knowledge_base : string
}.

Definition empty : Store := mkStore [] [] [] 0.

Fixpoint insert_desc (r : ImageRow) (l : list ImageRow) : list ImageRow :=
  match l with
  | [] => [r]
  | x :: rest =>
      if N.leb (created_at x) (created_at r) then r :: l
      else x :: insert_desc r rest
  end.

Definition select_images (userId : string) (st : Store) : list ImageRow :=
  fold_right insert_desc []
    (map snd (filter (fun p => String.eqb (fst p) userId) (user_images st))).

Definition select_chat (userId : string) (st : Store) : list Message :=
  map (fun r => mkMessage (chat_sender r) (chat_text r))
    (filter (fun r => String.eqb (chat_user_id r) userId) (chat_history st)).

Definition failed {A : Type} (e : Err) : Response A := mkResponse None (Some e).
Definition succeeded {A : Type} (a : A) : Response A := mkResponse (Some a) None.

Definition serve (env : Env) : Handler Store :=
  fun c =>
    match c as c' return Store -> Resp c' * Store with
    | Atob b => fun st => (decode env b, st)
    | DateToISOString => fun st => (today env, st)
    | StorageUpload _ path blob as c' => fun st =>
        match faults env c' with
        | Some e => (failed e, st)
        | None =>
            (succeeded tt,
             mkStore ((path, blob) :: objects st) (user_images st)
               (chat_history st) (ticks st))
        end
    | StorageRemove _ paths as c' => fun st =>
        match faults env c' with
        | Some e => (failed e, st)
        | None =>
            (succeeded tt,
             mkStore
               (filter (fun o => negb (existsb (String.eqb (fst o)) paths))
                  (objects st))
               (user_images st) (chat_history st) (ticks st))
        end
    | StorageCreateSignedUrl _ path _ as c' => fun st =>
        match faults env c' with
        | Some e => (failed e, st)
        | None => (succeeded ("https://signed.example/" ++ path), st)
        end
    | ImagesInsert userId promptText path as c' => fun st =>
        match faults env c' with
        | Some e => (failed e, st)
        | None =>
            (succeeded tt,
             mkStore (objects st)
               ((userId, mkImageRow (ticks st) promptText path (ticks st))
                  :: user_images st)
               (chat_history st) (N.succ (ticks st)))
        end
    | ImagesSelectDesc userId as c' => fun st =>
        match faults env c' with
        | Some e => (failed e, st)
        | None => (succeeded (select_images userId st), st)
        end
    | ImagesDelete userId path as c' => fun st =>
        match faults env c' with
        | Some e => (failed e, st)
        | None =>
            (succeeded tt,
             mkStore (objects st)
               (filter
                  (fun p => negb (String.eqb (fst p) userId
                                  && String.eqb (storage_path (snd p)) path))
                  (user_images st))
               (chat_history st) (ticks st))
        end
    | ChatHistorySelectAsc userId as c' => fun st =>
        match faults env c' with
        | Some e => (failed e, st)
        | None => (succeeded (select_chat userId st), st)
        end
    | ChatHistoryInsert rows as c' => fun st =>
        match faults env c' with
        | Some e => (failed e, st)
        | None =>
            (succeeded tt,
             mkStore (objects st) (user_images st)
               (chat_history st ++ rows)%list (ticks st))
        end
    | ChatHistoryDelete userId as c' => fun st =>
        match faults env c' with
        | Some e => (failed e, st)
        | None =>
            (succeeded tt,
             mkStore (objects st) (user_images st)
               (filter (fun r => negb (String.eqb (chat_user_id r) userId))
                  (chat_history st))
               (ticks st))
        end
    | ChatSendMessage _ msg as c' => fun st =>
        match faults env c' with
        | Some e => (Rejected e, st)
        | None => (Resolved (reply env msg), st)
        end
    | Fetch _ as c' => fun st =>
        match faults env c' with
        | Some e => (Rejected e, st)
        | None => (Resolved (mkFetchResponse true 200), st)
        end
    | ResponseText _ as c' => fun st =>
        match faults env c' with
        | Some e => (Rejected e, st)
        | None => (Resolved (knowledge_base env), st)
        end
    end.

(** No call fails. *)
Definition sound : Env :=
  {| faults := fun _ => None;
     decode := fun b => Resolved b;
     today := "2025-01-01T00:00:00.000Z";
     reply := fun msg => "You said: " ++ msg;
     knowledge_base := "EBURON knowledge" |}.

Definition failing (f : Cmd -> option Err) : Env :=
  mkEnv f (decode sound) (today sound) (reply sound) (knowledge_base sound).

End Backend.

(* ================================================================= *)
(** ** Vocabulary of the statements *)

(** The calls among the events of a log. *)
Definition isCall (ev : Event) : bool :=
  match ev with
  | Issued _ => true
  | Printed _ => false
  end.

(** A string [s] mentions [sub] when [sub] occurs in it. *)
Definition mentions (s sub : string) : Prop :=
  exists before after, s = before ++ sub ++ after.

(** The substring test as the specification words it, for comparison
    with [tableMissing]. *)
Definition specTableMissing (reason : string) : bool :=
  JS.includes reason "does not exist"
  || JS.includes reason "could not find the table".

(** The state a session offers between two exchanges. *)
Definition ready (s : State) : Prop :=
  (exists c, chat s = Some c) /\ (exists u, user s = Some u)
  /\ isLoading s = false.

(** The signed-URL request for one row. *)
Definition signRequest (row : ImageRow) : Cmd :=
  StorageCreateSignedUrl "user_images" (storage_path row) 3600.

(** The answers a handler gives to the signed-URL requests of [rows],
    asked in order, and the world it ends in. *)
Fixpoint signAll {W : Type} (h : Handler W) (rows : list ImageRow) (w : W)
  : list (Response string) * W :=
  match rows with
  | [] => ([], w)
  | row :: rest =>
      let (a, w1) := h (signRequest row) w in
      let (answers, w2) := signAll h rest w1 in
      (a :: answers, w2)
  end.

(** A signed-URL request failed when its answer carries an error or no
    data. *)
Definition signFailed (a : Response string) : bool :=
  match error a, data a with
  | None, Some _ => false
  | _, _ => true
  end.

Definition descending (rows : list ImageRow) : Prop :=
  StronglySorted (fun a b => (created_at b <= created_at a)%N) rows.

(** A program that awaits nothing more. *)
Inductive Closing : Prog State unit -> Prop :=
| Closing_ret (r : unit) : Closing (Ret r)
| Closing_throw (e : Err) : Closing (Throw e)
| Closing_update (f : State -> State) (k : Prog State unit) :
    Closing k -> Closing (Update f k)
| Closing_emit (o : Output) (k : Prog State unit) :
    Closing k -> Closing (Emit o k).

(** A program that holds the [isLoading] flag: it leaves the flag alone
    for as long as it may still await. *)
Inductive Holding : Prog State unit -> Prop :=
| Holding_closing (p : Prog State unit) : Closing p -> Holding p
| Holding_update (f : State -> State) (k : Prog State unit) :
    (forall s, isLoading (f s) = isLoading s) -> Holding k ->
    Holding (Update f k)
| Holding_emit (o : Output) (k : Prog State unit) :
    Holding k -> Holding (Emit o k)
| Holding_call (c : Cmd) (k : Resp c -> Prog State unit) :
    (forall a, Holding (k a)) -> Holding (Call c k).

(** A program that never writes the [isLoading] flag. *)
Inductive Aside : Prog State unit -> Prop :=
| Aside_ret (r : unit) : Aside (Ret r)
| Aside_throw (e : Err) : Aside (Throw e)
| Aside_update (f : State -> State) (k : Prog State unit) :
    (forall s, isLoading (f s) = isLoading s) -> Aside k ->
    Aside (Update f k)
| Aside_emit (o : Output) (k : Prog State unit) :
    Aside k -> Aside (Emit o k)
| Aside_call (c : Cmd) (k : Resp c -> Prog State unit) :
    (forall a, Aside (k a)) -> Aside (Call c k).

(** [initChat] and [handleSend] raise [isLoading] and lower it when they
    end; [handleClearHistory] does not touch it. *)
Definition originHolds (o : Origin) : bool :=
  match o with
  | FromClear => false
  | _ => true
  end.

Definition holdsFlag (t : Task) : bool := originHolds (origin t).

Definition task_ok (t : Task) : Prop :=
  if holdsFlag t
  then forall a, Holding (resume t a)
  else forall a, Aside (resume t a).

Definition holders (ts : list Task) : nat := length (filter holdsFlag ts).

(** Neither [initChat] nor an exchange is in flight. *)
Definition idle (sys : Sys) : Prop := holders (tasks sys) = 0.

(** [useAuth] may hand out anything at any time. *)
Definition anytime : AuthPolicy := fun _ _ => True.

(** [useAuth] hands out a signed-in user only while the component is
    idle; it may sign the user out at any time. *)
Definition whenIdle : AuthPolicy :=
  fun sys u => u <> None -> idle sys.

(** Every signed-in user that [auth] hands out comes while the component
    is idle. *)
Definition SignsInWhenIdle (auth : AuthPolicy) : Prop :=
  forall sys usr, auth sys (Some usr) -> idle sys.

Record Inv (sys : Sys) : Prop := mkInv {
  inv_tasks : Forall task_ok (tasks sys);
  inv_single : holders (tasks sys) <= 1;
  inv_flag : holders (tasks sys) = 1 -> isLoading (view sys) = true
}.

(* ================================================================= *)
(** ** Scenarios *)

Module Scenario.

Definition alice : User := mkUser "alice".

Definition liveChat : Chat := createChat (Some "EBURON knowledge") (Some []).

Definition readyState (typed : string) : State :=
  {| chat := Some liveChat; messages := [greeting]; input := typed;
     isLoading := false; user := Some alice |}.

(** The gateway is down. *)
Definition gatewayDown : Backend.Env :=
  Backend.failing
    (fun c => match c with
              | ChatSendMessage _ _ => Some (Error "503 Service Unavailable")
              | _ => None
              end).

(** A gateway that answers every message with the apology text. *)
Definition apologetic : Backend.Env :=
  Backend.mkEnv (fun _ => None) (Backend.decode Backend.sound)
    (Backend.today Backend.sound) (fun _ => chatFailureText)
    (Backend.knowledge_base Backend.sound).

(** The metadata insert fails, and so does every blob removal. *)
Definition insertDown : Backend.Env :=
  Backend.failing
    (fun c => match c with
              | ImagesInsert _ _ _ => Some (Error "permission denied")
              | StorageRemove _ _ => Some (Error "bucket unavailable")
              | _ => None
              end).

(** Row deletes fail. *)
Definition rowDeleteDown : Backend.Env :=
  Backend.failing
    (fun c => match c with
              | ImagesDelete _ _ => Some (Error "permission denied")
              | _ => None
              end).

(** Blob removals fail. *)
Definition removeDown : Backend.Env :=
  Backend.failing
    (fun c => match c with
              | StorageRemove _ _ => Some (Error "bucket unavailable")
              | _ => None
              end).

(** The history read fails with [reason]. *)
Definition historyDown (reason : string) : Backend.Env :=
  Backend.failing
    (fun c => match c with
              | ChatHistorySelectAsc _ => Some (Error reason)
              | _ => None
              end).

(** The history delete fails. *)
Definition clearDown : Backend.Env :=
  Backend.failing
    (fun c => match c with
              | ChatHistoryDelete _ => Some (Error "permission denied")
              | _ => None
              end).

(** Signing the URL of [p1.png] fails. *)
Definition signDown : Backend.Env :=
  Backend.failing
    (fun c => match c with
              | StorageCreateSignedUrl _ path _ =>
                  if String.eqb path "alice/p1.png"
                  then Some (Error "object not found") else None
              | _ => None
              end).

(** Three rows, two of them of [alice], stored out of order. *)
Definition gallery : Backend.Store :=
  Backend.mkStore []
    [ ("alice", mkImageRow 1 "cat" "alice/p1.png" 10);
      ("bob", mkImageRow 2 "dog" "bob/p2.png" 20);
      ("alice", mkImageRow 3 "owl" "alice/p3.png" 30) ]
    [] 4.

Definition initial : State := mkState None [] "" false (Some alice).

(** Fixed answers for the event loop. *)
Definition answers (c : Cmd) : Resp c :=
  fst (Backend.serve Backend.sound c Backend.empty).

(** The head task's promise settles with the answer [oracle] gives. *)
Definition settleHead (oracle : forall c : Cmd, Resp c) (sys : Sys) : Sys :=
  match tasks sys with
  | [] => sys
  | t :: rest =>
      spawn (origin t) (resume t (oracle (pending t)))
        {| view := view sys; tasks := rest |}
  end.

(** The promise of the pending task number [n] settles. *)
Definition settleAt (n : nat) (oracle : forall c : Cmd, Resp c) (sys : Sys)
  : Sys :=
  match nth_error (tasks sys) n with
  | None => sys
  | Some t =>
      spawn (origin t) (resume t (oracle (pending t)))
        {| view := view sys;
           tasks := (firstn n (tasks sys) ++ skipn (S n) (tasks sys))%list |}
  end.

Definition typing (value : string) (sys : Sys) : Sys :=
  {| view := withInput value (view sys); tasks := tasks sys |}.

Definition pressSend (sys : Sys) : Sys :=
  spawn FromSend (handleSend (view sys)) sys.

(** Mount, let [initChat] finish, type, send, and type again while the
    exchange is in flight. *)
Definition midExchange : Sys :=
  typing "and another thing"
    (pressSend
       (typing "hi"
          (settleHead answers
             (settleHead answers (settleHead answers (mount (Some alice))))))).

(** The session once [initChat] has ended. *)
Definition opened : Sys :=
  settleHead answers (settleHead answers (settleHead answers (mount (Some alice)))).

(** [useAuth] hands out [alice] anew while the session is idle, the
    second [initChat] ends, and then an exchange starts. *)
Definition resumed : Sys :=
  typing "and another thing"
    (pressSend
       (typing "hi"
          (settleHead answers
             (settleHead answers
                (settleHead answers (userChanged (Some alice) opened)))))).

(** A store that remembers a conversation of [alice]. *)
Definition remembering : Backend.Store :=
  Backend.mkStore [] []
    [ mkChatRow "alice" "user" "hello";
      mkChatRow "alice" "assistant" "Hello, alice" ] 0.

Definition recalled (c : Cmd) : Resp c :=
  fst (Backend.serve Backend.sound c remembering).


(** [useAuth] hands out [alice] anew while the first exchange is in
    flight.  The second [initChat] runs beside it and lowers [isLoading]
    when it ends, so a second exchange is accepted; the first one ends
    and lowers the flag again, and a third message is typed while the
    second exchange is still in flight. *)
Definition overtaken : Sys :=
  typing "again"
    (settleAt 1 answers
       (settleHead answers
          (pressSend
             (typing "yo"
                (settleAt 1 recalled
                   (settleAt 1 recalled
                      (settleAt 1 recalled
                         (userChanged (Some alice)
                            (pressSend (typing "hi" opened)))))))))).

End Scenario.

(* ================================================================= *)
(** ** More vocabulary: what a save may touch *)

(** The events [saveImage] may produce for the user [userId] and the
    path [path]: the decoding and the clock, an upload to [path], an
    insert of a row of [userId] pointing to [path], a removal of [path]
    alone, and console output. *)
Definition saveTouches (userId path : string) (ev : Event) : Prop :=
  match ev with
  | Issued (Atob _) => True
  | Issued DateToISOString => True
  | Issued (StorageUpload b p _) => b = "user_images" /\ p = path
  | Issued (ImagesInsert u _ p) => u = userId /\ p = path
  | Issued (StorageRemove b ps) => b = "user_images" /\ ps = [path]
  | Issued _ => False
  | Printed _ => True
  end.

Definition isAlert (ev : Event) : bool :=
  match ev with
  | Printed (Alert _) => true
  | _ => false
  end.

(* ================================================================= *)
(** ** More vocabulary: what a handler does to a state property *)

(** Every state update of the program keeps [Q]. *)
Inductive Preserves (Q : State -> Prop) : Prog State unit -> Prop :=
| Preserves_ret (r : unit) : Preserves Q (Ret r)
| Preserves_throw (e : Err) : Preserves Q (Throw e)
| Preserves_update (f : State -> State) (k : Prog State unit) :
    (forall s, Q s -> Q (f s)) -> Preserves Q k -> Preserves Q (Update f k)
| Preserves_emit (o : Output) (k : Prog State unit) :
    Preserves Q k -> Preserves Q (Emit o k)
| Preserves_call (c : Cmd) (k : Resp c -> Prog State unit) :
    (forall a, Preserves Q (k a)) -> Preserves Q (Call c k).

(** On each of its paths the program makes an update that brings [Q]
    about, after which it awaits nothing more and keeps [Q]. *)
Inductive Establishes (Q : State -> Prop) : Prog State unit -> Prop :=
| Establishes_here (f : State -> State) (k : Prog State unit) :
    (forall s, Q (f s)) -> Closing k -> Preserves Q k ->
    Establishes Q (Update f k)
| Establishes_update (f : State -> State) (k : Prog State unit) :
    Establishes Q k -> Establishes Q (Update f k)
| Establishes_emit (o : Output) (k : Prog State unit) :
    Establishes Q k -> Establishes Q (Emit o k)
| Establishes_call (c : Cmd) (k : Resp c -> Prog State unit) :
    (forall a, Establishes Q (k a)) -> Establishes Q (Call c k).

(** An owner of [Q] brings it about by the time it ends; any other
    handler keeps it. *)
Definition Suits (Q : State -> Prop) (owner : bool) (p : Prog State unit)
  : Prop :=
  if owner then Establishes Q p else Preserves Q p.

(** [Q] holds whenever none of its owners is in flight. *)
Record Guarded (Q : State -> Prop) (owns : Origin -> bool) (sys : Sys)
  : Prop := mkGuarded {
  guarded_tasks :
    Forall (fun t => forall a, Suits Q (owns (origin t)) (resume t a))
      (tasks sys);
  guarded_view :
    (forall t, In t (tasks sys) -> owns (origin t) = false) -> Q (view sys)
}.

Definition isInit (o : Origin) : bool :=
  match o with
  | FromInit => true
  | _ => false
  end.

(** A session is opened when it has a chat and something to show. *)
Definition hasChat (s : State) : Prop := user s <> None -> chat s <> None.
Definition hasTranscript (s : State) : Prop :=
  user s <> None -> messages s <> [].
Definition flagDown (s : State) : Prop := isLoading s = false.

(* ================================================================= *)
(** ** More JavaScript strings *)

Module Text.

(** [s.substring(0, n)] *)
Fixpoint take (n : nat) (s : string) : string :=
  match n, s with
  | Datatypes.S n', String c rest => String c (take n' rest)
  | _, _ => EmptyString
  end.

Definition isDigit (c : ascii) : bool :=
  let n := nat_of_ascii c in Nat.leb 48 n && Nat.leb n 57.

Definition isLower (c : ascii) : bool :=
  let n := nat_of_ascii c in Nat.leb 97 n && Nat.leb n 122.

Definition isUpper (c : ascii) : bool :=
  let n := nat_of_ascii c in Nat.leb 65 n && Nat.leb n 90.

(** A character the class [[a-z0-9]] matches under the [i] flag. *)
Definition isAlnum (c : ascii) : bool := isLower c || isUpper c || isDigit c.

Fixpoint mapChars (f : ascii -> ascii) (s : string) : string :=
  match s with
  | EmptyString => EmptyString
  | String c rest => String (f c) (mapChars f rest)
  end.

(** [s.replace(/[^a-z0-9]/gi, '_')] *)
Definition underscoreOthers (s : string) : string :=
  mapChars (fun c => if isAlnum c then c else "_"%char) s.

(** [toLowerCase] on one code unit below 256: the Latin capitals,
    [A-Z] and [U+00C0-U+00DE] but for the multiplication sign, move up
    by 32. *)
Definition lowerChar (c : ascii) : ascii :=
  let n := nat_of_ascii c in
  if isUpper c
     || (Nat.leb 192 n && Nat.leb n 222 && negb (Nat.eqb n 215))
  then ascii_of_nat (n + 32)
  else c.

(** [s.toLowerCase()] *)
Definition toLowerCase (s : string) : string := mapChars lowerChar s.

(** [s.split(sep)] for a one-character separator: the pieces between
    the separators, the empty ones included. *)
Fixpoint split (sep : ascii) (s : string) : list string :=
  match s with
  | EmptyString => [EmptyString]
  | String c rest =>
      if Ascii.eqb c sep then EmptyString :: split sep rest
      else match split sep rest with
           | piece :: pieces => String c piece :: pieces
           | [] => [String c EmptyString]
           end
  end.

(** No character of [s] is [c]. *)
Fixpoint lacks (c : ascii) (s : string) : bool :=
  match s with
  | EmptyString => true
  | String a rest => negb (Ascii.eqb a c) && lacks c rest
  end.

Fixpoint all (p : ascii -> bool) (s : string) : bool :=
  match s with
  | EmptyString => true
  | String c rest => p c && all p rest
  end.

End Text.

(* ================================================================= *)
(** ** components/Gallery.tsx: the name of a download *)

(** [prompt.substring(0, 30).replace(/[^a-z0-9]/gi, '_').toLowerCase()
      || 'gemini_image'] *)
Definition downloadFileName (promptText : string) : string :=
  let cleaned :=
    Text.toLowerCase (Text.underscoreOthers (Text.take 30 promptText)) in
  if JS.truthy cleaned then cleaned else "gemini_image".

(** What [handleDownload] gives the anchor it clicks: [href] and
    [download]. *)
Definition handleDownload (link promptText : string) : string * string :=
  (link, downloadFileName promptText ++ ".png").

(** A character of a download name: a lowercase letter, a digit or an
    underscore. *)
Definition isNameChar (c : ascii) : bool :=
  Text.isLower c || Text.isDigit c || Ascii.eqb c "_".

(* ================================================================= *)
(** ** The model API *)

From Stdlib Require QArith.

(** The values exchanged with [ai.models].  The SDK declares the fields
    of a response optional, and the code reads some of them with [?.]:
    an absent field is [None]. *)
Module GenAI.

Inductive Modality : Type := IMAGE | AUDIO.

(** [{ googleSearch: {} }] and [{ googleMaps: {} }] *)
Inductive Tool : Type := GoogleSearch | GoogleMaps.

(** A position; its coordinates are finite doubles, hence rationals. *)
Record LatLng : Type := mkLatLng {
  latitude : QArith_base.Q;
  longitude : QArith_base.Q
}.

(** [{ mimeType, data }] *)
Record InlineData : Type := mkInlineData {
  mimeType : string;
  data : option string
}.

(** A part carries [inlineData], [text], or neither. *)
Record Part : Type := mkPart {
  inlineData : option InlineData;
  text : option string
}.

Definition inlinePart (d : InlineData) : Part := mkPart (Some d) None.
Definition textPart (t : string) : Part := mkPart None (Some t).

(** The shapes of [contents] the code sends: a string, one
    [{ parts }] object, or an array of them. *)
Inductive Contents : Type :=
| Plain (s : string)
| Single (parts : list Part)
| Several (turns : list (list Part)).

(** The [config] object, flattened: [thinkingConfig.thinkingBudget],
    [responseModalities],
    [speechConfig.voiceConfig.prebuiltVoiceConfig.voiceName], [tools]
    and [toolConfig.retrievalConfig.latLng]. *)
Record Config : Type := mkConfig {
  thinkingBudget : option N;
  responseModalities : option (list Modality);
  voiceName : option string;
  tools : option (list Tool);
  latLng : option LatLng
}.

Record ContentRequest : Type := mkContentRequest {
  model : string;
  contents : Contents;
  config : option Config
}.

Record ImagesRequest : Type := mkImagesRequest {
  imagesModel : string;
  prompt : string;
  numberOfImages : N;
  outputMimeType : string;
  aspectRatio : string
}.

Record GroundingChunk : Type := mkGroundingChunk {
  uri : string;
  title : string
}.

Record Content : Type := mkContent { parts : option (list Part) }.

Record GroundingMetadata : Type := mkGroundingMetadata {
  groundingChunks : option (list GroundingChunk)
}.

Record Candidate : Type := mkCandidate {
  content : option Content;
  groundingMetadata : option GroundingMetadata
}.

Record ContentResponse : Type := mkContentResponse {
  responseText : option string;
  candidates : option (list Candidate)
}.

Record Image : Type := mkImage { imageBytes : option string }.

Record GeneratedImage : Type := mkGeneratedImage { image : option Image }.

Record ImagesResponse : Type := mkImagesResponse {
  generatedImages : option (list GeneratedImage)
}.

(** A [File]; the code reads its [type] alone. *)
Record File : Type := mkFile {
  fileName : string;
  fileType : string
}.

End GenAI.

(* ================================================================= *)
(** ** Programs that also talk to the model and to the browser *)

Inductive Query : Type :=
(** a call of the session and media layer *)
| Base (c : Cmd)
(** [window.confirm(question)] *)
| Confirm (question : string)
(** [ai.models.generateContent(request)] *)
| GenerateContent (request : GenAI.ContentRequest)
(** [ai.models.generateImages(request)] *)
| GenerateImages (request : GenAI.ImagesRequest)
(** [new FileReader().readAsDataURL(file)], settled by [onload] with
    [reader.result] or by [onerror] *)
| ReadAsDataURL (file : GenAI.File).

Definition Reply (q : Query) : Type :=
  match q with
  | Base c => Resp c
  | Confirm _ => bool
  | GenerateContent _ => Settled GenAI.ContentResponse
  | GenerateImages _ => Settled GenAI.ImagesResponse
  | ReadAsDataURL _ => Settled string
  end.

Inductive Act : Type :=
| Asked (q : Query)
| Said (o : Output).

Section Flows.

Variable S : Type.

Inductive Flow (R : Type) : Type :=
| Pure (r : R)
| Raise (e : Err)
| Modify (f : S -> S) (k : Flow R)
| Say (o : Output) (k : Flow R)
| Ask (q : Query) (k : Reply q -> Flow R).

Arguments Pure {R} r.
Arguments Raise {R} e.
Arguments Modify {R} f k.
Arguments Say {R} o k.
Arguments Ask {R} q k.

Fixpoint and_then {A B : Type} (p : Flow A) (q : A -> Flow B) : Flow B :=
  match p with
  | Pure a => q a
  | Raise e => Raise e
  | Modify f k => Modify f (and_then k q)
  | Say o k => Say o (and_then k q)
  | Ask c k => Ask c (fun r => and_then (k r) q)
  end.

(** [try { p } catch (e) { h e }] *)
Fixpoint attempt {A : Type} (p : Flow A) (h : Err -> Flow A) : Flow A :=
  match p with
  | Pure a => Pure a
  | Raise e => h e
  | Modify f k => Modify f (attempt k h)
  | Say o k => Say o (attempt k h)
  | Ask c k => Ask c (fun r => attempt (k r) h)
  end.

(** [try { p } finally { q }] *)
Fixpoint ensure {A : Type} (p : Flow A) (q : Flow unit) : Flow A :=
  match p with
  | Pure a => and_then q (fun _ => Pure a)
  | Raise e => and_then q (fun _ => Raise e)
  | Modify f k => Modify f (ensure k q)
  | Say o k => Say o (ensure k q)
  | Ask c k => Ask c (fun r => ensure (k r) q)
  end.

Definition ask (q : Query) : Flow (Reply q) := Ask q (fun r => Pure r).

(** [await] of a promise that may reject. *)
Definition settled {A : Type} (s : Settled A) : Flow A :=
  match s with
  | Resolved a => Pure a
  | Rejected e => Raise e
  end.

Definition modify (f : S -> S) : Flow unit := Modify f (Pure tt).
Definition say (o : Output) : Flow unit := Say o (Pure tt).

(** A program of the session and media layer, as it is. *)
Fixpoint lift {R : Type} (p : Prog S R) : Flow R :=
  match p with
  | Ret r => Pure r
  | Throw e => Raise e
  | Update f k => Modify f (lift k)
  | Emit o k => Say o (lift k)
  | Call c k => Ask (Base c) (fun r => lift (k r))
  end.

Definition Oracle (W : Type) : Type := forall q : Query, W -> Reply q * W.

Record Ran (W R : Type) : Type := mkRan {
  ended : S;
  after : W;
  trace : list Act;
  result : Settled R
}.

Definition traced {W R : Type} (a : Act) (r : Ran W R) : Ran W R :=
  {| ended := ended r; after := after r; trace := a :: trace r;
     result := result r |}.

Fixpoint perform {W R : Type} (h : Oracle W) (p : Flow R) (s : S) (w : W)
  : Ran W R :=
  match p with
  | Pure r => mkRan s w [] (Resolved r)
  | Raise e => mkRan s w [] (Rejected e)
  | Modify f k => perform h k (f s) w
  | Say o k => traced (Said o) (perform h k s w)
  | Ask q k =>
      let (a, w') := h q w in
      traced (Asked q) (perform h (k a) s w')
  end.

End Flows.

Arguments Pure {S R} r.
Arguments Raise {S R} e.
Arguments Modify {S R} f k.
Arguments Say {S R} o k.
Arguments Ask {S R} q k.
Arguments ask {S} q.
Arguments settled {S A} s.
Arguments modify {S} f.
Arguments say {S} o.

Declare Scope flow_scope.
Delimit Scope flow_scope with flow.
Bind Scope flow_scope with Flow.
Notation "x <- p ;; q" := (and_then p (fun x => q))
  (at level 61, p at next level, right associativity) : flow_scope.
Notation "p ;; q" := (and_then p (fun _ => q))
  (at level 61, right associativity) : flow_scope.

(** The part of an oracle that answers the session and media layer. *)
Definition baseOf {W : Type} (h : Oracle W) : Handler W :=
  fun c w => h (Base c) w.

Definition actOf (ev : Event) : Act :=
  match ev with
  | Issued c => Asked (Base c)
  | Printed o => Said o
  end.

(* ================================================================= *)
(** ** services/geminiService.ts: the model calls *)

Open Scope flow_scope.

(** The [TypeError] of reading [field] off [undefined]. *)
Definition typeError (field : string) : Err :=
  Error ("Cannot read properties of undefined (reading '" ++ field ++ "')").

Definition complexTaskFailureText : string :=
  "An error occurred while processing the complex task.".

Definition solveComplexTask {S : Type} (promptText : string)
  : Flow S (option string) :=
  attempt
    (answered <-
       ask (GenerateContent
              {| GenAI.model := "gemini-2.5-pro";
                 GenAI.contents := GenAI.Plain promptText;
                 GenAI.config :=
                   Some (GenAI.mkConfig (Some 32768%N) None None None None) |}) ;;
     response <- settled answered ;;
     Pure (GenAI.responseText response))
    (fun error =>
       say (ConsoleError "Error solving complex task:" (message error)) ;;
       Pure (Some complexTaskFailureText)).

(** [response.generatedImages[0].image.imageBytes] *)
Definition firstImageBytes {S : Type} (response : GenAI.ImagesResponse)
  : Flow S (option string) :=
  match GenAI.generatedImages response with
  | None => Raise (typeError "0")
  | Some [] => Raise (typeError "image")
  | Some (generated :: _) =>
      match GenAI.image generated with
      | None => Raise (typeError "imageBytes")
      | Some img => Pure (GenAI.imageBytes img)
      end
  end.

Definition generateImage {S : Type} (promptText aspect : string)
  : Flow S (option string) :=
  attempt
    (answered <-
       ask (GenerateImages
              {| GenAI.imagesModel := "imagen-4.0-generate-001";
                 GenAI.prompt := promptText;
                 GenAI.numberOfImages := 1;
                 GenAI.outputMimeType := "image/jpeg";
                 GenAI.aspectRatio := aspect |}) ;;
     response <- settled answered ;;
     firstImageBytes response)
    (fun error =>
       say (ConsoleError "Error generating image:" (message error)) ;;
       Raise (Error "Failed to generate image.")).

(** [result.split(',')[1]] *)
Definition afterFirstComma (dataUrl : string) : option string :=
  nth_error (Text.split ","%char dataUrl) 1.

Definition fileToGenerativePart {S : Type} (file : GenAI.File)
  : Flow S GenAI.InlineData :=
  read <- ask (ReadAsDataURL file) ;;
  dataUrl <- settled read ;;
  Pure {| GenAI.mimeType := GenAI.fileType file;
          GenAI.data := afterFirstComma dataUrl |}.

(** [response.candidates[0].content.parts], as the [for ... of] needs
    it: an absent link throws. *)
Definition firstCandidateParts {S : Type} (response : GenAI.ContentResponse)
  : Flow S (list GenAI.Part) :=
  match GenAI.candidates response with
  | None => Raise (typeError "0")
  | Some [] => Raise (typeError "content")
  | Some (candidate :: _) =>
      match GenAI.content candidate with
      | None => Raise (typeError "parts")
      | Some body =>
          match GenAI.parts body with
          | None => Raise (Error "undefined is not iterable")
          | Some ps => Pure ps
          end
      end
  end.

(** The loop of [editImage]: the data of the first part that carries
    [inlineData]; none is an error. *)
Fixpoint firstInlineData {S : Type} (ps : list GenAI.Part)
  : Flow S (option string) :=
  match ps with
  | [] => Raise (Error "No image found in response")
  | part :: rest =>
      match GenAI.inlineData part with
      | Some d => Pure (GenAI.data d)
      | None => firstInlineData rest
      end
  end.

Definition editImage {S : Type} (promptText : string) (imageFile : GenAI.File)
  : Flow S (option string) :=
  attempt
    (imagePart <- fileToGenerativePart imageFile ;;
     answered <-
       ask (GenerateContent
              {| GenAI.model := "gemini-2.5-flash-image";
                 GenAI.contents :=
                   GenAI.Single [ GenAI.inlinePart imagePart;
                                  GenAI.textPart promptText ];
                 GenAI.config :=
                   Some (GenAI.mkConfig None (Some [GenAI.IMAGE]) None None
                           None) |}) ;;
     response <- settled answered ;;
     ps <- firstCandidateParts response ;;
     firstInlineData ps)
    (fun error =>
       say (ConsoleError "Error editing image:" (message error)) ;;
       Raise (Error "Failed to edit image.")).

Definition analyzeImage {S : Type} (promptText : string)
    (imageFile : GenAI.File) : Flow S (option string) :=
  attempt
    (imagePart <- fileToGenerativePart imageFile ;;
     answered <-
       ask (GenerateContent
              {| GenAI.model := "gemini-2.5-flash";
                 GenAI.contents :=
                   GenAI.Single [ GenAI.inlinePart imagePart;
                                  GenAI.textPart promptText ];
                 GenAI.config := None |}) ;;
     response <- settled answered ;;
     Pure (GenAI.responseText response))
    (fun error =>
       say (ConsoleError "Error analyzing image:" (message error)) ;;
       Raise (Error "Failed to analyze image.")).

(** [response.candidates?.[0]?.groundingMetadata?.groundingChunks || []] *)
Definition groundingChunksOf (response : GenAI.ContentResponse)
  : list GenAI.GroundingChunk :=
  match GenAI.candidates response with
  | Some (candidate :: _) =>
      match GenAI.groundingMetadata candidate with
      | Some metadata =>
          match GenAI.groundingChunks metadata with
          | Some chunks => chunks
          | None => []
          end
      | None => []
      end
  | _ => []
  end.

(** The [config] of a grounded search: the one tool asked for, and the
    position only for a Maps search that has one. *)
Definition searchConfig (tool : GenAI.Tool) (location : option GenAI.LatLng)
  : GenAI.Config :=
  {| GenAI.thinkingBudget := None;
     GenAI.responseModalities := None;
     GenAI.voiceName := None;
     GenAI.tools := Some [tool];
     GenAI.latLng := match tool with
                     | GenAI.GoogleMaps => location
                     | GenAI.GoogleSearch => None
                     end |}.

Definition performGroundedSearch {S : Type} (query : string)
    (tool : GenAI.Tool) (location : option GenAI.LatLng)
  : Flow S (option string * list GenAI.GroundingChunk) :=
  attempt
    (answered <-
       ask (GenerateContent
              {| GenAI.model := "gemini-2.5-flash";
                 GenAI.contents := GenAI.Plain query;
                 GenAI.config := Some (searchConfig tool location) |}) ;;
     response <- settled answered ;;
     Pure (GenAI.responseText response, groundingChunksOf response))
    (fun error =>
       say (ConsoleError "Error with grounded search:" (message error)) ;;
       Raise (Error "Failed to perform grounded search.")).

(** [response.candidates?.[0]?.content?.parts?.[0]?.inlineData?.data] *)
Definition firstAudioData (response : GenAI.ContentResponse) : option string :=
  match GenAI.candidates response with
  | Some (candidate :: _) =>
      match GenAI.content candidate with
      | Some body =>
          match GenAI.parts body with
          | Some (part :: _) =>
              match GenAI.inlineData part with
              | Some d => GenAI.data d
              | None => None
              end
          | _ => None
          end
      | None => None
      end
  | _ => None
  end.

Definition generateSpeech {S : Type} (spoken : string) : Flow S string :=
  attempt
    (answered <-
       ask (GenerateContent
              {| GenAI.model := "gemini-2.5-flash-preview-tts";
                 GenAI.contents := GenAI.Several [ [ GenAI.textPart spoken ] ];
                 GenAI.config :=
                   Some (GenAI.mkConfig None (Some [GenAI.AUDIO])
                           (Some "Kore") None None) |}) ;;
     response <- settled answered ;;
     match firstAudioData response with
     | Some base64Audio =>
         if JS.truthy base64Audio then Pure base64Audio
         else Raise (Error "No audio data received.")
     | None => Raise (Error "No audio data received.")
     end)
    (fun error =>
       say (ConsoleError "Error generating speech:" (message error)) ;;
       Raise (Error "Failed to generate speech.")).

(* ================================================================= *)
(** ** components/ComplexTaskSolver.tsx *)

Module ComplexTaskSolver.

Record State : Type := mkState {
  prompt : string;
  result : option string;
  isLoading : bool;
  error : option string
}.

Definition setResult (v : option string) : Flow State unit :=
  modify (fun s => mkState (prompt s) v (isLoading s) (error s)).
Definition setIsLoading (b : bool) : Flow State unit :=
  modify (fun s => mkState (prompt s) (result s) b (error s)).
Definition setError (v : option string) : Flow State unit :=
  modify (fun s => mkState (prompt s) (result s) (isLoading s) v).

Definition handleSolve (seen : State) : Flow State unit :=
  if negb (JS.truthy (JS.trim (prompt seen)))
  then setError (Some "Please enter a prompt for the complex task.")
  else
    setIsLoading true ;;
    setError None ;;
    setResult None ;;
    ensure
      (attempt
         (response <- solveComplexTask (prompt seen) ;;
          setResult response)
         (fun err =>
            setError
              (Some "An error occurred while processing the task. Please try again.") ;;
            say (ConsoleError "" (message err))))
      (setIsLoading false).

End ComplexTaskSolver.

(* ================================================================= *)
(** ** components/ImageGenerator.tsx *)

(** Truthiness of a [string | null] cell. *)
Definition present (v : option string) : bool :=
  match v with
  | Some s => JS.truthy s
  | None => false
  end.

Module ImageGenerator.

Record State : Type := mkState {
  prompt : string;
  aspectRatio : string;
  generatedImage : option string;
  isLoading : bool;
  isSaving : bool;
  error : option string;
  user : option User
}.

Definition setGeneratedImage (v : option string) : Flow State unit :=
  modify (fun s => mkState (prompt s) (aspectRatio s) v (isLoading s)
                     (isSaving s) (error s) (user s)).
Definition setIsLoading (b : bool) : Flow State unit :=
  modify (fun s => mkState (prompt s) (aspectRatio s) (generatedImage s) b
                     (isSaving s) (error s) (user s)).
Definition setIsSaving (b : bool) : Flow State unit :=
  modify (fun s => mkState (prompt s) (aspectRatio s) (generatedImage s)
                     (isLoading s) b (error s) (user s)).
Definition setError (v : option string) : Flow State unit :=
  modify (fun s => mkState (prompt s) (aspectRatio s) (generatedImage s)
                     (isLoading s) (isSaving s) v (user s)).

Definition handleGenerate (seen : State) : Flow State unit :=
  if negb (JS.truthy (JS.trim (prompt seen)))
  then setError (Some "Please enter a prompt.")
  else
    setIsLoading true ;;
    setError None ;;
    setGeneratedImage None ;;
    ensure
      (attempt
         (imageBytes <- generateImage (prompt seen) (aspectRatio seen) ;;
          setGeneratedImage imageBytes)
         (fun err =>
            setError (Some "Failed to generate image. Please try again.") ;;
            say (ConsoleError "" (message err))))
      (setIsLoading false).

Definition handleSave (seen : State) : Flow State unit :=
  match generatedImage seen, user seen with
  | Some imageBytes, Some u =>
      if negb (JS.truthy imageBytes) then Pure tt
      else
        setIsSaving true ;;
        setError None ;;
        ensure
          (attempt
             (lift (saveImage (user_id u) (prompt seen) imageBytes) ;;
              say (Alert "Image saved to your gallery!"))
             (fun err =>
                setError (Some ("Failed to save image: " ++ message err)) ;;
                say (ConsoleError "" (message err))))
          (setIsSaving false)
  | _, _ => Pure tt
  end.

End ImageGenerator.

(* ================================================================= *)
(** ** components/ImageEditor.tsx *)

Module ImageEditor.

Record State : Type := mkState {
  prompt : string;
  originalImage : option GenAI.File;
  originalImagePreview : option string;
  editedImage : option string;
  isLoading : bool;
  isSaving : bool;
  error : option string;
  user : option User
}.

Definition setEditedImage (v : option string) : Flow State unit :=
  modify (fun s => mkState (prompt s) (originalImage s)
                     (originalImagePreview s) v (isLoading s) (isSaving s)
                     (error s) (user s)).
Definition setIsLoading (b : bool) : Flow State unit :=
  modify (fun s => mkState (prompt s) (originalImage s)
                     (originalImagePreview s) (editedImage s) b (isSaving s)
                     (error s) (user s)).
Definition setIsSaving (b : bool) : Flow State unit :=
  modify (fun s => mkState (prompt s) (originalImage s)
                     (originalImagePreview s) (editedImage s) (isLoading s) b
                     (error s) (user s)).
Definition setError (v : option string) : Flow State unit :=
  modify (fun s => mkState (prompt s) (originalImage s)
                     (originalImagePreview s) (editedImage s) (isLoading s)
                     (isSaving s) v (user s)).

Definition handleEdit (seen : State) : Flow State unit :=
  match originalImage seen with
  | Some file =>
      if negb (JS.truthy (JS.trim (prompt seen)))
      then setError (Some "Please provide an image and a prompt.")
      else
        setIsLoading true ;;
        setError None ;;
        setEditedImage None ;;
        ensure
          (attempt
             (imageBytes <- editImage (prompt seen) file ;;
              setEditedImage imageBytes)
             (fun err =>
                setError (Some "Failed to edit image. Please try again.") ;;
                say (ConsoleError "" (message err))))
          (setIsLoading false)
  | None => setError (Some "Please provide an image and a prompt.")
  end.

Definition handleSave (seen : State) : Flow State unit :=
  match editedImage seen, user seen with
  | Some imageBytes, Some u =>
      if negb (JS.truthy imageBytes) then Pure tt
      else
        setIsSaving true ;;
        setError None ;;
        ensure
          (attempt
             (lift (saveImage (user_id u) (prompt seen) imageBytes) ;;
              say (Alert "Image saved to your gallery!"))
             (fun err =>
                setError (Some ("Failed to save image: " ++ message err)) ;;
                say (ConsoleError "" (message err))))
          (setIsSaving false)
  | _, _ => Pure tt
  end.

End ImageEditor.

(* ================================================================= *)
(** ** components/ImageAnalyzer.tsx *)

Module ImageAnalyzer.

Record State : Type := mkState {
  prompt : string;
  imageFile : option GenAI.File;
  imagePreview : option string;
  analysisResult : option string;
  isLoading : bool;
  error : option string
}.

Definition setAnalysisResult (v : option string) : Flow State unit :=
  modify (fun s => mkState (prompt s) (imageFile s) (imagePreview s) v
                     (isLoading s) (error s)).
Definition setIsLoading (b : bool) : Flow State unit :=
  modify (fun s => mkState (prompt s) (imageFile s) (imagePreview s)
                     (analysisResult s) b (error s)).
Definition setError (v : option string) : Flow State unit :=
  modify (fun s => mkState (prompt s) (imageFile s) (imagePreview s)
                     (analysisResult s) (isLoading s) v).

Definition handleAnalyze (seen : State) : Flow State unit :=
  match imageFile seen with
  | Some file =>
      if negb (JS.truthy (JS.trim (prompt seen)))
      then setError (Some "Please provide an image and a prompt.")
      else
        setIsLoading true ;;
        setError None ;;
        setAnalysisResult None ;;
        ensure
          (attempt
             (analysis <- analyzeImage (prompt seen) file ;;
              setAnalysisResult analysis)
             (fun err =>
                setError (Some "Failed to analyze image. Please try again.") ;;
                say (ConsoleError "" (message err))))
          (setIsLoading false)
  | None => setError (Some "Please provide an image and a prompt.")
  end.

End ImageAnalyzer.

(* ================================================================= *)
(** ** components/GroundingSearch.tsx *)

Module GroundingSearch.

Record State : Type := mkState {
  query : string;
  searchTool : GenAI.Tool;
  result : option string;
  sources : list GenAI.GroundingChunk;
  isLoading : bool;
  error : option string;
  location : option GenAI.LatLng
}.

Definition setResult (v : option string) : Flow State unit :=
  modify (fun s => mkState (query s) (searchTool s) v (sources s)
                     (isLoading s) (error s) (location s)).
Definition setSources (v : list GenAI.GroundingChunk) : Flow State unit :=
  modify (fun s => mkState (query s) (searchTool s) (result s) v
                     (isLoading s) (error s) (location s)).
Definition setIsLoading (b : bool) : Flow State unit :=
  modify (fun s => mkState (query s) (searchTool s) (result s) (sources s) b
                     (error s) (location s)).
Definition setError (v : option string) : Flow State unit :=
  modify (fun s => mkState (query s) (searchTool s) (result s) (sources s)
                     (isLoading s) v (location s)).

Definition needsLocation (seen : State) : bool :=
  match searchTool seen, location seen with
  | GenAI.GoogleMaps, None => true
  | _, _ => false
  end.

Definition handleSearch (seen : State) : Flow State unit :=
  if negb (JS.truthy (JS.trim (query seen)))
  then setError (Some "Please enter a query.")
  else if needsLocation seen
  then setError
         (Some "Location is required for Maps search. Please allow location access.")
  else
    setIsLoading true ;;
    setError None ;;
    setResult None ;;
    setSources [] ;;
    ensure
      (attempt
         (found <- performGroundedSearch (query seen) (searchTool seen)
                     (location seen) ;;
          setResult (fst found) ;;
          setSources (snd found))
         (fun err =>
            setError (Some "Failed to perform search. Please try again.") ;;
            say (ConsoleError "" (message err))))
      (setIsLoading false).

End GroundingSearch.

(* ================================================================= *)
(** ** components/Gallery.tsx *)

Module Gallery.

Record State : Type := mkState {
  images : list GalleryImage;
  isLoading : bool;
  error : option string;
  user : option User
}.

(** [useState([])], [useState(true)], [useState(null)] *)
Definition initial (u : option User) : State := mkState [] true None u.

Definition setImages (v : list GalleryImage) : Flow State unit :=
  modify (fun s => mkState v (isLoading s) (error s) (user s)).
Definition setIsLoading (b : bool) : Flow State unit :=
  modify (fun s => mkState (images s) b (error s) (user s)).
Definition setError (v : option string) : Flow State unit :=
  modify (fun s => mkState (images s) (isLoading s) v (user s)).

Definition fetchImages (seen : State) : Flow State unit :=
  match user seen with
  | None => Pure tt
  | Some u =>
      setIsLoading true ;;
      setError None ;;
      ensure
        (attempt
           (userImages <- lift (getUserImages (user_id u)) ;;
            setImages userImages)
           (fun err =>
              setError (Some ("Failed to load gallery: " ++ message err))))
        (setIsLoading false)
  end.

(** [currentImages.filter(img => img.id !== image.id)] *)
Definition without (picked : GalleryImage) (shown : list GalleryImage)
  : list GalleryImage :=
  filter (fun img : GalleryImage =>
            negb (N.eqb (image_id img) (image_id picked))) shown.

Definition handleDelete (seen : State) (picked : GalleryImage)
  : Flow State unit :=
  match user seen with
  | None => Pure tt
  | Some u =>
      confirmed <- ask (Confirm "Are you sure you want to delete this image?") ;;
      if negb confirmed then Pure tt
      else
        attempt
          (lift (deleteImage (user_id u) (storage_path picked)) ;;
           modify (fun s => mkState (without picked (images s)) (isLoading s)
                              (error s) (user s)))
          (fun err => say (Alert ("Failed to delete image: " ++ message err)))
  end.

End Gallery.

(* ================================================================= *)
(** ** More vocabulary: plain programs, acts of a trace *)

(** A program of the service layer: it updates no state and its only
    output goes to the console. *)
Inductive Plain {S R : Type} : Prog S R -> Prop :=
| Plain_ret (r : R) : Plain (Ret r)
| Plain_throw (e : Err) : Plain (Throw e)
| Plain_emit (label detail : string) (k : Prog S R) :
    Plain k -> Plain (Emit (ConsoleError label detail) k)
| Plain_call (c : Cmd) (k : Resp c -> Prog S R) :
    (forall a, Plain (k a)) -> Plain (Call c k).

Definition isRequest (a : Act) : bool :=
  match a with
  | Asked (GenerateContent _) => true
  | Asked (GenerateImages _) => true
  | _ => false
  end.

Definition saysAlert (a : Act) : bool :=
  match a with
  | Said (Alert _) => true
  | _ => false
  end.

Definition hasInlineData (part : GenAI.Part) : bool :=
  match GenAI.inlineData part with
  | Some _ => true
  | None => false
  end.

(** A larger program that makes no state update. *)
Inductive Inert {S R : Type} : Flow S R -> Prop :=
| Inert_pure (r : R) : Inert (Pure r)
| Inert_raise (e : Err) : Inert (Raise e)
| Inert_say (o : Output) (k : Flow S R) : Inert k -> Inert (Say o k)
| Inert_ask (q : Query) (k : Reply q -> Flow S R) :
    (forall a, Inert (k a)) -> Inert (Ask q k).

(* ================================================================= *)
(** ** A reference model and browser *)

(** Answers to the queries the reference collaborator does not know:
    the confirmation dialog, the model and the file reader. *)
Module Studio.

Record Desk : Type := mkDesk {
  confirms : bool;
  answers : GenAI.ContentRequest -> Settled GenAI.ContentResponse;
  paints : GenAI.ImagesRequest -> Settled GenAI.ImagesResponse;
  reads : GenAI.File -> Settled string
}.

Definition serve (env : Backend.Env) (desk : Desk) : Oracle Backend.Store :=
  fun q =>
    match q as q' return Backend.Store -> Reply q' * Backend.Store with
    | Base c => Backend.serve env c
    | Confirm _ => fun st => (confirms desk, st)
    | GenerateContent request => fun st => (answers desk request, st)
    | GenerateImages request => fun st => (paints desk request, st)
    | ReadAsDataURL file => fun st => (reads desk file, st)
    end.

Definition textResponse (t : string) : GenAI.ContentResponse :=
  GenAI.mkContentResponse (Some t) None.

(** A response whose first candidate has the parts [ps]. *)
Definition partsResponse (ps : list GenAI.Part) : GenAI.ContentResponse :=
  GenAI.mkContentResponse None
    (Some [ GenAI.mkCandidate (Some (GenAI.mkContent (Some ps))) None ]).

(** Everything works: the user confirms, the model echoes, paints one
    image and returns one inline part after a text part, and files read
    as PNG data URLs. *)
Definition sound : Desk :=
  {| confirms := true;
     answers := fun request =>
       Resolved
         (GenAI.mkContentResponse (Some "An answer.")
            (Some [ GenAI.mkCandidate
                      (Some (GenAI.mkContent
                               (Some [ GenAI.textPart "Here it is.";
                                       GenAI.inlinePart
                                         (GenAI.mkInlineData "image/png"
                                            (Some "ZWRpdGVk")) ])))
                      None ]));
     paints := fun _ =>
       Resolved
         (GenAI.mkImagesResponse
            (Some [ GenAI.mkGeneratedImage
                      (Some (GenAI.mkImage (Some "cGFpbnRlZA=="))) ]));
     reads := fun _ => Resolved "data:image/png;base64,b3JpZ2luYWw=" |}.


(** The user declines every confirmation. *)
Definition declining : Desk :=
  mkDesk false (answers sound) (paints sound) (reads sound).

(** The model answers speech requests with one audio part. *)
Definition speaking : Desk :=
  mkDesk true
    (fun _ =>
       Resolved
         (partsResponse
            [ GenAI.inlinePart (GenAI.mkInlineData "audio/pcm" (Some "UENN")) ]))
    (paints sound) (reads sound).

End Studio.

Module Cases.

(** The upload to storage fails. *)
Definition uploadDown : Backend.Env :=
  Backend.failing
    (fun c => match c with
              | StorageUpload _ _ _ => Some (Error "quota exceeded")
              | _ => None
              end).

(** [atob] refuses its input. *)
Definition undecodable : Backend.Env :=
  Backend.mkEnv (fun _ => None)
    (fun _ => Rejected (Error "The string to be decoded is not correctly encoded."))
    (Backend.today Backend.sound) (Backend.reply Backend.sound)
    (Backend.knowledge_base Backend.sound).

(** Writes to [chat_history] fail. *)
Definition historyWriteDown : Backend.Env :=
  Backend.failing
    (fun c => match c with
              | ChatHistoryInsert _ => Some (Error "permission denied")
              | _ => None
              end).

(** The metadata read fails. *)
Definition imagesReadDown : Backend.Env :=
  Backend.failing
    (fun c => match c with
              | ImagesSelectDesc _ => Some (Error "permission denied")
              | _ => None
              end).

(** A store with a conversation of [alice] and a turn of [bob]. *)
Definition talked : Backend.Store :=
  Backend.mkStore [] []
    [ mkChatRow "alice" "user" "hello";
      mkChatRow "bob" "user" "hey";
      mkChatRow "alice" "assistant" "Hello, alice" ] 0.

Definition cat : GalleryImage :=
  mkGalleryImage (mkImageRow 1 "cat" "alice/p1.png" 10)
    "https://signed.example/alice/p1.png".

Definition owl : GalleryImage :=
  mkGalleryImage (mkImageRow 3 "owl" "alice/p3.png" 30)
    "https://signed.example/alice/p3.png".

(** A gallery that shows the two images of [alice]. *)
Definition shown : Gallery.State :=
  Gallery.mkState [owl; cat] false None (Some Scenario.alice).

Definition photo : GenAI.File := GenAI.mkFile "photo.png" "image/png".

(** An editor holding an edited image. *)
Definition edited : ImageEditor.State :=
  ImageEditor.mkState "make it blue" (Some photo) None (Some "aGk=") false
    false None (Some Scenario.alice).

End Cases.

Close Scope flow_scope.

(* ================================================================= *)
(** ** Facts about the string primitives *)

Lemma startsWith_spec (s sub : string) :
  JS.startsWith s sub = true <-> exists rest, s = sub ++ rest.
Proof.
  revert s; induction sub as [|b sub IH]; intros s; simpl.
  - split; [intros _; exists s; reflexivity | destruct s; reflexivity].
  - destruct s as [|a s]; simpl.
    + split; [discriminate | intros [rest H]; discriminate].
    + rewrite andb_true_iff, Ascii.eqb_eq, IH. split.
      * intros [-> [rest ->]]. exists rest. reflexivity.
      * intros [rest H]. injection H as -> ->. split; [reflexivity|].
        exists rest. reflexivity.
Qed.

(** [includes] finds exactly the substrings. *)
Lemma includes_spec (s sub : string) :
  JS.includes s sub = true <-> exists before after, s = before ++ sub ++ after.
Proof.
  induction s as [|a s IH]; cbn [JS.includes].
  - rewrite orb_false_r, startsWith_spec. split.
    + intros [rest H]. exists "", rest. exact H.
    + intros [before [after H]]. destruct before; simpl in H.
      * exists after. exact H.
      * discriminate.
  - rewrite orb_true_iff, startsWith_spec, IH. split.
    + intros [[rest H] | [before [after H]]].
      * exists "", rest. exact H.
      * exists (String a before), after. simpl. rewrite H. reflexivity.
    + intros [before [after H]]. destruct before as [|b before]; simpl in H.
      * left. exists after. exact H.
      * right. injection H as -> ->. exists before, after. reflexivity.
Qed.

Lemma trimStart_empty (s : string) :
  JS.trimStart s = "" <-> JS.blank s = true.
Proof.
  induction s as [|c s IH]; simpl.
  - split; reflexivity.
  - destruct (JS.isWhiteSpace c); simpl; [exact IH|].
    split; discriminate.
Qed.

Lemma blank_trimStart (s : string) : JS.blank (JS.trimStart s) = JS.blank s.
Proof.
  induction s as [|c s IH]; simpl; [reflexivity|].
  destruct (JS.isWhiteSpace c) eqn:E; simpl; [exact IH|].
  rewrite E. reflexivity.
Qed.

Lemma blank_rev_append (s acc : string) :
  JS.blank (JS.rev_append s acc) = JS.blank s && JS.blank acc.
Proof.
  revert acc; induction s as [|c s IH]; intros acc; simpl; [reflexivity|].
  rewrite IH. simpl.
  destruct (JS.isWhiteSpace c), (JS.blank s); reflexivity.
Qed.

Lemma rev_append_empty (s acc : string) :
  JS.rev_append s acc = "" <-> s = "" /\ acc = "".
Proof.
  revert acc; induction s as [|c s IH]; intros acc; simpl.
  - split; [intros ->; split; reflexivity | intros [_ H]; exact H].
  - rewrite IH. split; intros [H1 H2]; congruence.
Qed.

(** [!input.trim()] holds exactly for the white-space-only strings. *)
Lemma trim_blank (s : string) :
  JS.truthy (JS.trim s) = false <-> JS.blank s = true.
Proof.
  assert (T : forall t, JS.truthy t = false <-> t = "").
  { intros [|c t]; simpl; split; congruence. }
  rewrite T. unfold JS.trim, JS.trimEnd, JS.reverse.
  rewrite rev_append_empty, trimStart_empty, blank_rev_append,
    blank_trimStart, andb_true_r.
  split; [intros [H _]; exact H | intros H; split; [exact H | reflexivity]].
Qed.

(* ================================================================= *)
(** ** Facts about running programs *)

Section RunFacts.

Variables S W : Type.
Variable h : Handler W.

Lemma run_bind (A B : Type) (p : Prog S A) (q : A -> Prog S B) (s : S) (w : W) :
  run h (bind p q) s w =
    let r1 := run h p s w in
    match outcome r1 with
    | Resolved a =>
        let r2 := run h (q a) (final r1) (world r1) in
        mkRun (final r2) (world r2) (log r1 ++ log r2)%list (outcome r2)
    | Rejected e => mkRun (final r1) (world r1) (log r1) (Rejected e)
    end.
Proof.
  revert s w; induction p as [a|e|f k IH|o k IH|c k IH]; intros s w; simpl.
  - destruct (run h (q a) s w); reflexivity.
  - reflexivity.
  - apply IH.
  - rewrite IH. simpl. destruct (outcome (run h k s w)); reflexivity.
  - destruct (h c w) as [a w']. rewrite IH. simpl.
    destruct (outcome (run h (k a) s w')); reflexivity.
Qed.

End RunFacts.

(* ================================================================= *)
(** ** The gateway send never rejects *)

(** C9.  Whatever the gateway does, [sendMessageToChat] resolves: with
    the gateway's text when [chat.sendMessage] resolves, and with the
    fixed apology when it rejects.  The caller receives a plain string
    either way, the very outcome a gateway that answered with the apology
    would have produced. *)
Theorem sendMessageToChat_never_rejects
    (S W : Type) (h : Handler W) (c : Chat) (msg : string) (s : S) (w : W) :
  let r := run h (sendMessageToChat c msg) s w in
  outcome r =
    Resolved
      match fst (h (ChatSendMessage c msg) w) with
      | Resolved answer => answer
      | Rejected _ => "Sorry, I encountered an error. Please try again."
      end
  /\ final r = s
  /\ forall (W' : Type) (h' : Handler W') (w' : W') (e : Err),
       fst (h (ChatSendMessage c msg) w) = Rejected e ->
       fst (h' (ChatSendMessage c msg) w') =
         Resolved "Sorry, I encountered an error. Please try again." ->
       outcome (run h' (sendMessageToChat c msg) s w') = outcome r.
Proof.
  cbv zeta. unfold sendMessageToChat. simpl.
  destruct (h (ChatSendMessage c msg) w) as [[answer|e] w1] eqn:E; simpl;
    (split; [reflexivity | split; [reflexivity|]]);
    intros W' h' w' e' He Hh'; [discriminate|].
  destruct (h' (ChatSendMessage c msg) w') as [a' w1']. simpl in Hh'.
  subst a'. reflexivity.
Qed.

(* ================================================================= *)
(** ** Two-phase save and delete *)

(** C2.  When the upload succeeds and the insert fails, [saveImage] issues
    one [remove] for the path it has just uploaded, after the insert, and
    rejects with the insert error.  Nothing is assumed of the answer to
    that [remove]: whether it succeeds or fails, the rejection is the
    same. *)
Theorem saveImage_compensates_failed_insert
    (S W : Type) (h : Handler W) (s : S) (w0 w2 w3 w4 : W)
    (userId promptText imageBase64 iso : string) (imageBlob : Blob)
    (uploaded inserted : Response unit) (insertError : Err) :
  let decoded := run h (base64ToBlob imageBase64 None) s w0 in
  let filePath := userId ++ "/" ++ iso ++ ".png" in
  outcome decoded = Resolved imageBlob ->
  h DateToISOString (world decoded) = (iso, w2) ->
  h (StorageUpload "user_images" filePath imageBlob) w2 = (uploaded, w3) ->
  error uploaded = None ->
  h (ImagesInsert userId promptText filePath) w3 = (inserted, w4) ->
  error inserted = Some insertError ->
  let r := run h (saveImage userId promptText imageBase64) s w0 in
  outcome r =
    Rejected (Error ("Failed to save image metadata: " ++ message insertError))
  /\ log r =
       (log decoded ++
        [ Issued DateToISOString;
          Issued (StorageUpload "user_images" filePath imageBlob);
          Issued (ImagesInsert userId promptText filePath);
          Printed (ConsoleError "Database insert error:" (message insertError));
          Issued (StorageRemove "user_images" [filePath]) ])%list
  /\ world r = snd (h (StorageRemove "user_images" [filePath]) w4).
Proof.
  intros decoded filePath Hblob Hdate Hup Hok Hins Hfail r.
  subst r filePath. unfold saveImage, bucket. rewrite run_bind. fold decoded.
  cbv zeta. rewrite Hblob. simpl in *. rewrite Hdate. simpl.
  rewrite Hup. simpl. rewrite Hok. simpl.
  rewrite Hins. simpl. rewrite Hfail. simpl.
  match goal with
  | |- context [h (StorageRemove ?b ?p) w4] =>
      destruct (h (StorageRemove b p) w4) as [removed w5]
  end.
  simpl. repeat split; reflexivity.
Qed.

(** C4.  [deleteImage] always starts with the blob [remove]; the row
    delete, when it is issued at all, comes second and is scoped to
    [(userId, storagePath)].  When the blob delete succeeds and the row
    delete fails, the call rejects with the row-delete error and the log
    holds a single [remove]. *)
Theorem deleteImage_blob_then_row
    (S W : Type) (h : Handler W) (s : S) (w0 : W)
    (userId storagePath : string) :
  let r := run h (deleteImage userId storagePath) s w0 in
  (filter isCall (log r) = [ Issued (StorageRemove "user_images" [storagePath]) ]
   \/ filter isCall (log r) =
        [ Issued (StorageRemove "user_images" [storagePath]);
          Issued (ImagesDelete userId storagePath) ])
  /\ forall (removed deleted : Response unit) (w1 w2 : W) (dbError : Err),
       h (StorageRemove "user_images" [storagePath]) w0 = (removed, w1) ->
       error removed = None ->
       h (ImagesDelete userId storagePath) w1 = (deleted, w2) ->
       error deleted = Some dbError ->
       outcome r =
         Rejected (Error ("Failed to delete image record: " ++ message dbError))
       /\ log r =
            [ Issued (StorageRemove "user_images" [storagePath]);
              Issued (ImagesDelete userId storagePath);
              Printed (ConsoleError
                         "Failed to delete image metadata from database:"
                         (message dbError)) ]
       /\ world r = w2.
Proof.
  cbv zeta. unfold deleteImage, bucket. simpl.
  destruct (h (StorageRemove "user_images" [storagePath]) w0)
    as [removed w1] eqn:Hrm.
  simpl. destruct (error removed) as [storageError|] eqn:Hre; simpl.
  - split; [left; reflexivity|].
    intros removed' deleted w1' w2 dbError Heq Hnone. congruence.
  - destruct (h (ImagesDelete userId storagePath) w1) as [deleted w2] eqn:Hdel.
    simpl. split.
    + destruct (error deleted); simpl; right; reflexivity.
    + intros removed' deleted' w1' w2' dbError Heq _ Hdel' Hfail.
      injection Heq as <- <-. rewrite Hdel in Hdel'.
      injection Hdel' as <- <-. rewrite Hfail. simpl.
      repeat split; reflexivity.
Qed.

(** C10.  When the blob delete fails, [deleteImage] rejects with the
    storage error, the [remove] is the only call it has made, and the
    collaborator is left as that failed [remove] left it: no row delete
    has reached the metadata table. *)
Theorem deleteImage_stops_at_failed_blob_delete
    (S W : Type) (h : Handler W) (s : S) (w0 w1 : W)
    (userId storagePath : string) (removed : Response unit)
    (storageError : Err) :
  h (StorageRemove "user_images" [storagePath]) w0 = (removed, w1) ->
  error removed = Some storageError ->
  let r := run h (deleteImage userId storagePath) s w0 in
  outcome r =
    Rejected (Error ("Failed to delete image from storage: "
                     ++ message storageError))
  /\ log r = [ Issued (StorageRemove "user_images" [storagePath]) ]
  /\ world r = w1.
Proof.
  intros Hrm Hfail r. subst r. unfold deleteImage, bucket. simpl.
  rewrite Hrm. simpl. rewrite Hfail. simpl. repeat split; reflexivity.
Qed.

(* ================================================================= *)
(** ** The chat session, one handler at a time *)

(** A program cannot read the React state, so what it asks of the world
    does not depend on it. *)
Lemma run_state_irrelevant (S W R : Type) (h : Handler W) (p : Prog S R)
    (s s' : S) (w : W) :
  world (run h p s w) = world (run h p s' w)
  /\ log (run h p s w) = log (run h p s' w)
  /\ outcome (run h p s w) = outcome (run h p s' w).
Proof.
  revert s s' w; induction p as [a|e|f k IH|o k IH|c k IH]; intros s s' w;
    simpl.
  - repeat split.
  - repeat split.
  - apply IH.
  - destruct (IH s s' w) as [Hw [Hl Ho]]. simpl. rewrite Hl. auto.
  - destruct (h c w) as [a w1]. destruct (IH a s s' w1) as [Hw [Hl Ho]].
    simpl. rewrite Hl. auto.
Qed.

(** The knowledge base load absorbs every failure and touches no state. *)
Lemma loadKnowledge_total (W : Type) (h : Handler W) (s : State) (w : W) :
  exists knowledge,
    outcome (run h loadKnowledge s w) = Resolved knowledge
    /\ final (run h loadKnowledge s w) = s.
Proof.
  unfold loadKnowledge. simpl.
  destruct (h (Fetch "/knowledge_base.txt") w) as [[response|e] w1]; simpl.
  - destruct (ok response); simpl.
    + destruct (h (ResponseText response) w1) as [[body|e] w2]; simpl;
        eexists; split; reflexivity.
    + eexists; split; reflexivity.
  - eexists; split; reflexivity.
Qed.

Lemma tableMissing_spec (reason : string) :
  tableMissing reason = true <->
  mentions reason "does not exist" \/ mentions reason "Could not find the table".
Proof.
  unfold tableMissing, mentions.
  rewrite orb_true_iff, !includes_spec. reflexivity.
Qed.

(** C5, as the code has it.  After [initChat], the transcript is decided
    by the answer to the history read alone.  On a read error it is one
    notice: the setup-incomplete notice exactly when the error message
    mentions [does not exist] or [Could not find the table] (matched with
    their case), and the generic notice carrying the message otherwise.
    On a read without error that brings no rows it is the greeting. *)
Theorem initChat_transcript
    (W : Type) (h : Handler W) (s : State) (w0 w1 : W) (userId : string)
    (selected : Response (list Message)) :
  h (ChatHistorySelectAsc userId) (world (run h loadKnowledge s w0))
    = (selected, w1) ->
  let transcript := messages (final (run h (initChat userId) s w0)) in
  match error selected with
  | Some err =>
      (transcript = [setupIncompleteNotice] <->
       mentions (message err) "does not exist"
       \/ mentions (message err) "Could not find the table")
      /\ (transcript = [setupIncompleteNotice]
          \/ transcript = [loadErrorNotice (message err)])
  | None =>
      match data selected with
      | Some ((_ :: _) as rows) => transcript = rows
      | _ => transcript = [greeting]
      end
  end.
Proof.
  intros Hsel transcript. subst transcript. unfold initChat.
  remember loadKnowledge as load eqn:Eload. simpl.
  rewrite run_bind. subst load. cbv zeta.
  set (s1 := mkState (chat s) (messages s) (input s) true (user s)).
  destruct (loadKnowledge_total h s1 w0) as [knowledge [Hk Hs]].
  rewrite Hk, Hs.
  destruct (run_state_irrelevant h loadKnowledge s1 s w0) as [Hw _].
  rewrite Hw. remember (world (run h loadKnowledge s w0)) as wk eqn:Ewk.
  simpl. rewrite Hsel. simpl.
  destruct (error selected) as [err|]; simpl.
  - rewrite <- tableMissing_spec.
    destruct (tableMissing (message err)); simpl.
    + split; [split; reflexivity | left; reflexivity].
    + split; [|right; reflexivity].
      split; [intros H; discriminate H | intros H; discriminate H].
  - destruct (data selected) as [[|row rows]|]; reflexivity.
Qed.

(** C3.  [handleClearHistory] for a signed-in user.  When the durable
    delete fails, the whole component state (transcript and chat
    included) is left as it was and the failure is reported with an
    alert; no further call is made.  When it succeeds, the transcript is
    the single clearing message and the chat is a new one created without
    seed history. *)
Theorem handleClearHistory_outcomes
    (W : Type) (h : Handler W) (s : State) (w0 w1 : W) (u : User)
    (cleared : Response unit) :
  user s = Some u ->
  h (ChatHistoryDelete (user_id u)) w0 = (cleared, w1) ->
  let r := run h (handleClearHistory s) s w0 in
  match error cleared with
  | Some err =>
      final r = s
      /\ log r =
           [ Issued (ChatHistoryDelete (user_id u));
             Printed (ConsoleError "Failed to clear history:" (message err));
             Printed (Alert "Could not clear history. Please try again.") ]
      /\ world r = w1
  | None =>
      exists knowledge,
        final r =
          {| chat := Some (createChat (Some knowledge) None);
             messages :=
               [ {| sender := "bot";
                    text := "History cleared. How can I help you?" |} ];
             input := input s;
             isLoading := isLoading s;
             user := user s |}
        /\ history (createChat (Some knowledge) None) = None
  end.
Proof.
  intros Hu Hdel r. subst r. destruct s as [c ms typed busy us].
  simpl in Hu. subst us. unfold handleClearHistory.
  remember loadKnowledge as load eqn:Eload. simpl.
  rewrite Hdel. simpl.
  destruct (error cleared) as [err|]; simpl.
  - repeat split; reflexivity.
  - rewrite run_bind. subst load. cbv zeta.
    set (s1 := mkState c [historyCleared] typed busy (Some u)).
    destruct (loadKnowledge_total h s1 w1) as [knowledge [Hk Hs]].
    rewrite Hk, Hs. simpl. exists knowledge. split; reflexivity.
Qed.

(** An accepted [handleSend], run to its end: the user turn and one bot
    turn are appended, the input is emptied, and both turns are sent to
    [chat_history], whatever the gateway answered. *)
Lemma handleSend_accepted
    (W : Type) (h : Handler W) (seen s : State) (w : W) (c : Chat) (u : User) :
  chat seen = Some c ->
  user seen = Some u ->
  isLoading seen = false ->
  JS.blank (input seen) = false ->
  let botResponseText :=
    match fst (h (ChatSendMessage c (input seen)) w) with
    | Resolved answer => answer
    | Rejected _ => chatFailureText
    end in
  let r := run h (handleSend seen) s w in
  final r =
    {| chat := chat s;
       messages :=
         (messages s ++
          [ mkMessage "user" (input seen); mkMessage "bot" botResponseText ])%list;
       input := "";
       isLoading := false;
       user := user s |}
  /\ filter isCall (log r) =
       [ Issued (ChatSendMessage c (input seen));
         Issued (ChatHistoryInsert
                   [ mkChatRow (user_id u) "user" (input seen);
                     mkChatRow (user_id u) "bot" botResponseText ]) ].
Proof.
  intros Hc Hu Hl Hb. cbv zeta. unfold handleSend.
  rewrite Hc, Hu, Hl.
  destruct (JS.truthy (JS.trim (input seen))) eqn:Ht.
  2:{ apply trim_blank in Ht. congruence. }
  simpl.
  destruct (h (ChatSendMessage c (input seen)) w) as [[answer|e] w1]; simpl.
  - destruct (h (ChatHistoryInsert
                   [ mkChatRow (user_id u) "user" (input seen);
                     mkChatRow (user_id u) "bot" answer ]) w1)
      as [saved w2].
    simpl. destruct (error saved); simpl; rewrite <- app_assoc; split;
      reflexivity.
  - destruct (h (ChatHistoryInsert
                   [ mkChatRow (user_id u) "user" (input seen);
                     mkChatRow (user_id u) "bot" chatFailureText ]) w1)
      as [saved w2].
    simpl. destruct (error saved); simpl; rewrite <- app_assoc; split;
      reflexivity.
Qed.

(** C1, what the code does.  When [chat.sendMessage] rejects,
    [sendMessageToChat] has already turned the rejection into its apology
    text, so [handleSend] takes the success path: it appends the apology
    as the bot turn and then inserts both the user row and the apology row
    into [chat_history]. *)
Theorem handleSend_persists_failed_exchange
    (W : Type) (h : Handler W) (s : State) (w0 w1 : W) (c : Chat) (u : User)
    (e : Err) :
  chat s = Some c ->
  user s = Some u ->
  isLoading s = false ->
  JS.blank (input s) = false ->
  h (ChatSendMessage c (input s)) w0 = (Rejected e, w1) ->
  let r := run h (handleSend s) s w0 in
  let fallback := "Sorry, I encountered an error. Please try again." in
  messages (final r) =
    (messages s ++
     [ mkMessage "user" (input s); mkMessage "bot" fallback ])%list
  /\ filter isCall (log r) =
       [ Issued (ChatSendMessage c (input s));
         Issued (ChatHistoryInsert
                   [ mkChatRow (user_id u) "user" (input s);
                     mkChatRow (user_id u) "bot" fallback ]) ].
Proof.
  intros Hc Hu Hl Hb Hgw. cbv zeta.
  destruct (handleSend_accepted h s s w0 Hc Hu Hl Hb) as [Hfinal Hlog].
  rewrite Hgw in Hfinal, Hlog. simpl in Hfinal, Hlog.
  rewrite Hfinal, Hlog. split; reflexivity.
Qed.

Lemma sendTurn_appends (W : Type) (h : Handler W) (typed : string)
    (s : State) (w : W) :
  ready s ->
  JS.blank typed = false ->
  exists answered,
    ready (fst (sendTurn h typed (s, w)))
    /\ messages (fst (sendTurn h typed (s, w))) =
         (messages s ++ exchanges [(typed, answered)])%list.
Proof.
  intros [[c Hc] [[u Hu] Hl]] Hb. unfold sendTurn. simpl fst. simpl snd.
  set (seen := withInput typed s).
  destruct (@handleSend_accepted W h seen seen w c u Hc Hu Hl Hb)
    as [Hfinal _].
  rewrite Hfinal. eexists. split.
  - unfold ready. simpl. eauto.
  - reflexivity.
Qed.

(** C7.  From a ready session whose transcript holds [K] turns, [N]
    exchanges issued one after the other, each with a non-blank input,
    leave a transcript of [2N + K] turns: the [K] initial turns followed
    by [N] pairs, user turn first, bot turn second.  This holds for every
    behaviour of the gateway and of the durable store, so in particular
    when every exchange succeeds. *)
Theorem serial_sends_transcript
    (W : Type) (h : Handler W) (typed : list string) (s : State) (w : W) :
  ready s ->
  Forall (fun t => JS.blank t = false) typed ->
  let transcript := messages (fst (sendTurns h typed (s, w))) in
  exists answers,
    length answers = length typed
    /\ transcript = (messages s ++ exchanges (combine typed answers))%list
    /\ length transcript = 2 * length typed + length (messages s).
Proof.
  intros Hready Htyped. cbv zeta. unfold sendTurns.
  revert s w Hready.
  induction Htyped as [|t rest Ht Hrest IH]; intros s w Hready.
  - exists []. simpl. rewrite app_nil_r. auto.
  - simpl fold_left.
    destruct (@sendTurn_appends W h t s w Hready Ht) as [a [Hready' Hm]].
    destruct (sendTurn h t (s, w)) as [s1 w1] eqn:E. simpl in Hready', Hm.
    destruct (IH s1 w1 Hready') as [answers [Hlen [Htr Hcount]]].
    exists (a :: answers). split; [simpl; congruence|].
    split.
    + rewrite Htr, Hm. simpl. rewrite <- app_assoc. reflexivity.
    + rewrite Hcount, Hm. rewrite length_app. simpl. lia.
Qed.

(* ================================================================= *)
(** ** Listing the gallery *)

Lemma signAll_length (W : Type) (h : Handler W) (rows : list ImageRow) (w : W) :
  length (fst (signAll h rows w)) = length rows.
Proof.
  revert w; induction rows as [|row rest IH]; intros w; simpl; [reflexivity|].
  destruct (h (signRequest row) w) as [a w1].
  specialize (IH w1). destruct (signAll h rest w1) as [answers w2].
  simpl in *. congruence.
Qed.

Lemma run_promise_all_sign (S W : Type) (h : Handler W)
    (rows : list ImageRow) (s : S) (w : W) :
  let r := run h (promise_all (fun row => call (signRequest row)) rows) s w in
  outcome r = Resolved (fst (signAll h rows w))
  /\ world r = snd (signAll h rows w)
  /\ final r = s.
Proof.
  revert w; induction rows as [|row rest IH]; intros w; cbv zeta.
  - simpl. auto.
  - cbn [promise_all]. rewrite run_bind. cbn [call run signAll].
    destruct (h (signRequest row) w) as [a w1]. cbn.
    rewrite run_bind. destruct (IH w1) as [Ho [Hw Hf]]. cbv zeta in *.
    rewrite Ho, Hw, Hf. destruct (signAll h rest w1) as [answers w2].
    cbn. auto.
Qed.

(** The second [map]: with as many answers as rows it cannot throw, it
    keeps every row at its index and blanks the [url] of a failed one. *)
Lemma run_map_indexed_attach (S W : Type) (h : Handler W)
    (rows : list ImageRow) (before answers : list (Response string))
    (s : S) (w : W) :
  length answers = length rows ->
  let r := run h (map_indexed (attachUrl (before ++ answers)%list) rows
                    (length before)) s w in
  exists out,
    outcome r = Resolved out
    /\ map image out = rows
    /\ Forall2 (fun g a => url g = if signFailed a then ""
                                   else match data a with
                                        | Some signedUrl => signedUrl
                                        | None => ""
                                        end) out answers
    /\ world r = w /\ final r = s.
Proof.
  revert before answers; induction rows as [|row rest IH];
    intros before answers Hlen; cbv zeta.
  - destruct answers; [|discriminate]. simpl. exists []. repeat split; auto.
  - destruct answers as [|a answers]; [discriminate|].
    injection Hlen as Hlen.
    cbn [map_indexed]. rewrite run_bind. cbv zeta.
    assert (Hnth : nth_error (before ++ a :: answers) (length before) = Some a).
    { rewrite nth_error_app2, Nat.sub_diag by lia. reflexivity. }
    assert (Hstep : exists g,
               outcome (run h (attachUrl (before ++ a :: answers)%list row
                                 (length before)) s w) = Resolved g
               /\ image g = row
               /\ url g = (if signFailed a then ""
                           else match data a with
                                | Some signedUrl => signedUrl
                                | None => ""
                                end)
               /\ world (run h (attachUrl (before ++ a :: answers)%list row
                                  (length before)) s w) = w
               /\ final (run h (attachUrl (before ++ a :: answers)%list row
                                  (length before)) s w) = s).
    { unfold attachUrl, signFailed. rewrite Hnth.
      destruct (error a) as [e|]; [|destruct (data a) as [signedUrl|]]; simpl;
        eexists; repeat split; reflexivity. }
    destruct Hstep as [g [Ho [Hi [Hu [Hw Hf]]]]].
    rewrite Ho, Hw, Hf. rewrite run_bind. cbv zeta.
    specialize (IH (before ++ [a])%list answers Hlen). cbv zeta in IH.
    rewrite <- app_assoc, length_app in IH. simpl in IH.
    rewrite Nat.add_1_r in IH.
    destruct IH as [out [Ho' [Hi' [Hu' [Hw' Hf']]]]].
    rewrite Ho', Hw', Hf'. simpl. exists (g :: out).
    repeat split; simpl; try congruence. constructor; assumption.
Qed.

(** C6.  When the metadata read succeeds with [rows] (the rows of the
    user, which the query asks for in descending [created_at] order),
    [getUserImages] resolves with one entry per row, at the index of its
    row and carrying its fields; the [url] of an entry whose signed-URL
    request failed is the empty string; the order of the rows is kept, so
    a descending answer gives a descending gallery; and no rows give the
    empty gallery. *)
Theorem getUserImages_lists_every_row
    (S W : Type) (h : Handler W) (s : S) (w0 w1 : W) (userId : string)
    (rows : list ImageRow) :
  h (ImagesSelectDesc userId) w0 = (mkResponse (Some rows) None, w1) ->
  let r := run h (getUserImages userId) s w0 in
  exists gallery,
    outcome r = Resolved gallery
    /\ map image gallery = rows
    /\ Forall2
         (fun g a =>
            (signFailed a = true -> url g = "")
            /\ (forall signedUrl,
                  error a = None -> data a = Some signedUrl ->
                  url g = signedUrl))
         gallery (fst (signAll h rows w1))
    /\ (descending rows -> descending (map image gallery))
    /\ (rows = [] -> gallery = []).
Proof.
  intros Hsel. cbv zeta. unfold getUserImages. rewrite run_bind.
  cbn [call run]. rewrite Hsel. cbn.
  destruct rows as [|row rest].
  - exists []. cbn. repeat split; auto.
  - remember (row :: rest) as rows eqn:Erows.
    rewrite run_bind. unfold bucket.
    destruct (@run_promise_all_sign S W h rows s w1) as [Ho [Hw Hf]].
    unfold signRequest in Ho, Hw, Hf. cbv zeta.
    rewrite Ho, Hw, Hf.
    destruct (@run_map_indexed_attach S W h rows []
                (fst (signAll h rows w1)) s (snd (signAll h rows w1))
                (signAll_length h rows w1))
      as [out [Ho' [Hi' [Hu' _]]]].
    simpl in Ho'. rewrite Ho'. cbn. exists out.
    split; [reflexivity|]. split; [exact Hi'|]. split.
    + eapply Forall2_impl; [|exact Hu'].
      intros g a Hurl. simpl in Hurl. split.
      * intros Hfailed. rewrite Hfailed in Hurl. exact Hurl.
      * intros signedUrl He Hd. unfold signFailed in Hurl.
        rewrite He, Hd in Hurl. exact Hurl.
    + split; [rewrite Hi'; auto|]. subst rows. discriminate.
Qed.

(* ================================================================= *)
(** ** The event loop: one exchange in flight at most *)

Lemma advance_closing (p : Prog State unit) (s : State) :
  Closing p ->
  match snd (advance p s) with
  | Blocked _ _ => False
  | _ => True
  end.
Proof.
  intros H; revert s; induction H as [r|e|f k Hk IH|o k Hk IH]; intros s;
    simpl.
  - exact I.
  - exact I.
  - apply IH.
  - specialize (IH s). destruct (advance k s) as [[s' out] st]. exact IH.
Qed.

Lemma advance_holding (p : Prog State unit) (s : State) :
  Holding p ->
  match advance p s with
  | (s', _, Blocked c k) =>
      isLoading s' = isLoading s /\ forall a, Holding (k a)
  | _ => True
  end.
Proof.
  intros H; revert s; induction H as [p Hp|f k Hf Hk IH|o k Hk IH|c k Hk IH];
    intros s; simpl.
  - pose proof (advance_closing s Hp) as Hc.
    destruct (advance p s) as [[s' out] [| |c k]]; simpl in Hc; tauto.
  - specialize (IH (f s)).
    destruct (advance k (f s)) as [[s' out] [| |c k']]; auto.
    destruct IH as [Hl Hh]. rewrite Hl, Hf. auto.
  - specialize (IH s).
    destruct (advance k s) as [[s' out] [| |c k']]; auto.
  - auto.
Qed.

Lemma advance_aside (p : Prog State unit) (s : State) :
  Aside p ->
  match advance p s with
  | (s', _, st) =>
      isLoading s' = isLoading s
      /\ match st with
         | Blocked c k => forall a, Aside (k a)
         | _ => True
         end
  end.
Proof.
  intros H; revert s; induction H as [r|e|f k Hf Hk IH|o k Hk IH|c k Hk IH];
    intros s; simpl; auto.
  - specialize (IH (f s)).
    destruct (advance k (f s)) as [[s' out] st].
    destruct IH as [Hl Hh]. rewrite Hl, Hf. auto.
  - specialize (IH s).
    destruct (advance k s) as [[s' out] st]. exact IH.
Qed.

Lemma holders_app (xs ys : list Task) :
  holders (xs ++ ys) = holders xs + holders ys.
Proof.
  unfold holders. rewrite filter_app, length_app. reflexivity.
Qed.


(** Proves [Holding] and [Aside] goals by following the program text. *)
Ltac follow :=
  repeat first
    [ progress intros
    | progress
        (unfold settle, call, set, console_error, alert, setChat, setMessages,
           appendMessage, setInput, setIsLoading, sendMessageToChat)
    | progress simpl
    | apply Holding_call | apply Holding_emit
    | apply Aside_call | apply Aside_emit | apply Aside_ret | apply Aside_throw
    | apply Holding_update; [reflexivity|]
    | apply Aside_update; [reflexivity|]
    | match goal with
      | |- context [match ?x with _ => _ end] => destruct x
      end
    | solve [apply Holding_closing; repeat constructor] ].

Lemma loadKnowledge_then_holding (q : string -> Prog State unit) :
  (forall knowledge, Holding (q knowledge)) ->
  Holding (bind loadKnowledge q).
Proof.
  intros Hq. unfold loadKnowledge. follow; apply Hq.
Qed.

Lemma loadKnowledge_then_aside (q : string -> Prog State unit) :
  (forall knowledge, Aside (q knowledge)) ->
  Aside (bind loadKnowledge q).
Proof.
  intros Hq. unfold loadKnowledge. follow; apply Hq.
Qed.

Lemma inv_spawn_holding (o : Origin) (p : Prog State unit) (sys : Sys) :
  originHolds o = true ->
  Holding p ->
  Forall task_ok (tasks sys) ->
  holders (tasks sys) = 0 ->
  isLoading (view sys) = true ->
  Inv (spawn o p sys).
Proof.
  intros Ho Hp Hts Hnone Hflag. unfold spawn.
  pose proof (advance_holding (view sys) Hp) as Hadv.
  destruct (advance p (view sys)) as [[s' out] [| |c k]]; simpl.
  - constructor; simpl; [assumption | lia | lia].
  - constructor; simpl; [assumption | lia | lia].
  - destruct Hadv as [Hl Hk]. constructor; simpl.
    + apply Forall_app. split; [assumption|]. constructor; [|constructor].
      unfold task_ok, holdsFlag. simpl. rewrite Ho. exact Hk.
    + rewrite holders_app. unfold holders at 2, holdsFlag. simpl.
      rewrite Ho. simpl. lia.
    + intros _. congruence.
Qed.

Lemma inv_spawn_aside (o : Origin) (p : Prog State unit) (sys : Sys) :
  originHolds o = false ->
  Aside p ->
  Inv sys ->
  Inv (spawn o p sys).
Proof.
  intros Ho Hp [Hts Hone Hflag]. unfold spawn.
  pose proof (advance_aside (view sys) Hp) as Hadv.
  destruct (advance p (view sys)) as [[s' out] st].
  destruct Hadv as [Hl Hk].
  assert (Hsame : forall ts, holders ts = holders (tasks sys) ->
                             Forall task_ok ts ->
                             Inv {| view := s'; tasks := ts |}).
  { intros ts Hh Hok. constructor; simpl; [assumption | lia |].
    rewrite Hh, Hl. exact Hflag. }
  destruct st as [| |c k]; simpl; try (apply Hsame; [reflexivity|assumption]).
  apply Hsame.
  - rewrite holders_app. unfold holders at 2, holdsFlag. simpl.
    rewrite Ho. simpl. lia.
  - apply Forall_app. split; [assumption|]. constructor; [|constructor].
    unfold task_ok, holdsFlag. simpl. rewrite Ho. exact Hk.
Qed.

Lemma handleSend_rejects (seen : State) :
  isLoading seen = true \/ JS.blank (input seen) = true ->
  handleSend seen = Ret tt.
Proof.
  intros H. unfold handleSend.
  destruct (chat seen), (user seen); try reflexivity.
  destruct H as [H|H].
  - rewrite H, orb_true_r. reflexivity.
  - apply trim_blank in H. rewrite H. reflexivity.
Qed.

Lemma spawn_ret (o : Origin) (sys : Sys) : spawn o (Ret tt) sys = sys.
Proof. destruct sys; reflexivity. Qed.

Lemma spawn_update (o : Origin) (f : State -> State) (k : Prog State unit)
    (sys : Sys) :
  spawn o (Update f k) sys =
  spawn o k {| view := f (view sys); tasks := tasks sys |}.
Proof. reflexivity. Qed.

Lemma inv_mount (u : option User) : Inv (mount u).
Proof.
  unfold mount. destruct u as [usr|].
  - unfold initChat, setIsLoading, set. cbn [bind]. rewrite spawn_update.
    apply inv_spawn_holding; try reflexivity; [|constructor].
    apply loadKnowledge_then_holding. follow.
  - constructor; simpl; [constructor | unfold holders; simpl; lia |].
    unfold holders. simpl. discriminate.
Qed.

Lemma inv_spawn_initChat (usr : User) (sys : Sys) :
  Forall task_ok (tasks sys) ->
  idle sys ->
  Inv (spawn FromInit (initChat (user_id usr)) sys).
Proof.
  intros Hts Hidle.
  unfold initChat, setIsLoading, set. cbn [bind]. rewrite spawn_update.
  apply inv_spawn_holding; try reflexivity; try assumption.
  apply loadKnowledge_then_holding. follow.
Qed.

Lemma inv_step (auth : AuthPolicy) (sys sys' : Sys) :
  SignsInWhenIdle auth -> Inv sys -> step auth sys sys' -> Inv sys'.
Proof.
  intros Hauth HI Hstep.
  destruct Hstep
    as [sys value|sys|sys|sys before after t answer Hts|sys u Hu].
  - destruct HI as [Hts Hone Hflag]. constructor; simpl; assumption.
  - destruct (isLoading (view sys)) eqn:Hl.
    { rewrite handleSend_rejects by (left; exact Hl).
      rewrite spawn_ret. exact HI. }
    destruct (JS.truthy (JS.trim (input (view sys)))) eqn:Ht.
    2:{ rewrite handleSend_rejects by (right; apply trim_blank; exact Ht).
        rewrite spawn_ret. exact HI. }
    unfold handleSend. rewrite Hl, Ht.
    destruct (chat (view sys)) as [liveChat|] eqn:Hc;
      [|rewrite spawn_ret; exact HI].
    destruct (user (view sys)) as [u|] eqn:Hu;
      [|rewrite spawn_ret; exact HI].
    cbn [negb orb]. unfold appendMessage, setInput, setIsLoading, set.
    cbn [bind]. rewrite !spawn_update. cbn [view tasks].
    destruct HI as [Hts Hone Hflag].
    assert (Hzero : holders (tasks sys) = 0).
    { destruct (holders (tasks sys)) as [|[|n]] eqn:E; [reflexivity| |lia].
      specialize (Hflag eq_refl). congruence. }
    apply inv_spawn_holding; simpl; try reflexivity; try assumption.
    follow.
  - unfold handleClearHistory.
    destruct (user (view sys)) as [u|]; [|rewrite spawn_ret; exact HI].
    apply inv_spawn_aside; [reflexivity| |exact HI].
    follow.
  - destruct HI as [Hok Hone Hflag]. rewrite Hts in Hok, Hone, Hflag.
    apply Forall_app in Hok. destruct Hok as [Hb Hta].
    inversion Hta as [|t' after' Ht Ha]; subst.
    rewrite holders_app in Hone, Hflag.
    change (holders (t :: after))
      with (length (if holdsFlag t then t :: filter holdsFlag after
                    else filter holdsFlag after)) in Hone, Hflag.
    unfold task_ok in Ht.
    destruct (holdsFlag t) eqn:Eh.
    + simpl in Hone, Hflag. fold (holders after) in Hone, Hflag.
      apply inv_spawn_holding; simpl.
      * exact Eh.
      * apply Ht.
      * apply Forall_app. split; assumption.
      * rewrite holders_app. lia.
      * apply Hflag. lia.
    + fold (holders after) in Hone, Hflag.
      apply inv_spawn_aside.
      * exact Eh.
      * apply Ht.
      * constructor; simpl.
        -- apply Forall_app. split; assumption.
        -- rewrite holders_app. exact Hone.
        -- rewrite holders_app. exact Hflag.
  - unfold userChanged. destruct u as [usr|].
    + apply inv_spawn_initChat.
      * exact (inv_tasks HI).
      * exact (Hauth sys usr Hu).
    + destruct HI as [Hts Hone Hflag]. constructor; simpl; assumption.
Qed.

Lemma inv_reachable (auth : AuthPolicy) (u : option User) (sys : Sys) :
  SignsInWhenIdle auth -> reachable auth u sys -> Inv sys.
Proof.
  intros Hauth. induction 1 as [|sys sys' Hr IH Hs].
  - apply inv_mount.
  - exact (inv_step Hauth IH Hs).
Qed.


Lemma settleHead_reachable (auth : AuthPolicy) (u : option User)
    (oracle : forall c : Cmd, Resp c) (sys : Sys) :
  reachable auth u sys -> reachable auth u (Scenario.settleHead oracle sys).
Proof.
  intros Hr. unfold Scenario.settleHead.
  destruct (tasks sys) as [|t rest] eqn:Hts; [exact Hr|].
  eapply reach_step; [exact Hr|].
  exact (@step_settle auth sys [] rest t (oracle (pending t)) Hts).
Qed.

Lemma nth_error_parts (A : Type) (l : list A) (n : nat) (a : A) :
  nth_error l n = Some a -> l = (firstn n l ++ a :: skipn (S n) l)%list.
Proof.
  revert n; induction l as [|x l IH]; intros [|n] H; simpl in *;
    try discriminate.
  - congruence.
  - f_equal. apply IH. exact H.
Qed.

Lemma settleAt_reachable (auth : AuthPolicy) (u : option User) (n : nat)
    (oracle : forall c : Cmd, Resp c) (sys : Sys) :
  reachable auth u sys -> reachable auth u (Scenario.settleAt n oracle sys).
Proof.
  intros Hr. unfold Scenario.settleAt.
  destruct (nth_error (tasks sys) n) as [t|] eqn:Hn; [|exact Hr].
  eapply reach_step; [exact Hr|].
  exact (@step_settle auth sys (firstn n (tasks sys))
           (skipn (S n) (tasks sys)) t (oracle (pending t))
           (nth_error_parts _ _ Hn)).
Qed.

Lemma typing_reachable (auth : AuthPolicy) (u : option User) (value : string)
    (sys : Sys) :
  reachable auth u sys -> reachable auth u (Scenario.typing value sys).
Proof. intros Hr. eapply reach_step; [exact Hr | apply step_change]. Qed.

Lemma pressSend_reachable (auth : AuthPolicy) (u : option User) (sys : Sys) :
  reachable auth u sys -> reachable auth u (Scenario.pressSend sys).
Proof. intros Hr. eapply reach_step; [exact Hr | apply step_send]. Qed.

Lemma opened_reachable (auth : AuthPolicy) :
  reachable auth (Some Scenario.alice) Scenario.opened.
Proof.
  unfold Scenario.opened. do 3 apply settleHead_reachable. apply reach_mount.
Qed.

Lemma midExchange_reachable (auth : AuthPolicy) :
  reachable auth (Some Scenario.alice) Scenario.midExchange.
Proof.
  unfold Scenario.midExchange.
  apply typing_reachable, pressSend_reachable, typing_reachable.
  do 3 apply settleHead_reachable. apply reach_mount.
Qed.

Example opened_view :
  view Scenario.opened =
    {| chat := Some Scenario.liveChat; messages := [greeting]; input := "";
       isLoading := false; user := Some Scenario.alice |}
  /\ tasks Scenario.opened = [].
Proof. split; reflexivity. Qed.

(** A signed-in user handed out to an idle component, followed by an
    exchange: allowed by [whenIdle]. *)
Lemma resumed_reachable :
  reachable whenIdle (Some Scenario.alice) Scenario.resumed.
Proof.
  unfold Scenario.resumed.
  apply typing_reachable, pressSend_reachable, typing_reachable.
  do 3 apply settleHead_reachable.
  eapply reach_step; [apply opened_reachable|].
  apply step_auth. intros _. reflexivity.
Qed.

Example resumed_view :
  view Scenario.resumed =
    {| chat := Some Scenario.liveChat;
       messages := [greeting; mkMessage "user" "hi"];
       input := "and another thing";
       isLoading := true;
       user := Some Scenario.alice |}
  /\ outstanding Scenario.resumed = 1.
Proof. split; reflexivity. Qed.

Lemma whenIdle_signs_in_when_idle : SignsInWhenIdle whenIdle.
Proof. intros sys usr H. apply H. discriminate. Qed.

(** A signed-in user handed out in the middle of an exchange. *)
Lemma overtaken_reachable :
  reachable anytime (Some Scenario.alice) Scenario.overtaken.
Proof.
  unfold Scenario.overtaken.
  apply typing_reachable, settleAt_reachable, settleHead_reachable.
  apply pressSend_reachable, typing_reachable.
  do 3 apply settleAt_reachable.
  eapply reach_step; [|apply step_auth; exact I].
  apply pressSend_reachable, typing_reachable, opened_reachable.
Qed.

Example midExchange_view :
  view Scenario.midExchange =
    {| chat := Some Scenario.liveChat;
       messages := [greeting; mkMessage "user" "hi"];
       input := "and another thing";
       isLoading := true;
       user := Some Scenario.alice |}
  /\ outstanding Scenario.midExchange = 1.
Proof. split; reflexivity. Qed.

(* ================================================================= *)
(** ** Running to completion is one schedule of the event loop *)

Lemma spawn_emit (o : Origin) (x : Output) (k : Prog State unit) (sys : Sys) :
  spawn o (Emit x k) sys = spawn o k sys.
Proof.
  unfold spawn. simpl.
  destruct (advance k (view sys)) as [[s' out] st]. reflexivity.
Qed.

(** Started from any state and beside any pending tasks, a handler whose
    promises are settled at once with the answers of [h] ends in the
    state [run] computes, the other tasks untouched. *)
Lemma run_is_a_schedule (auth : AuthPolicy) (W : Type) (h : Handler W)
    (o : Origin) (p : Prog State unit) (s : State) (ts : list Task) (w : W) :
  steps auth (spawn o p {| view := s; tasks := ts |})
        {| view := final (run h p s w); tasks := ts |}.
Proof.
  revert s w; induction p as [r|e|f k IH|x k IH|c k IH]; intros s w.
  - apply steps_refl.
  - apply steps_refl.
  - rewrite spawn_update. apply IH.
  - rewrite spawn_emit. apply IH.
  - simpl run. destruct (h c w) as [a w1]. simpl final.
    eapply steps_step.
    + exact (@step_settle auth
               {| view := s; tasks := (ts ++ [mkTask o c k])%list |}
               ts [] (mkTask o c k) a eq_refl).
    + simpl. rewrite app_nil_r. apply IH.
Qed.

(* ================================================================= *)
(** ** The reference store answers as the queries ask *)

Lemma insert_desc_Forall (P : ImageRow -> Prop) (r : ImageRow)
    (l : list ImageRow) :
  P r -> Forall P l -> Forall P (Backend.insert_desc r l).
Proof.
  intros Hr Hl. induction Hl as [|x rest Hx Hrest IH]; simpl.
  - constructor; [exact Hr | constructor].
  - destruct (N.leb (created_at x) (created_at r)).
    + constructor; [exact Hr|]. constructor; assumption.
    + constructor; assumption.
Qed.

Lemma insert_desc_descending (r : ImageRow) (l : list ImageRow) :
  descending l -> descending (Backend.insert_desc r l).
Proof.
  unfold descending. intros Hl.
  induction Hl as [|x rest Hrest IH Hx]; simpl.
  - constructor; constructor.
  - destruct (N.leb (created_at x) (created_at r)) eqn:E.
    + apply N.leb_le in E. constructor.
      * constructor; assumption.
      * constructor; [exact E|].
        eapply Forall_impl; [|exact Hx]. simpl. intros b Hb. lia.
    + apply N.leb_gt in E. constructor; [exact IH|].
      apply insert_desc_Forall; [lia | exact Hx].
Qed.

(** The rows the reference store selects come newest first. *)
Lemma select_images_descending (userId : string) (st : Backend.Store) :
  descending (Backend.select_images userId st).
Proof.
  unfold Backend.select_images.
  induction (map snd
               (filter (fun p => String.eqb (fst p) userId)
                  (Backend.user_images st))) as [|r l IH]; simpl.
  - constructor.
  - apply insert_desc_descending. exact IH.
Qed.

Lemma insert_desc_length (r : ImageRow) (l : list ImageRow) :
  length (Backend.insert_desc r l) = Datatypes.S (length l).
Proof.
  induction l as [|x rest IH]; simpl; [reflexivity|].
  destruct (N.leb (created_at x) (created_at r)); simpl; congruence.
Qed.

(** And there is one of them for each row of the user. *)
Lemma select_images_length (userId : string) (st : Backend.Store) :
  length (Backend.select_images userId st) =
  length (filter (fun p => String.eqb (fst p) userId) (Backend.user_images st)).
Proof.
  unfold Backend.select_images. rewrite <- (length_map snd).
  induction (map snd
               (filter (fun p => String.eqb (fst p) userId)
                  (Backend.user_images st))) as [|r l IH]; simpl.
  - reflexivity.
  - rewrite insert_desc_length, IH. reflexivity.
Qed.

(* ================================================================= *)
(** ** The theorems at work *)

(** *** The code on concrete inputs *)

Example trim_padded : JS.trim "  hi there
 " = "hi there".
Proof. reflexivity. Qed.

Example includes_is_case_sensitive :
  JS.includes "Could not find the table 'public.chat_history'"
    "Could not find the table" = true
  /\ JS.includes "could not find the table" "Could not find the table" = false.
Proof. split; reflexivity. Qed.

Example saveImage_sound :
  let r := run (Backend.serve Backend.sound) (saveImage "alice" "cat" "aGk=")
             tt Backend.empty in
  outcome r = Resolved tt
  /\ Backend.user_images (world r) =
       [ ("alice",
          mkImageRow 0 "cat" "alice/2025-01-01T00:00:00.000Z.png" 0) ]
  /\ map fst (Backend.objects (world r)) =
       [ "alice/2025-01-01T00:00:00.000Z.png" ].
Proof. repeat split. Qed.

Example deleteImage_sound :
  let r := run (Backend.serve Backend.sound)
             (deleteImage "alice" "alice/p1.png") tt Scenario.gallery in
  outcome r = Resolved tt
  /\ map (fun p => image_id (snd p)) (Backend.user_images (world r)) = [2; 3]%N.
Proof. split; reflexivity. Qed.

Example initChat_restores_history :
  let stored :=
    Backend.mkStore [] []
      [ mkChatRow "alice" "user" "hello"; mkChatRow "bob" "user" "hey";
        mkChatRow "alice" "bot" "Hello, alice" ] 0 in
  final (run (Backend.serve Backend.sound) (initChat "alice")
           Scenario.initial stored)
  = {| chat :=
         Some (createChat (Some "EBURON knowledge")
                 (Some [ mkContent "user" ["hello"];
                         mkContent "model" ["Hello, alice"] ]));
       messages := [ mkMessage "user" "hello"; mkMessage "bot" "Hello, alice" ];
       input := "";
       isLoading := false;
       user := Some Scenario.alice |}.
Proof. reflexivity. Qed.

Example initChat_greets :
  messages (final (run (Backend.serve Backend.sound) (initChat "alice")
                     Scenario.initial Backend.empty))
  = [greeting].
Proof. reflexivity. Qed.

Example handleSend_sound :
  let s := Scenario.readyState "hi" in
  let r := run (Backend.serve Backend.sound) (handleSend s) s Backend.empty in
  messages (final r) =
    [ greeting; mkMessage "user" "hi"; mkMessage "bot" "You said: hi" ]
  /\ Backend.chat_history (world r) =
       [ mkChatRow "alice" "user" "hi";
         mkChatRow "alice" "bot" "You said: hi" ].
Proof. split; reflexivity. Qed.

Example handleSend_blank_input :
  let s := Scenario.readyState "   " in
  run (Backend.serve Backend.sound) (handleSend s) s Backend.empty
  = mkRun s Backend.empty [] (Resolved tt).
Proof. reflexivity. Qed.

Example handleClearHistory_sound :
  let s := Scenario.readyState "" in
  let r := run (Backend.serve Backend.sound) (handleClearHistory s) s
             Backend.empty in
  messages (final r) = [historyCleared]
  /\ chat (final r) = Some (createChat (Some "EBURON knowledge") None).
Proof. split; reflexivity. Qed.

(** *** The theorems on concrete inputs *)

(** With the gateway down, the caller still receives a string, the same
    one an apologising gateway would have sent. *)
Lemma sendMessageToChat_never_rejects_witness :
  outcome (run (Backend.serve Scenario.gatewayDown)
             (sendMessageToChat Scenario.liveChat "hi") tt Backend.empty)
    = Resolved "Sorry, I encountered an error. Please try again."
  /\ outcome (run (Backend.serve Scenario.apologetic)
                (sendMessageToChat Scenario.liveChat "hi") tt Backend.empty)
     = outcome (run (Backend.serve Scenario.gatewayDown)
                  (sendMessageToChat Scenario.liveChat "hi") tt Backend.empty).
Proof.
  destruct (sendMessageToChat_never_rejects
              (Backend.serve Scenario.gatewayDown) Scenario.liveChat "hi" tt
              Backend.empty) as [Hout [_ Hsame]].
  split.
  - exact Hout.
  - exact (Hsame _ (Backend.serve Scenario.apologetic) Backend.empty
             (Error "503 Service Unavailable") eq_refl eq_refl).
Defined.

(** The insert fails and so does the compensating removal: one removal
    is attempted and the insert error is the one reported. *)
Lemma saveImage_compensates_failed_insert_witness :
  let h := Backend.serve Scenario.insertDown in
  let r := run h (saveImage "alice" "cat" "aGk=") tt Backend.empty in
  outcome r =
    Rejected (Error "Failed to save image metadata: permission denied")
  /\ filter (fun ev => match ev with
                       | Issued (StorageRemove _ _) => true
                       | _ => false
                       end) (log r)
     = [ Issued (StorageRemove "user_images"
                   ["alice/2025-01-01T00:00:00.000Z.png"]) ].
Proof.
  cbv zeta.
  destruct (@saveImage_compensates_failed_insert unit Backend.Store
              (Backend.serve Scenario.insertDown) tt Backend.empty
              Backend.empty
              (Backend.mkStore
                 [("alice/2025-01-01T00:00:00.000Z.png",
                   mkBlob [97; 71; 107; 61]%N "image/png")] [] [] 0)
              (Backend.mkStore
                 [("alice/2025-01-01T00:00:00.000Z.png",
                   mkBlob [97; 71; 107; 61]%N "image/png")] [] [] 0)
              "alice" "cat" "aGk=" "2025-01-01T00:00:00.000Z"
              (mkBlob [97; 71; 107; 61]%N "image/png")
              (Backend.succeeded tt)
              (Backend.failed (Error "permission denied"))
              (Error "permission denied")
              eq_refl eq_refl eq_refl eq_refl eq_refl eq_refl)
    as [Hout [Hlog _]].
  split.
  - exact Hout.
  - rewrite Hlog. reflexivity.
Defined.

(** The blob goes, the row delete fails, and the blob is not removed a
    second time. *)
Lemma deleteImage_blob_then_row_witness :
  let h := Backend.serve Scenario.rowDeleteDown in
  let r := run h (deleteImage "alice" "alice/p1.png") tt Scenario.gallery in
  outcome r =
    Rejected (Error "Failed to delete image record: permission denied")
  /\ filter isCall (log r) =
       [ Issued (StorageRemove "user_images" ["alice/p1.png"]);
         Issued (ImagesDelete "alice" "alice/p1.png") ].
Proof.
  cbv zeta.
  destruct (deleteImage_blob_then_row
              (Backend.serve Scenario.rowDeleteDown) tt Scenario.gallery
              "alice" "alice/p1.png") as [_ Hfail].
  destruct (Hfail (Backend.succeeded tt)
              (Backend.failed (Error "permission denied"))
              Scenario.gallery Scenario.gallery (Error "permission denied")
              eq_refl eq_refl eq_refl eq_refl) as [Hout [Hlog _]].
  split.
  - exact Hout.
  - rewrite Hlog. reflexivity.
Defined.

(** The blob removal fails: the table of the reference store is as it
    was. *)
Lemma deleteImage_stops_at_failed_blob_delete_witness :
  let h := Backend.serve Scenario.removeDown in
  let r := run h (deleteImage "alice" "alice/p1.png") tt Scenario.gallery in
  outcome r =
    Rejected (Error "Failed to delete image from storage: bucket unavailable")
  /\ log r = [ Issued (StorageRemove "user_images" ["alice/p1.png"]) ]
  /\ Backend.user_images (world r) = Backend.user_images Scenario.gallery.
Proof.
  cbv zeta.
  destruct (@deleteImage_stops_at_failed_blob_delete unit Backend.Store
              (Backend.serve Scenario.removeDown) tt Scenario.gallery
              Scenario.gallery "alice" "alice/p1.png"
              (Backend.failed (Error "bucket unavailable"))
              (Error "bucket unavailable") eq_refl eq_refl)
    as [Hout [Hlog Hworld]].
  split; [exact Hout|]. split; [exact Hlog|]. rewrite Hworld. reflexivity.
Defined.

(** A Postgres [does not exist] error brings the setup-incomplete
    notice. *)
Lemma initChat_transcript_witness :
  messages
    (final (run (Backend.serve
                   (Scenario.historyDown
                      "relation public.chat_history does not exist"))
              (initChat "alice") Scenario.initial Backend.empty))
  = [setupIncompleteNotice].
Proof.
  pose proof (@initChat_transcript Backend.Store
                (Backend.serve
                   (Scenario.historyDown
                      "relation public.chat_history does not exist"))
                Scenario.initial Backend.empty Backend.empty "alice"
                (Backend.failed
                   (Error "relation public.chat_history does not exist"))
                eq_refl) as H.
  cbv zeta in H. simpl error in H. destruct H as [Hiff _].
  apply Hiff. left.
  exists "relation public.chat_history ", "". reflexivity.
Defined.

(** C5, as the specification words it, fails: an error message that
    holds [could not find the table] in lower case passes the
    specification's test, and the code answers with the generic notice. *)
Lemma initChat_lowercase_counterexample :
  let reason := "could not find the table" in
  let r := run (Backend.serve (Scenario.historyDown reason))
             (initChat "alice") Scenario.initial Backend.empty in
  specTableMissing reason = true
  /\ messages (final r) = [loadErrorNotice reason]
  /\ messages (final r) <> [setupIncompleteNotice].
Proof.
  cbv zeta. split; [reflexivity|]. split; [reflexivity|].
  intros H. discriminate H.
Qed.

(** The durable delete fails: the state is untouched and the user is
    alerted. *)
Lemma handleClearHistory_outcomes_witness :
  let s := Scenario.readyState "" in
  let r := run (Backend.serve Scenario.clearDown) (handleClearHistory s) s
             Backend.empty in
  final r = s
  /\ List.In (Printed (Alert "Could not clear history. Please try again."))
       (log r).
Proof.
  cbv zeta.
  pose proof (@handleClearHistory_outcomes Backend.Store
                (Backend.serve Scenario.clearDown) (Scenario.readyState "")
                Backend.empty Backend.empty Scenario.alice
                (Backend.failed (Error "permission denied"))
                eq_refl eq_refl) as H.
  cbv zeta in H. simpl error in H. destruct H as [Hfinal [Hlog _]].
  split; [exact Hfinal|]. rewrite Hlog. simpl. auto.
Defined.

(** With the gateway down, the apology turn reaches [chat_history]
    together with the user turn. *)
Lemma handleSend_persists_failed_exchange_witness :
  let s := Scenario.readyState "hi" in
  let r := run (Backend.serve Scenario.gatewayDown) (handleSend s) s
             Backend.empty in
  messages (final r) =
    [ greeting; mkMessage "user" "hi";
      mkMessage "bot" "Sorry, I encountered an error. Please try again." ]
  /\ Backend.chat_history (world r) =
       [ mkChatRow "alice" "user" "hi";
         mkChatRow "alice" "bot"
           "Sorry, I encountered an error. Please try again." ].
Proof.
  cbv zeta.
  destruct (@handleSend_persists_failed_exchange Backend.Store
              (Backend.serve Scenario.gatewayDown) (Scenario.readyState "hi")
              Backend.empty Backend.empty Scenario.liveChat Scenario.alice
              (Error "503 Service Unavailable")
              eq_refl eq_refl eq_refl eq_refl eq_refl) as [Hm _].
  split; [exact Hm | reflexivity].
Defined.

(** Two exchanges after the greeting: five turns, user and bot in
    alternation after the first. *)
Lemma serial_sends_transcript_witness :
  let s := Scenario.readyState "" in
  let transcript :=
    messages (fst (sendTurns (Backend.serve Backend.sound) ["hi"; "bye"]
                     (s, Backend.empty))) in
  length transcript = 5
  /\ map sender transcript = ["bot"; "user"; "bot"; "user"; "bot"].
Proof.
  cbv zeta.
  assert (Hready : ready (Scenario.readyState "")).
  { unfold ready. simpl. eauto. }
  assert (Htyped : Forall (fun t => JS.blank t = false) ["hi"; "bye"]).
  { repeat constructor. }
  destruct (@serial_sends_transcript Backend.Store
              (Backend.serve Backend.sound) ["hi"; "bye"]
              (Scenario.readyState "") Backend.empty Hready Htyped)
    as [answered [_ [_ Hcount]]].
  split; [exact Hcount | reflexivity].
Defined.

Example getUserImages_signDown :
  outcome (run (Backend.serve Scenario.signDown) (getUserImages "alice") tt
             Scenario.gallery)
  = Resolved
      [ mkGalleryImage (mkImageRow 3 "owl" "alice/p3.png" 30)
          "https://signed.example/alice/p3.png";
        mkGalleryImage (mkImageRow 1 "cat" "alice/p1.png" 10) "" ].
Proof. reflexivity. Qed.

(** Both rows of [alice] are listed, newest first, the one whose URL
    could not be signed included. *)
Lemma getUserImages_lists_every_row_witness :
  exists found,
    outcome (run (Backend.serve Scenario.signDown) (getUserImages "alice") tt
               Scenario.gallery) = Resolved found
    /\ map image found =
         [ mkImageRow 3 "owl" "alice/p3.png" 30;
           mkImageRow 1 "cat" "alice/p1.png" 10 ]
    /\ descending (map image found).
Proof.
  destruct (@getUserImages_lists_every_row unit Backend.Store
              (Backend.serve Scenario.signDown) tt Scenario.gallery
              Scenario.gallery "alice"
              [ mkImageRow 3 "owl" "alice/p3.png" 30;
                mkImageRow 1 "cat" "alice/p1.png" 10 ]
              eq_refl) as [found [Hout [Hrows [_ [Hdesc _]]]]].
  exists found. split; [exact Hout|]. split; [exact Hrows|].
  apply Hdesc. unfold descending.
  repeat constructor; simpl; discriminate.
Defined.



(* ================================================================= *)
(** ** More on the media service *)

(** X1.  When the upload fails, [saveImage] rejects with the upload
    error and stops: the upload is its last call, so no metadata row is
    written and nothing is removed. *)
Theorem saveImage_stops_at_failed_upload
    (S W : Type) (h : Handler W) (s : S) (w0 w2 w3 : W)
    (userId promptText imageBase64 iso : string) (imageBlob : Blob)
    (uploaded : Response unit) (uploadError : Err) :
  let decoded := run h (base64ToBlob imageBase64 None) s w0 in
  let filePath := userId ++ "/" ++ iso ++ ".png" in
  outcome decoded = Resolved imageBlob ->
  h DateToISOString (world decoded) = (iso, w2) ->
  h (StorageUpload "user_images" filePath imageBlob) w2 = (uploaded, w3) ->
  error uploaded = Some uploadError ->
  let r := run h (saveImage userId promptText imageBase64) s w0 in
  outcome r =
    Rejected (Error ("Failed to upload image to storage: "
                     ++ message uploadError))
  /\ log r =
       (log decoded ++
        [ Issued DateToISOString;
          Issued (StorageUpload "user_images" filePath imageBlob);
          Printed (ConsoleError "Storage upload error:" (message uploadError)) ])%list
  /\ world r = w3.
Proof.
  intros decoded filePath Hblob Hdate Hup Hfail r.
  subst r filePath. unfold saveImage, bucket. rewrite run_bind. fold decoded.
  cbv zeta. rewrite Hblob. simpl in *. rewrite Hdate. simpl.
  rewrite Hup. simpl. rewrite Hfail. simpl. repeat split; reflexivity.
Qed.

(** When the three phases succeed, [saveImage] resolves after
    exactly the upload and the insert of one and the same path, and asks
    for no removal. *)
Theorem saveImage_success
    (S W : Type) (h : Handler W) (s : S) (w0 w2 w3 w4 : W)
    (userId promptText imageBase64 iso : string) (imageBlob : Blob)
    (uploaded inserted : Response unit) :
  let decoded := run h (base64ToBlob imageBase64 None) s w0 in
  let filePath := userId ++ "/" ++ iso ++ ".png" in
  outcome decoded = Resolved imageBlob ->
  h DateToISOString (world decoded) = (iso, w2) ->
  h (StorageUpload "user_images" filePath imageBlob) w2 = (uploaded, w3) ->
  error uploaded = None ->
  h (ImagesInsert userId promptText filePath) w3 = (inserted, w4) ->
  error inserted = None ->
  let r := run h (saveImage userId promptText imageBase64) s w0 in
  outcome r = Resolved tt
  /\ log r =
       (log decoded ++
        [ Issued DateToISOString;
          Issued (StorageUpload "user_images" filePath imageBlob);
          Issued (ImagesInsert userId promptText filePath) ])%list
  /\ world r = w4.
Proof.
  intros decoded filePath Hblob Hdate Hup Hok Hins Hok' r.
  subst r filePath. unfold saveImage, bucket. rewrite run_bind. fold decoded.
  cbv zeta. rewrite Hblob. simpl in *. rewrite Hdate. simpl.
  rewrite Hup. simpl. rewrite Hok. simpl.
  rewrite Hins. simpl. rewrite Hok'. simpl. repeat split; reflexivity.
Qed.

(** X2.  When [atob] throws on the input, [saveImage] rejects with that
    very exception before it has asked the clock, the storage or the
    table for anything. *)
Theorem saveImage_rejects_undecodable_input
    (S W : Type) (h : Handler W) (s : S) (w0 w1 : W)
    (userId promptText imageBase64 : string) (e : Err) :
  h (Atob imageBase64) w0 = (Rejected e, w1) ->
  let r := run h (saveImage userId promptText imageBase64) s w0 in
  outcome r = Rejected e
  /\ log r = [ Issued (Atob imageBase64) ]
  /\ world r = w1.
Proof.
  intros Hatob r. subst r. unfold saveImage, base64ToBlob. simpl.
  rewrite Hatob. simpl. repeat split; reflexivity.
Qed.

Lemma base64ToBlob_log (S W : Type) (h : Handler W) (s : S) (w : W)
    (base64 : string) (contentType : option string) :
  log (run h (base64ToBlob base64 contentType) s w) = [ Issued (Atob base64) ].
Proof.
  unfold base64ToBlob. simpl.
  destruct (h (Atob base64) w) as [[chars|e] w1]; reflexivity.
Qed.

(** X3.  Whatever the collaborators answer, every storage or table call
    of [saveImage] concerns the single path [userId/<timestamp>.png],
    where the timestamp is the one the clock gave: the upload goes there,
    the row points there and belongs to [userId], and a removal removes
    that path and no other. *)
Theorem saveImage_touches_one_path
    (S W : Type) (h : Handler W) (s : S) (w0 : W)
    (userId promptText imageBase64 : string) :
  let decoded := run h (base64ToBlob imageBase64 None) s w0 in
  let iso := fst (h DateToISOString (world decoded)) in
  let r := run h (saveImage userId promptText imageBase64) s w0 in
  Forall (saveTouches userId (userId ++ "/" ++ iso ++ ".png")) (log r).
Proof.
  cbv zeta. unfold saveImage, bucket. rewrite run_bind. cbv zeta.
  rewrite base64ToBlob_log.
  destruct (outcome (run h (base64ToBlob imageBase64 None) s w0))
    as [imageBlob|e].
  2:{ simpl. repeat constructor. }
  set (w1 := world (run h (base64ToBlob imageBase64 None) s w0)).
  set (s1 := final (run h (base64ToBlob imageBase64 None) s w0)).
  simpl. destruct (h DateToISOString w1) as [iso w2]. simpl.
  match goal with
  | |- context [h (StorageUpload ?b ?p ?bl) w2] =>
      destruct (h (StorageUpload b p bl) w2) as [uploaded w3]
  end.
  simpl. destruct (error uploaded) as [uploadError|]; simpl.
  { repeat constructor. }
  match goal with
  | |- context [h (ImagesInsert ?u ?q ?p) w3] =>
      destruct (h (ImagesInsert u q p) w3) as [inserted w4]
  end.
  simpl. destruct (error inserted) as [insertError|]; simpl.
  - match goal with
    | |- context [h (StorageRemove ?b ?p) w4] =>
        destruct (h (StorageRemove b p) w4) as [removed w5]
    end.
    simpl. repeat constructor.
  - repeat constructor.
Qed.

(** When the metadata read fails, [getUserImages] rejects with the
    read error and asks for no signed URL. *)
Theorem getUserImages_read_failure
    (S W : Type) (h : Handler W) (s : S) (w0 w1 : W) (userId : string)
    (selected : Response (list ImageRow)) (dbError : Err) :
  h (ImagesSelectDesc userId) w0 = (selected, w1) ->
  error selected = Some dbError ->
  let r := run h (getUserImages userId) s w0 in
  outcome r =
    Rejected (Error ("Failed to fetch image records: " ++ message dbError))
  /\ log r = [ Issued (ImagesSelectDesc userId) ]
  /\ world r = w1.
Proof.
  intros Hsel Hfail r. subst r. unfold getUserImages. simpl.
  rewrite Hsel. simpl. rewrite Hfail. simpl. repeat split; reflexivity.
Qed.

Lemma log_promise_all_sign (S W : Type) (h : Handler W)
    (rows : list ImageRow) (s : S) (w : W) :
  log (run h (promise_all (fun row => call (signRequest row)) rows) s w)
  = map (fun row => Issued (signRequest row)) rows.
Proof.
  revert w; induction rows as [|row rest IH]; intros w.
  - reflexivity.
  - cbn [promise_all]. rewrite run_bind. cbn [call run].
    destruct (h (signRequest row) w) as [a w1].
    cbn [logged outcome final world log]. cbv zeta.
    rewrite run_bind. cbv zeta.
    destruct (@run_promise_all_sign S W h rest s w1) as [Ho _].
    cbv zeta in Ho. rewrite Ho. cbn [run log app outcome final world].
    rewrite app_nil_r, IH. reflexivity.
Qed.

Lemma log_map_indexed_attach (S W : Type) (h : Handler W)
    (rows : list ImageRow) (answers : list (Response string)) (index : nat)
    (s : S) (w : W) :
  filter isCall (log (run h (map_indexed (attachUrl answers) rows index) s w))
  = [].
Proof.
  revert index; induction rows as [|row rest IH]; intros index.
  - reflexivity.
  - cbn [map_indexed]. rewrite run_bind. cbv zeta.
    assert (Hstep :
      filter isCall (log (run h (attachUrl answers row index) s w)) = []
      /\ world (run h (attachUrl answers row index) s w) = w
      /\ final (run h (attachUrl answers row index) s w) = s).
    { unfold attachUrl. destruct (nth_error answers index) as [signed|];
        [|simpl; auto].
      destruct (error signed); [|destruct (data signed)]; simpl; auto. }
    destruct Hstep as [Hl [Hw Hf]].
    destruct (outcome (run h (attachUrl answers row index) s w)) as [g|e];
      simpl; [|exact Hl].
    rewrite filter_app, Hl, Hw, Hf. simpl. rewrite run_bind. cbv zeta.
    specialize (IH (Datatypes.S index)).
    destruct (outcome (run h (map_indexed (attachUrl answers) rest
                                (Datatypes.S index)) s w)) as [gs|e];
      simpl; [rewrite app_nil_r|]; exact IH.
Qed.

(** X4.  When the metadata read succeeds with [rows], the calls of
    [getUserImages] are the read followed by one signed-URL request per
    row, in the order of the rows, each for the row's own path in the
    [user_images] bucket and valid for 3600 seconds. *)
Theorem getUserImages_signs_each_row_once
    (S W : Type) (h : Handler W) (s : S) (w0 w1 : W) (userId : string)
    (rows : list ImageRow) :
  h (ImagesSelectDesc userId) w0 = (mkResponse (Some rows) None, w1) ->
  let r := run h (getUserImages userId) s w0 in
  filter isCall (log r) =
    Issued (ImagesSelectDesc userId)
    :: map (fun row =>
              Issued (StorageCreateSignedUrl "user_images" (storage_path row)
                        3600))
         rows.
Proof.
  intros Hsel. cbv zeta. unfold getUserImages. rewrite run_bind.
  cbn [call run]. rewrite Hsel. cbn.
  destruct rows as [|row rest]; [reflexivity|].
  remember (row :: rest) as rows eqn:Erows.
  rewrite run_bind. unfold bucket. cbv zeta.
  destruct (@run_promise_all_sign S W h rows s w1) as [Ho [Hw Hf]].
  pose proof (@log_promise_all_sign S W h rows s w1) as Hl.
  unfold signRequest in Ho, Hw, Hf, Hl. cbv zeta in Ho, Hw, Hf.
  rewrite Ho, Hw, Hf. cbn. f_equal. rewrite filter_app, Hl.
  rewrite log_map_indexed_attach, app_nil_r.
  clear. induction rows as [|row rest IH]; simpl; [reflexivity|].
  rewrite IH. reflexivity.
Qed.

(** X5.  [deleteImage] resolves exactly when both phases succeed: the
    blob removal and then the row delete. *)
Theorem deleteImage_resolves_iff_both_succeed
    (S W : Type) (h : Handler W) (s : S) (w0 w1 w2 : W)
    (userId storagePath : string) (removed deleted : Response unit) :
  h (StorageRemove "user_images" [storagePath]) w0 = (removed, w1) ->
  h (ImagesDelete userId storagePath) w1 = (deleted, w2) ->
  let r := run h (deleteImage userId storagePath) s w0 in
  outcome r = Resolved tt <-> error removed = None /\ error deleted = None.
Proof.
  intros Hrm Hdel r. subst r. unfold deleteImage, bucket. simpl.
  rewrite Hrm. simpl. destruct (error removed) as [storageError|]; simpl.
  - split; [discriminate | intros [H _]; discriminate].
  - rewrite Hdel. simpl. destruct (error deleted) as [dbError|]; simpl.
    + split; [discriminate | intros [_ H]; discriminate].
    + split; auto.
Qed.

(* ================================================================= *)
(** ** More on the chat handlers *)

(** X6.  A failed write of the exchange to [chat_history] is logged and
    nothing else: the handler resolves, the transcript holds the user
    turn and the gateway's answer, the input is empty and [isLoading] is
    down, and the only output is one [console.error]. *)
Theorem handleSend_insert_failure_is_silent
    (W : Type) (h : Handler W) (s : State) (w0 w1 w2 : W) (c : Chat)
    (u : User) (answer : string) (saved : Response unit) (err : Err) :
  chat s = Some c ->
  user s = Some u ->
  isLoading s = false ->
  JS.blank (input s) = false ->
  h (ChatSendMessage c (input s)) w0 = (Resolved answer, w1) ->
  h (ChatHistoryInsert
       [ mkChatRow (user_id u) "user" (input s);
         mkChatRow (user_id u) "bot" answer ]) w1 = (saved, w2) ->
  error saved = Some err ->
  let r := run h (handleSend s) s w0 in
  outcome r = Resolved tt
  /\ final r =
       {| chat := chat s;
          messages :=
            (messages s ++
             [ mkMessage "user" (input s); mkMessage "bot" answer ])%list;
          input := "";
          isLoading := false;
          user := user s |}
  /\ log r =
       [ Issued (ChatSendMessage c (input s));
         Issued (ChatHistoryInsert
                   [ mkChatRow (user_id u) "user" (input s);
                     mkChatRow (user_id u) "bot" answer ]);
         Printed (ConsoleError "Failed to save message to Supabase:"
                    (message err)) ].
Proof.
  intros Hc Hu Hl Hb Hgw Hins Hfail. cbv zeta.
  destruct s as [ch ms typed busy us]. simpl in *. subst ch us busy.
  unfold handleSend. simpl.
  destruct (JS.truthy (JS.trim typed)) eqn:Ht.
  2:{ apply trim_blank in Ht. congruence. }
  simpl. rewrite Hgw. simpl. rewrite Hins. simpl. rewrite Hfail. simpl.
  rewrite <- app_assoc. repeat split; reflexivity.
Qed.

(** X7.  The user turn is shown before the gateway has answered: when
    an accepted [handleSend] reaches its first [await], which is the
    gateway call for the typed text, the transcript already ends with
    the user turn, the input is empty and [isLoading] is up. *)
Theorem handleSend_optimistic_update (s : State) (c : Chat) (u : User) :
  chat s = Some c ->
  user s = Some u ->
  isLoading s = false ->
  JS.blank (input s) = false ->
  exists k,
    advance (handleSend s) s =
      ({| chat := chat s;
          messages := (messages s ++ [ mkMessage "user" (input s) ])%list;
          input := "";
          isLoading := true;
          user := user s |},
       [],
       Blocked (ChatSendMessage c (input s)) k).
Proof.
  intros Hc Hu Hl Hb.
  destruct s as [ch ms typed busy us]. simpl in *. subst ch us busy.
  unfold handleSend. simpl.
  destruct (JS.truthy (JS.trim typed)) eqn:Ht.
  2:{ apply trim_blank in Ht. congruence. }
  simpl. eexists. reflexivity.
Qed.

(** X8.  In whatever state it is called and whatever the collaborators
    do, [handleSend] resolves and only ever appends to the transcript:
    either nothing, or the user turn followed by one bot turn.  It never
    changes the chat or the user. *)
Theorem handleSend_only_appends
    (W : Type) (h : Handler W) (seen s : State) (w : W) :
  let r := run h (handleSend seen) s w in
  outcome r = Resolved tt
  /\ chat (final r) = chat s
  /\ user (final r) = user s
  /\ (final r = s
      \/ exists reply,
           messages (final r) =
             (messages s ++
              [ mkMessage "user" (input seen); mkMessage "bot" reply ])%list).
Proof.
  cbv zeta. unfold handleSend.
  destruct (chat seen) as [c|]; [|simpl; auto].
  destruct (user seen) as [u|]; [|simpl; auto].
  destruct (negb (JS.truthy (JS.trim (input seen))) || isLoading seen);
    [simpl; auto|].
  simpl.
  destruct (h (ChatSendMessage c (input seen)) w) as [[answer|e] w1]; simpl.
  - match goal with
    | |- context [h (ChatHistoryInsert ?rows) w1] =>
        destruct (h (ChatHistoryInsert rows) w1) as [saved w2]
    end.
    simpl. destruct (error saved); simpl; rewrite <- app_assoc;
      repeat split; right; eexists; reflexivity.
  - match goal with
    | |- context [h (ChatHistoryInsert ?rows) w1] =>
        destruct (h (ChatHistoryInsert rows) w1) as [saved w2]
    end.
    simpl. destruct (error saved); simpl; rewrite <- app_assoc;
      repeat split; right; eexists; reflexivity.
Qed.

(** X9.  [initChat] cannot fail: whatever the knowledge-base fetch and
    the history read do, it resolves, leaves [isLoading] down, a chat on
    the model [gemini-2.5-flash] in place and at least one turn in the
    transcript, and leaves the input and the user alone. *)
Theorem initChat_always_completes
    (W : Type) (h : Handler W) (s : State) (w : W) (userId : string) :
  let r := run h (initChat userId) s w in
  outcome r = Resolved tt
  /\ isLoading (final r) = false
  /\ (exists c, chat (final r) = Some c /\ model c = "gemini-2.5-flash")
  /\ messages (final r) <> []
  /\ input (final r) = input s
  /\ user (final r) = user s.
Proof.
  cbv zeta. unfold initChat.
  remember loadKnowledge as load eqn:Eload. simpl.
  rewrite run_bind. subst load. cbv zeta.
  set (s1 := mkState (chat s) (messages s) (input s) true (user s)).
  destruct (loadKnowledge_total h s1 w) as [knowledge [Hk Hs]].
  rewrite Hk, Hs.
  remember (world (run h loadKnowledge s1 w)) as wk eqn:Ewk.
  simpl.
  destruct (h (ChatHistorySelectAsc userId) wk) as [selected w1]. simpl.
  destruct (error selected) as [err|]; simpl.
  - destruct (tableMissing (message err)); simpl;
      repeat split; eauto; discriminate.
  - destruct (data selected) as [[|row rows]|]; simpl;
      repeat split; eauto; discriminate.
Qed.

(** X10.  The chat [initChat] opens is seeded with the history rows it
    read, one seed per row in the same order: a row sent by [user]
    becomes a [user] turn, a row of any other sender a [model] turn, and
    each seed carries the row's text as its single part.  A read that
    brings no data seeds an empty history. *)
Theorem initChat_seeds_history
    (W : Type) (h : Handler W) (s : State) (w0 w1 : W) (userId : string)
    (selected : Response (list Message)) :
  h (ChatHistorySelectAsc userId) (world (run h loadKnowledge s w0))
    = (selected, w1) ->
  let r := run h (initChat userId) s w0 in
  let rows := match data selected with
              | Some rows => rows
              | None => []
              end in
  exists c seeds,
    chat (final r) = Some c
    /\ history c = Some seeds
    /\ Forall2
         (fun row seed =>
            parts seed = [text row]
            /\ (sender row = "user" -> role seed = "user")
            /\ (sender row <> "user" -> role seed = "model"))
         rows seeds.
Proof.
  intros Hsel. cbv zeta. unfold initChat.
  remember loadKnowledge as load eqn:Eload. simpl.
  rewrite run_bind. subst load. cbv zeta.
  set (s1 := mkState (chat s) (messages s) (input s) true (user s)).
  destruct (loadKnowledge_total h s1 w0) as [knowledge [Hk Hs]].
  rewrite Hk, Hs.
  destruct (run_state_irrelevant h loadKnowledge s1 s w0) as [Hw _].
  rewrite Hw. remember (world (run h loadKnowledge s w0)) as wk eqn:Ewk.
  simpl. rewrite Hsel. simpl.
  assert (Hseeds :
    Forall2
      (fun row seed =>
         parts seed = [text row]
         /\ (sender row = "user" -> role seed = "user")
         /\ (sender row <> "user" -> role seed = "model"))
      match data selected with
      | Some rows => rows
      | None => []
      end
      (formatHistory (data selected))).
  { unfold formatHistory. destruct (data selected) as [rows|]; [|constructor].
    induction rows as [|row rows IH]; simpl; constructor; [|exact IH].
    simpl. split; [reflexivity|].
    destruct (String.eqb (sender row) "user") eqn:E.
    - split; [reflexivity|]. apply String.eqb_eq in E. congruence.
    - split; [|reflexivity]. apply String.eqb_neq in E. congruence. }
  exists (createChat (Some knowledge) (Some (formatHistory (data selected)))),
    (formatHistory (data selected)).
  split; [|split; [reflexivity | exact Hseeds]].
  destruct (error selected) as [err|]; simpl.
  - destruct (tableMissing (message err)); reflexivity.
  - destruct (data selected) as [[|row rows]|]; reflexivity.
Qed.

(** X11.  The system instruction of the chat [initChat] opens is the
    body of the knowledge-base response when the fetch resolves with an
    OK response whose body can be read and is not empty; in every other
    case (fetch rejected, response not OK, body unreadable or empty) the
    chat is opened without a system instruction. *)
Theorem initChat_system_instruction
    (W : Type) (h : Handler W) (s : State) (w0 w1 : W) (userId : string)
    (fetched : Settled FetchResponse) :
  h (Fetch "/knowledge_base.txt") w0 = (fetched, w1) ->
  let r := run h (initChat userId) s w0 in
  exists c,
    chat (final r) = Some c
    /\ config c =
         match fetched with
         | Resolved response =>
             if ok response
             then match fst (h (ResponseText response) w1) with
                  | Resolved body => if JS.truthy body then Some body else None
                  | Rejected _ => None
                  end
             else None
         | Rejected _ => None
         end.
Proof.
  intros Hfetch. cbv zeta. unfold initChat, loadKnowledge. simpl.
  rewrite Hfetch.
  destruct fetched as [response|e]; simpl.
  - destruct (ok response); simpl.
    + destruct (h (ResponseText response) w1) as [[body|e] w2]; simpl;
        match goal with
        | |- context [h (ChatHistorySelectAsc userId) ?w] =>
            destruct (h (ChatHistorySelectAsc userId) w) as [selected w3]
        end;
        simpl;
        (destruct (error selected) as [err|]; simpl;
         [ destruct (tableMissing (message err))
         | destruct (data selected) as [[|row rows]|] ]);
        simpl; eexists; split; reflexivity.
    + match goal with
      | |- context [h (ChatHistorySelectAsc userId) ?w] =>
          destruct (h (ChatHistorySelectAsc userId) w) as [selected w3]
      end.
      simpl.
      (destruct (error selected) as [err|]; simpl;
       [ destruct (tableMissing (message err))
       | destruct (data selected) as [[|row rows]|] ]);
        simpl; eexists; split; reflexivity.
  - match goal with
    | |- context [h (ChatHistorySelectAsc userId) ?w] =>
        destruct (h (ChatHistorySelectAsc userId) w) as [selected w3]
    end.
    simpl.
    (destruct (error selected) as [err|]; simpl;
     [ destruct (tableMissing (message err))
     | destruct (data selected) as [[|row rows]|] ]);
      simpl; eexists; split; reflexivity.
Qed.

(* ================================================================= *)
(** ** More on the event loop: properties guarded by their owners *)

Lemma advance_preserves (Q : State -> Prop) (p : Prog State unit) (s : State) :
  Preserves Q p ->
  Q s ->
  match advance p s with
  | (s', _, st) =>
      Q s'
      /\ match st with
         | Blocked c k => forall a, Preserves Q (k a)
         | _ => True
         end
  end.
Proof.
  intros H; revert s; induction H as [r|e|f k Hf Hk IH|o k Hk IH|c k Hk IH];
    intros s Hs; simpl; auto.
  - apply IH. apply Hf. exact Hs.
  - specialize (IH s Hs). destruct (advance k s) as [[s' out] st]. exact IH.
Qed.

Lemma advance_preserves_rest (Q : State -> Prop) (p : Prog State unit)
    (s : State) :
  Preserves Q p ->
  match advance p s with
  | (_, _, Blocked c k) => forall a, Preserves Q (k a)
  | _ => True
  end.
Proof.
  intros H; revert s; induction H as [r|e|f k Hf Hk IH|o k Hk IH|c k Hk IH];
    intros s; simpl.
  - exact I.
  - exact I.
  - apply IH.
  - specialize (IH s). destruct (advance k s) as [[s' out] st]. exact IH.
  - exact Hk.
Qed.

Lemma advance_establishes (Q : State -> Prop) (p : Prog State unit)
    (s : State) :
  Establishes Q p ->
  match advance p s with
  | (s', _, Blocked c k) => forall a, Establishes Q (k a)
  | (s', _, _) => Q s'
  end.
Proof.
  intros H; revert s;
    induction H as [f k Hf Hc Hk|f k Hk IH|o k Hk IH|c k Hk IH];
    intros s; simpl.
  - pose proof (advance_closing (f s) Hc) as Hnb.
    pose proof (advance_preserves (f s) Hk (Hf s)) as Hq.
    destruct (advance k (f s)) as [[s' out] [| |c k']]; simpl in Hnb;
      tauto.
  - apply IH.
  - specialize (IH s). destruct (advance k s) as [[s' out] st]. exact IH.
  - exact Hk.
Qed.

Section GuardedProperty.

Variable auth : AuthPolicy.
Variable u : option User.
Variable Q : State -> Prop.
Variable owns : Origin -> bool.

Hypothesis mount_guarded : Guarded Q owns (mount u).
Hypothesis change_keeps : forall value s, Q s -> Q (withInput value s).
Hypothesis send_suits :
  forall seen,
    handleSend seen = Ret tt \/ Suits Q (owns FromSend) (handleSend seen).
Hypothesis clear_suits :
  forall seen,
    handleClearHistory seen = Ret tt
    \/ Suits Q (owns FromClear) (handleClearHistory seen).
Hypothesis init_suits :
  forall usr, Suits Q (owns FromInit) (initChat (user_id usr)).
Hypothesis signOut_keeps : forall s, Q s -> Q (withUser None s).
Hypothesis signIn_keeps :
  owns FromInit = false -> forall usr s, Q s -> Q (withUser (Some usr) s).

Lemma guarded_spawn (o : Origin) (p : Prog State unit) (sys : Sys) :
  Suits Q (owns o) p ->
  Forall (fun t => forall a, Suits Q (owns (origin t)) (resume t a))
    (tasks sys) ->
  (owns o = false ->
   (forall t, In t (tasks sys) -> owns (origin t) = false) -> Q (view sys)) ->
  Guarded Q owns (spawn o p sys).
Proof.
  intros Hp Hts Hview. unfold spawn. unfold Suits in Hp.
  destruct (owns o) eqn:Eo.
  - pose proof (advance_establishes (view sys) Hp) as Hadv.
    destruct (advance p (view sys)) as [[s' out] [| |c k]]; constructor;
      simpl; auto.
    + apply Forall_app. split; [exact Hts|]. constructor; [|constructor].
      simpl. unfold Suits. rewrite Eo. exact Hadv.
    + intros Hnone.
      assert (Hin : In (mkTask o c k) (tasks sys ++ [mkTask o c k])).
      { apply in_or_app. right. left. reflexivity. }
      specialize (Hnone _ Hin). simpl in Hnone. congruence.
  - assert (Hkeep :
      (forall t, In t (tasks sys) -> owns (origin t) = false) ->
      match advance p (view sys) with
      | (s', _, st) =>
          Q s'
          /\ match st with
             | Blocked c k => forall a, Preserves Q (k a)
             | _ => True
             end
      end).
    { intros Hnone. apply advance_preserves; [exact Hp|]. auto. }
    assert (Hcont :
      match advance p (view sys) with
      | (_, _, Blocked c k) => forall a, Preserves Q (k a)
      | _ => True
      end).
    { apply advance_preserves_rest. exact Hp. }
    destruct (advance p (view sys)) as [[s' out] [| |c k]]; constructor;
      simpl; auto.
    + intros Hnone. apply Hkeep. exact Hnone.
    + intros Hnone. apply Hkeep. exact Hnone.
    + apply Forall_app. split; [exact Hts|]. constructor; [|constructor].
      simpl. unfold Suits. rewrite Eo. exact Hcont.
    + intros Hnone.
      assert (Hold : forall t, In t (tasks sys) -> owns (origin t) = false).
      { intros t Ht. apply Hnone. apply in_or_app. left. exact Ht. }
      apply (Hkeep Hold).
Qed.

Lemma guarded_step (sys sys' : Sys) :
  Guarded Q owns sys -> step auth sys sys' -> Guarded Q owns sys'.
Proof.
  intros [Hts Hview] Hstep.
  destruct Hstep
    as [sys value|sys|sys|sys before after t answer Heq|sys u' Hu'].
  - constructor; simpl; auto.
  - destruct (send_suits (view sys)) as [Hret|Hsuit].
    + rewrite Hret, spawn_ret. constructor; assumption.
    + apply guarded_spawn; auto.
  - destruct (clear_suits (view sys)) as [Hret|Hsuit].
    + rewrite Hret, spawn_ret. constructor; assumption.
    + apply guarded_spawn; auto.
  - rewrite Heq in Hts, Hview.
    apply Forall_app in Hts. destruct Hts as [Hb Hta].
    inversion Hta as [|t' after' Ht Ha]; subst.
    apply guarded_spawn; simpl.
    + apply Ht.
    + apply Forall_app. split; assumption.
    + intros Ho Hnone. apply Hview. intros t0 Hin.
      apply in_app_or in Hin. destruct Hin as [Hin|[->|Hin]].
      * apply Hnone. apply in_or_app. left. exact Hin.
      * exact Ho.
      * apply Hnone. apply in_or_app. right. exact Hin.
  - unfold userChanged. destruct u' as [usr|].
    + apply guarded_spawn; simpl.
      * apply init_suits.
      * exact Hts.
      * intros Ho Hnone. apply signIn_keeps; [exact Ho|]. apply Hview.
        exact Hnone.
    + constructor; simpl; [exact Hts|].
      intros Hnone. apply signOut_keeps. apply Hview. exact Hnone.
Qed.

Lemma guarded_reachable (sys : Sys) :
  reachable auth u sys -> Guarded Q owns sys.
Proof.
  induction 1 as [|sys sys' Hr IH Hs].
  - exact mount_guarded.
  - exact (guarded_step IH Hs).
Qed.

End GuardedProperty.

(** Proves [Preserves] and [Establishes] goals by following the program
    text. *)
Ltac side :=
  solve
    [ intros; unfold hasChat, hasTranscript, flagDown in *; simpl in *;
      intros; first
        [ assumption | reflexivity | discriminate | congruence
        | solve [auto]
        | match goal with
          | |- (_ ++ _)%list <> [] =>
              let H := fresh in
              intros H; apply app_eq_nil in H; destruct H; discriminate
          end ] ].

Ltac walk :=
  repeat first
    [ progress intros
    | progress
        (unfold Suits, settle, call, set, console_error, alert, setChat,
           setMessages, appendMessage, setInput, setIsLoading,
           sendMessageToChat, loadKnowledge)
    | progress simpl
    | match goal with
      | |- context [match ?x with _ => _ end] => destruct x
      end
    | apply Preserves_ret | apply Preserves_throw
    | apply Preserves_emit | apply Preserves_call
    | apply Preserves_update; [side|]
    | apply Establishes_emit | apply Establishes_call
    | apply Establishes_here; [side | solve [repeat constructor] | solve [walk]]
    | apply Establishes_update ].

Lemma handleSend_cases (seen : State) :
  handleSend seen = Ret tt
  \/ exists c usr,
       chat seen = Some c /\ user seen = Some usr
       /\ isLoading seen = false
       /\ JS.truthy (JS.trim (input seen)) = true.
Proof.
  unfold handleSend.
  destruct (chat seen) as [c|]; [|left; reflexivity].
  destruct (user seen) as [usr|]; [|left; reflexivity].
  destruct (JS.truthy (JS.trim (input seen))); [|left; reflexivity].
  destruct (isLoading seen); [left; reflexivity|].
  right. exists c, usr. auto.
Qed.

Lemma handleSend_suits (Q : State -> Prop) (owner : bool) :
  (forall seen c usr,
      chat seen = Some c -> user seen = Some usr ->
      isLoading seen = false -> JS.truthy (JS.trim (input seen)) = true ->
      Suits Q owner (handleSend seen)) ->
  forall seen, handleSend seen = Ret tt \/ Suits Q owner (handleSend seen).
Proof.
  intros H seen. destruct (handleSend_cases seen) as [Hret|[c [usr [Hc [Hu [Hl Ht]]]]]].
  - left. exact Hret.
  - right. exact (H seen c usr Hc Hu Hl Ht).
Qed.

(** Whatever [useAuth] does, [isLoading] is down whenever neither
    [initChat] nor an exchange is in flight. *)
Lemma flag_guarded (auth : AuthPolicy) (u : option User) (sys : Sys) :
  reachable auth u sys -> Guarded flagDown originHolds sys.
Proof.
  apply guarded_reachable.
  - unfold mount. destruct u as [usr|].
    + apply guarded_spawn; [walk | constructor | discriminate].
    + constructor; [constructor | reflexivity].
  - intros value s Hs. exact Hs.
  - apply handleSend_suits. intros seen c usr Hc Hu Hl Ht.
    unfold handleSend. rewrite Hc, Hu, Hl, Ht. walk.
  - intros seen. unfold handleClearHistory.
    destruct (user seen); [right; walk | left; reflexivity].
  - intros usr. walk.
  - intros s Hs. exact Hs.
  - discriminate.
Qed.

(** Whatever [useAuth] does, a signed-in user has a chat whenever no
    [initChat] is in flight. *)
Lemma chat_guarded (auth : AuthPolicy) (u : option User) (sys : Sys) :
  reachable auth u sys -> Guarded hasChat isInit sys.
Proof.
  apply guarded_reachable.
  - unfold mount. destruct u as [usr|].
    + apply guarded_spawn; [walk | constructor | discriminate].
    + constructor; [constructor|]. intros _ H. exfalso. apply H. reflexivity.
  - intros value s Hs. exact Hs.
  - apply handleSend_suits. intros seen c usr Hc Hu Hl Ht.
    unfold handleSend. rewrite Hc, Hu, Hl, Ht. walk.
  - intros seen. unfold handleClearHistory.
    destruct (user seen); [right; walk | left; reflexivity].
  - intros usr. walk.
  - intros s _ H. exfalso. apply H. reflexivity.
  - discriminate.
Qed.

(** And something to show. *)
Lemma transcript_guarded (auth : AuthPolicy) (u : option User) (sys : Sys) :
  reachable auth u sys -> Guarded hasTranscript isInit sys.
Proof.
  apply guarded_reachable.
  - unfold mount. destruct u as [usr|].
    + apply guarded_spawn; [walk | constructor | discriminate].
    + constructor; [constructor|]. intros _ H. exfalso. apply H. reflexivity.
  - intros value s Hs. exact Hs.
  - apply handleSend_suits. intros seen c usr Hc Hu Hl Ht.
    unfold handleSend. rewrite Hc, Hu, Hl, Ht. walk.
  - intros seen. unfold handleClearHistory.
    destruct (user seen); [right; walk | left; reflexivity].
  - intros usr. walk.
  - intros s _ H. exfalso. apply H. reflexivity.
  - discriminate.
Qed.

Lemma holders_positive (t : Task) (ts : list Task) :
  In t ts -> holdsFlag t = true -> 1 <= holders ts.
Proof.
  intros Hin Hh. unfold holders.
  assert (Hf : In t (filter holdsFlag ts)).
  { apply filter_In. split; assumption. }
  destruct (filter holdsFlag ts); [destruct Hf | simpl; lia].
Qed.

(** X12.  In every state the component can reach, whatever [useAuth]
    does, [isLoading] is never left up once [initChat] and the exchanges
    have ended ([handleClearHistory] does not count).  And as long as
    [useAuth] hands out a signed-in user only while the component is
    idle, the flag is never down while one of them is pending. *)
Theorem isLoading_tracks_flight (auth : AuthPolicy) (u : option User)
    (sys : Sys) :
  reachable auth u sys ->
  (isLoading (view sys) = true ->
   exists t, In t (tasks sys) /\ origin t <> FromClear)
  /\ (SignsInWhenIdle auth ->
      (exists t, In t (tasks sys) /\ origin t <> FromClear) ->
      isLoading (view sys) = true).
Proof.
  intros Hr. split.
  - intros Hup.
    destruct (existsb holdsFlag (tasks sys)) eqn:E.
    + apply existsb_exists in E. destruct E as [t [Hin Hh]].
      exists t. split; [exact Hin|].
      unfold holdsFlag, originHolds in Hh. destruct (origin t); congruence.
    + destruct (flag_guarded Hr) as [_ Hdown]. unfold flagDown in Hdown.
      rewrite Hdown in Hup; [discriminate|].
      intros t Hin.
      destruct (originHolds (origin t)) eqn:Eo; [|reflexivity].
      assert (Hex : existsb holdsFlag (tasks sys) = true).
      { apply existsb_exists. exists t. split; assumption. }
      congruence.
  - intros Hauth [t [Hin Ho]].
    destruct (inv_reachable Hauth Hr) as [_ Hone Hflag]. apply Hflag.
    assert (Hh : holdsFlag t = true).
    { unfold holdsFlag, originHolds. destruct (origin t); congruence. }
    pose proof (holders_positive t (tasks sys) Hin Hh). lia.
Qed.

(** X13.  Whatever [useAuth] does and whoever the component was mounted
    with, in every reachable state where a user is signed in and no
    [initChat] is pending, there is a chat and the transcript is not
    empty. *)
Theorem session_opened_after_init (auth : AuthPolicy) (u : option User)
    (sys : Sys) :
  reachable auth u sys ->
  (forall t, In t (tasks sys) -> origin t <> FromInit) ->
  user (view sys) <> None ->
  (exists c, chat (view sys) = Some c)
  /\ messages (view sys) <> [].
Proof.
  intros Hr Hnone Hu.
  assert (Hno : forall t, In t (tasks sys) -> isInit (origin t) = false).
  { intros t Hin. specialize (Hnone t Hin).
    destruct (origin t); simpl; congruence. }
  destruct (chat_guarded Hr) as [_ Hchat].
  destruct (transcript_guarded Hr) as [_ Hmsgs].
  split.
  - specialize (Hchat Hno Hu). destruct (chat (view sys)) as [c|];
      [exists c; reflexivity | congruence].
  - exact (Hmsgs Hno Hu).
Qed.

(** X14.  A settled session accepts the next message, whatever
    [useAuth] has done before: in every reachable state where a user is
    signed in and nothing but clearings is pending, pressing send on a
    non-blank input starts an exchange (the user turn joins the
    transcript and one exchange is in flight). *)
Theorem send_accepted_when_settled (auth : AuthPolicy) (u : option User)
    (sys : Sys) :
  reachable auth u sys ->
  (forall t, In t (tasks sys) -> origin t = FromClear) ->
  user (view sys) <> None ->
  JS.blank (input (view sys)) = false ->
  let sys' := spawn FromSend (handleSend (view sys)) sys in
  outstanding sys' = 1
  /\ messages (view sys') =
       (messages (view sys) ++ [ mkMessage "user" (input (view sys)) ])%list.
Proof.
  intros Hr Honly Hu Hb.
  assert (Hc : chat (view sys) <> None).
  { destruct (chat_guarded Hr) as [_ Hchat]. apply Hchat; [|exact Hu].
    intros t Hin. rewrite (Honly t Hin). reflexivity. }
  assert (Hl : isLoading (view sys) = false).
  { destruct (flag_guarded Hr) as [_ Hdown]. apply Hdown.
    intros t Hin. rewrite (Honly t Hin). reflexivity. }
  assert (Ht : JS.truthy (JS.trim (input (view sys))) = true).
  { destruct (JS.truthy (JS.trim (input (view sys)))) eqn:Ht;
      [reflexivity|]. apply trim_blank in Ht. congruence. }
  cbv zeta. unfold spawn, handleSend. rewrite Hl, Ht.
  destruct (chat (view sys)) as [c|]; [|congruence].
  destruct (user (view sys)) as [usr|]; [|congruence].
  simpl. split; [|reflexivity].
  unfold outstanding. simpl. rewrite filter_app, length_app. simpl.
  assert (Hz : filter isSend (tasks sys) = []).
  { clear - Honly. induction (tasks sys) as [|t ts IH]; [reflexivity|].
    simpl. unfold isSend at 1. rewrite (Honly t (or_introl eq_refl)).
    apply IH. intros t' Hin. apply Honly. right. exact Hin. }
  rewrite Hz. reflexivity.
Qed.

(* ================================================================= *)
(** ** The name of a gallery download *)

Lemma take_length (n : nat) (s : string) : String.length (Text.take n s) <= n.
Proof.
  revert s; induction n as [|n IH]; intros s; simpl; [lia|].
  destruct s as [|c rest]; simpl; [lia|]. specialize (IH rest). lia.
Qed.

Lemma take_all (n : nat) (s : string) :
  String.length s <= n -> Text.take n s = s.
Proof.
  revert s; induction n as [|n IH]; intros s Hlen.
  - destruct s; [reflexivity | simpl in Hlen; lia].
  - destruct s as [|c rest]; [reflexivity|]. simpl in *.
    rewrite IH by lia. reflexivity.
Qed.

Lemma mapChars_length (f : ascii -> ascii) (s : string) :
  String.length (Text.mapChars f s) = String.length s.
Proof. induction s as [|c rest IH]; simpl; congruence. Qed.

Lemma cleaned_char (c : ascii) :
  isNameChar (Text.lowerChar (if Text.isAlnum c then c else "_"%char)) = true.
Proof. destruct c as [[] [] [] [] [] [] [] []]; reflexivity. Qed.

Lemma name_char_kept (c : ascii) :
  isNameChar c = true ->
  Text.lowerChar (if Text.isAlnum c then c else "_"%char) = c.
Proof. destruct c as [[] [] [] [] [] [] [] []]; cbv; congruence. Qed.

Lemma cleaned_all (s : string) :
  Text.all isNameChar (Text.toLowerCase (Text.underscoreOthers s)) = true.
Proof.
  unfold Text.toLowerCase, Text.underscoreOthers.
  induction s as [|c rest IH]; [reflexivity|].
  cbn [Text.mapChars Text.all]. rewrite cleaned_char. exact IH.
Qed.

Lemma cleaned_kept (s : string) :
  Text.all isNameChar s = true ->
  Text.toLowerCase (Text.underscoreOthers s) = s.
Proof.
  unfold Text.toLowerCase, Text.underscoreOthers.
  induction s as [|c rest IH]; [reflexivity|].
  cbn [Text.mapChars Text.all]. intros H.
  apply andb_true_iff in H. destruct H as [Hc Hrest].
  rewrite name_char_kept by exact Hc. rewrite IH by exact Hrest. reflexivity.
Qed.

Lemma truthy_nonempty (s : string) : JS.truthy s = true <-> s <> "".
Proof. destruct s; simpl; split; congruence. Qed.

Lemma downloadFileName_is_a_name (promptText : string) :
  Text.all isNameChar (downloadFileName promptText) = true
  /\ 1 <= String.length (downloadFileName promptText) <= 30.
Proof.
  unfold downloadFileName.
  set (cleaned :=
         Text.toLowerCase (Text.underscoreOthers (Text.take 30 promptText))).
  destruct (JS.truthy cleaned) eqn:Ht.
  - split; [apply cleaned_all|].
    assert (Hlen : String.length cleaned <= 30).
    { unfold cleaned, Text.toLowerCase, Text.underscoreOthers.
      rewrite !mapChars_length. apply take_length. }
    destruct cleaned; [discriminate|]. simpl in *. lia.
  - split; [reflexivity | simpl; lia].
Qed.

Lemma downloadFileName_of_name (name : string) :
  Text.all isNameChar name = true ->
  1 <= String.length name <= 30 ->
  downloadFileName name = name.
Proof.
  intros Hall Hlen. unfold downloadFileName.
  rewrite take_all by lia. rewrite cleaned_kept by exact Hall.
  destruct name; [simpl in Hlen; lia | reflexivity].
Qed.

(** X15.  The file name of a download is never empty, is at most 30
    characters long and is made of lowercase letters, digits and
    underscores only, whatever the prompt. *)
Theorem downloadFileName_safe (promptText : string) :
  Text.all isNameChar (downloadFileName promptText) = true
  /\ 1 <= String.length (downloadFileName promptText)
  /\ String.length (downloadFileName promptText) <= 30.
Proof.
  destruct (downloadFileName_is_a_name promptText) as [Hall [Hlo Hhi]]. auto.
Qed.

(** X16.  A prompt that already is such a name (one to 30 lowercase
    letters, digits and underscores) is used as it is. *)
Theorem downloadFileName_keeps_names (name : string) :
  Text.all isNameChar name = true ->
  1 <= String.length name ->
  String.length name <= 30 ->
  downloadFileName name = name.
Proof.
  intros Hall Hlo Hhi. apply downloadFileName_of_name; auto.
Qed.

(** Naming is idempotent: the name of a name is that name. *)
Theorem downloadFileName_idempotent (promptText : string) :
  downloadFileName (downloadFileName promptText) = downloadFileName promptText.
Proof.
  destruct (downloadFileName_is_a_name promptText) as [Hall Hlen].
  apply downloadFileName_of_name; assumption.
Qed.

(* ================================================================= *)
(** ** Facts about the larger programs *)

Section PerformFacts.

Variables S W : Type.
Variable h : Oracle W.

Lemma perform_and_then (A B : Type) (p : Flow S A) (q : A -> Flow S B)
    (s : S) (w : W) :
  perform h (and_then p q) s w =
    let r1 := perform h p s w in
    match result r1 with
    | Resolved a =>
        let r2 := perform h (q a) (ended r1) (after r1) in
        mkRan (ended r2) (after r2) (trace r1 ++ trace r2)%list (result r2)
    | Rejected e => mkRan (ended r1) (after r1) (trace r1) (Rejected e)
    end.
Proof.
  revert s w; induction p as [a|e|f k IH|o k IH|c k IH]; intros s w; simpl.
  - destruct (perform h (q a) s w); reflexivity.
  - reflexivity.
  - apply IH.
  - rewrite IH. simpl. destruct (result (perform h k s w)); reflexivity.
  - destruct (h c w) as [a w']. rewrite IH. simpl.
    destruct (result (perform h (k a) s w')); reflexivity.
Qed.

Lemma perform_attempt (A : Type) (p : Flow S A) (handler : Err -> Flow S A)
    (s : S) (w : W) :
  perform h (attempt p handler) s w =
    let r1 := perform h p s w in
    match result r1 with
    | Resolved a => r1
    | Rejected e =>
        let r2 := perform h (handler e) (ended r1) (after r1) in
        mkRan (ended r2) (after r2) (trace r1 ++ trace r2)%list (result r2)
    end.
Proof.
  revert s w; induction p as [a|e|f k IH|o k IH|c k IH]; intros s w; simpl.
  - reflexivity.
  - destruct (perform h (handler e) s w); reflexivity.
  - apply IH.
  - rewrite IH. simpl. destruct (result (perform h k s w)); reflexivity.
  - destruct (h c w) as [a w']. rewrite IH. simpl.
    destruct (result (perform h (k a) s w')); reflexivity.
Qed.

Lemma perform_ensure (A : Type) (p : Flow S A) (q : Flow S unit)
    (s : S) (w : W) :
  perform h (ensure p q) s w =
    let r1 := perform h p s w in
    let r2 := perform h q (ended r1) (after r1) in
    mkRan (ended r2) (after r2) (trace r1 ++ trace r2)%list
      match result r2 with
      | Resolved _ => result r1
      | Rejected e => Rejected e
      end.
Proof.
  revert s w; induction p as [a|e|f k IH|o k IH|c k IH]; intros s w; simpl.
  - rewrite perform_and_then. cbv zeta.
    destruct (result (perform h q s w)); simpl; rewrite ?app_nil_r;
      reflexivity.
  - rewrite perform_and_then. cbv zeta.
    destruct (result (perform h q s w)); simpl; rewrite ?app_nil_r;
      reflexivity.
  - apply IH.
  - rewrite IH. reflexivity.
  - destruct (h c w) as [a w']. rewrite IH. reflexivity.
Qed.

(** A program of the session and media layer runs inside a larger one
    as it runs alone, against the base part of the oracle. *)
Lemma perform_lift (R : Type) (p : Prog S R) (s : S) (w : W) :
  perform h (lift p) s w =
    let r := run (baseOf h) p s w in
    mkRan (final r) (world r) (map actOf (log r)) (outcome r).
Proof.
  revert s w; induction p as [a|e|f k IH|o k IH|c k IH]; intros s w; simpl.
  - reflexivity.
  - reflexivity.
  - apply IH.
  - rewrite IH. reflexivity.
  - change (baseOf h c w) with (h (Base c) w).
    destruct (h (Base c) w) as [a w']. rewrite IH. reflexivity.
Qed.

End PerformFacts.

Lemma plain_bind (S A B : Type) (p : Prog S A) (q : A -> Prog S B) :
  Plain p -> (forall a, Plain (q a)) -> Plain (bind p q).
Proof.
  intros Hp Hq. induction Hp as [r|e|l d k Hk IH|c k Hk IH]; simpl.
  - apply Hq.
  - constructor.
  - constructor. exact IH.
  - constructor. exact IH.
Qed.

Lemma plain_final (S W R : Type) (h : Handler W) (p : Prog S R) (s : S)
    (w : W) :
  Plain p -> final (run h p s w) = s.
Proof.
  intros Hp; revert w; induction Hp as [r|e|l d k Hk IH|c k Hk IH]; intros w;
    simpl.
  - reflexivity.
  - reflexivity.
  - apply IH.
  - destruct (h c w) as [a w']. simpl. apply IH.
Qed.

Lemma plain_no_alert (S W R : Type) (h : Handler W) (p : Prog S R) (s : S)
    (w : W) :
  Plain p -> filter saysAlert (map actOf (log (run h p s w))) = [].
Proof.
  intros Hp; revert w; induction Hp as [r|e|l d k Hk IH|c k Hk IH]; intros w;
    simpl.
  - reflexivity.
  - reflexivity.
  - apply IH.
  - destruct (h c w) as [a w']. simpl. apply IH.
Qed.

Lemma plain_promise_all (S A B : Type) (f : A -> Prog S B) (xs : list A) :
  (forall x, Plain (f x)) -> Plain (promise_all f xs).
Proof.
  intros Hf. induction xs as [|x rest IH]; simpl.
  - constructor.
  - apply plain_bind; [apply Hf|]. intros y.
    apply plain_bind; [exact IH|]. intros ys. constructor.
Qed.

Lemma plain_map_indexed (S A B : Type) (f : A -> nat -> Prog S B)
    (xs : list A) (index : nat) :
  (forall x i, Plain (f x i)) -> Plain (map_indexed f xs index).
Proof.
  intros Hf. revert index. induction xs as [|x rest IH]; intros index; simpl.
  - constructor.
  - apply plain_bind; [apply Hf|]. intros y.
    apply plain_bind; [apply IH|]. intros ys. constructor.
Qed.

Ltac plain :=
  repeat first
    [ progress intros
    | progress (unfold call, settle, console_error)
    | progress simpl
    | match goal with
      | |- context [match ?x with _ => _ end] => destruct x
      end
    | apply Plain_ret | apply Plain_throw
    | apply Plain_emit | apply Plain_call ].

Lemma getUserImages_plain (S : Type) (userId : string) :
  Plain (@getUserImages S userId).
Proof.
  unfold getUserImages. apply plain_bind; [plain|].
  intros selected. destruct (error selected); [constructor|].
  destruct (data selected) as [[|row rest]|]; [constructor| |constructor].
  apply plain_bind;
    [ apply plain_promise_all; intros x; plain
    | intros answers; apply plain_map_indexed; intros x i;
      unfold attachUrl; plain ].
Qed.

Lemma saveImage_plain (S : Type) (userId promptText imageBase64 : string) :
  Plain (@saveImage S userId promptText imageBase64).
Proof. unfold saveImage, base64ToBlob. plain. Qed.

Lemma deleteImage_plain (S : Type) (userId storagePath : string) :
  Plain (@deleteImage S userId storagePath).
Proof. unfold deleteImage. plain. Qed.

(* ================================================================= *)
(** ** The model calls *)

(** X17.  [solveComplexTask] never rejects: it resolves with the text
    of the model's response, or, when the model call rejects, with a
    fixed apology, so that its caller cannot tell a failure from an
    answer.  It touches no state. *)
Theorem solveComplexTask_never_rejects
    (S W : Type) (h : Oracle W) (promptText : string) (s : S) (w : W) :
  let request :=
    {| GenAI.model := "gemini-2.5-pro";
       GenAI.contents := GenAI.Plain promptText;
       GenAI.config :=
         Some (GenAI.mkConfig (Some 32768%N) None None None None) |} in
  let r := perform h (solveComplexTask promptText) s w in
  result r =
    Resolved
      match fst (h (GenerateContent request) w) with
      | Resolved response => GenAI.responseText response
      | Rejected _ =>
          Some "An error occurred while processing the complex task."
      end
  /\ ended r = s
  /\ filter isRequest (trace r) = [ Asked (GenerateContent request) ].
Proof.
  cbv zeta. unfold solveComplexTask. simpl.
  match goal with
  | |- context [h (GenerateContent ?q) w] =>
      destruct (h (GenerateContent q) w) as [[response|e] w1]
  end; simpl; repeat split; reflexivity.
Qed.


Lemma split_lacks (sep : ascii) (s : string) :
  Text.lacks sep s = true -> Text.split sep s = [s].
Proof.
  induction s as [|c rest IH]; simpl; [reflexivity|].
  intros H. apply andb_true_iff in H. destruct H as [Hc Hrest].
  apply negb_true_iff in Hc. rewrite Hc, IH by exact Hrest. reflexivity.
Qed.

Lemma split_at_first (sep : ascii) (header rest : string) :
  Text.lacks sep header = true ->
  Text.split sep (header ++ String sep rest) = header :: Text.split sep rest.
Proof.
  induction header as [|c header IH]; simpl.
  - intros _. rewrite Ascii.eqb_refl. reflexivity.
  - intros H. apply andb_true_iff in H. destruct H as [Hc Hrest].
    apply negb_true_iff in Hc. rewrite Hc, IH by exact Hrest. reflexivity.
Qed.

(** X21.  From a data URL [header,payload] whose header and payload
    hold no comma (as in [data:image/png;base64,....]),
    [fileToGenerativePart] takes the payload as the data of the part,
    and the MIME type from the file, not from the URL. *)
Theorem fileToGenerativePart_takes_payload
    (S W : Type) (h : Oracle W) (file : GenAI.File) (s : S) (w w1 : W)
    (header payload : string) :
  Text.lacks ","%char header = true ->
  Text.lacks ","%char payload = true ->
  h (ReadAsDataURL file) w = (Resolved (header ++ "," ++ payload), w1) ->
  result (perform h (fileToGenerativePart file) s w) =
    Resolved {| GenAI.mimeType := GenAI.fileType file;
                GenAI.data := Some payload |}.
Proof.
  intros Hh Hp Hread. unfold fileToGenerativePart. simpl. rewrite Hread.
  simpl. unfold afterFirstComma.
  change (header ++ String "," payload)
    with (header ++ String ","%char payload).
  rewrite split_at_first by exact Hh. rewrite split_lacks by exact Hp.
  reflexivity.
Qed.

Lemma firstInlineData_find (S W : Type) (h : Oracle W)
    (ps : list GenAI.Part) (s : S) (w : W) :
  perform h (firstInlineData ps) s w =
    mkRan s w []
      match find hasInlineData ps with
      | Some part =>
          match GenAI.inlineData part with
          | Some d => Resolved (GenAI.data d)
          | None => Rejected (Error "No image found in response")
          end
      | None => Rejected (Error "No image found in response")
      end.
Proof.
  induction ps as [|part rest IH]; simpl; [reflexivity|].
  unfold hasInlineData at 1.
  destruct (GenAI.inlineData part) as [d|] eqn:E; simpl.
  - rewrite E. reflexivity.
  - exact IH.
Qed.

(** X22.  [editImage] resolves only with the data of the first part of
    the first candidate that carries inline data; and whatever goes
    wrong (the file cannot be read, the model call rejects, the response
    has no candidate or no part with inline data), the error its caller
    receives is [Failed to edit image.].  When the file cannot be read,
    the model is not called. *)
Theorem editImage_outcomes
    (S W : Type) (h : Oracle W) (promptText : string) (file : GenAI.File)
    (s : S) (w : W) :
  let r := perform h (editImage promptText file) s w in
  (forall e, result r = Rejected e -> e = Error "Failed to edit image.")
  /\ (forall edited,
        result r = Resolved edited ->
        exists request w1 response candidate others ps part d,
          In (Asked (GenerateContent request)) (trace r)
          /\ fst (h (GenerateContent request) w1) = Resolved response
          /\ GenAI.candidates response = Some (candidate :: others)
          /\ GenAI.content candidate = Some (GenAI.mkContent (Some ps))
          /\ find hasInlineData ps = Some part
          /\ GenAI.inlineData part = Some d
          /\ GenAI.data d = edited)
  /\ (forall e w1,
        h (ReadAsDataURL file) w = (Rejected e, w1) ->
        filter isRequest (trace r) = [])
  /\ ended r = s.
Proof.
  cbv zeta. unfold editImage, fileToGenerativePart. simpl.
  destruct (h (ReadAsDataURL file) w) as [[dataUrl|e] w1]; simpl.
  2:{ repeat split; try congruence; try discriminate. }
  match goal with
  | |- context [h (GenerateContent ?q) w1] =>
      set (request := q);
      destruct (h (GenerateContent request) w1) as [[response|e] w2] eqn:Eh
  end; simpl.
  2:{ repeat split; try congruence; try discriminate. }
  rewrite perform_attempt, perform_and_then. cbv zeta.
  unfold firstCandidateParts.
  destruct (GenAI.candidates response) as [[|candidate others]|] eqn:Ec;
    simpl; try (repeat split; try congruence; discriminate).
  destruct (GenAI.content candidate) as [[[ps|]]|] eqn:Eb;
    simpl; try (repeat split; try congruence; discriminate).
  rewrite firstInlineData_find. simpl.
  destruct (find hasInlineData ps) as [part|] eqn:Ef;
    simpl; try (repeat split; try congruence; discriminate).
  destruct (GenAI.inlineData part) as [d|] eqn:Ed;
    simpl; try (repeat split; try congruence; discriminate).
  split; [discriminate|]. split; [|split; [congruence | reflexivity]].
  intros edited He. injection He as <-.
  exists request, w1, response, candidate, others, ps, part, d.
  rewrite Eh. simpl. repeat split; auto.
Qed.

(** X25.  [generateSpeech] resolves only with audio data that is not
    empty, namely the inline data of the first part of the first
    candidate; a response without it counts as a failure, and every
    failure reaches the caller as [Failed to generate speech.]. *)
Theorem generateSpeech_outcomes
    (S W : Type) (h : Oracle W) (spoken : string) (s : S) (w : W) :
  let r := perform h (generateSpeech spoken) s w in
  (forall e, result r = Rejected e -> e = Error "Failed to generate speech.")
  /\ (forall audio,
        result r = Resolved audio ->
        audio <> ""
        /\ exists request response,
             fst (h (GenerateContent request) w) = Resolved response
             /\ firstAudioData response = Some audio)
  /\ ended r = s.
Proof.
  cbv zeta. unfold generateSpeech. simpl.
  match goal with
  | |- context [h (GenerateContent ?q) w] =>
      set (request := q);
      destruct (h (GenerateContent request) w) as [[response|e] w1] eqn:Eh
  end; simpl.
  2:{ repeat split; try congruence; discriminate. }
  destruct (firstAudioData response) as [audio|] eqn:Ea; simpl.
  2:{ repeat split; try congruence; discriminate. }
  destruct (JS.truthy audio) eqn:Et; simpl.
  2:{ repeat split; try congruence; discriminate. }
  split; [discriminate|]. split; [|reflexivity].
  intros audio' Ha. injection Ha as <-. split.
  - apply truthy_nonempty. exact Et.
  - exists request, response. rewrite Eh. auto.
Qed.

(* ================================================================= *)
(** ** The model calls make no state update *)

Lemma inert_and_then (S A B : Type) (p : Flow S A) (q : A -> Flow S B) :
  Inert p -> (forall a, Inert (q a)) -> Inert (and_then p q).
Proof.
  intros Hp Hq. induction Hp as [r|e|o k Hk IH|c k Hk IH]; simpl.
  - apply Hq.
  - constructor.
  - constructor. exact IH.
  - constructor. exact IH.
Qed.

Lemma inert_attempt (S A : Type) (p : Flow S A) (handler : Err -> Flow S A) :
  Inert p -> (forall e, Inert (handler e)) -> Inert (attempt p handler).
Proof.
  intros Hp Hq. induction Hp as [r|e|o k Hk IH|c k Hk IH]; simpl.
  - constructor.
  - apply Hq.
  - constructor. exact IH.
  - constructor. exact IH.
Qed.

Lemma inert_lift (S R : Type) (p : Prog S R) : Plain p -> Inert (lift p).
Proof.
  intros Hp. induction Hp as [r|e|l d k Hk IH|c k Hk IH]; simpl;
    constructor; assumption.
Qed.

(** An inert program ends in the state it started in, and the rest of
    its run does not depend on that state. *)
Lemma inert_perform (S W R : Type) (h : Oracle W) (p : Flow S R)
    (s s0 : S) (w : W) :
  Inert p ->
  perform h p s w =
    let r0 := perform h p s0 w in
    mkRan s (after r0) (trace r0) (result r0).
Proof.
  intros Hp; revert w; induction Hp as [r|e|o k Hk IH|c k Hk IH]; intros w;
    simpl.
  - reflexivity.
  - reflexivity.
  - rewrite IH. reflexivity.
  - destruct (h c w) as [a w']. rewrite IH. reflexivity.
Qed.

Ltac inert :=
  repeat first
    [ progress intros
    | progress (unfold ask, settled, say)
    | progress simpl
    | match goal with
      | |- context [match ?x with _ => _ end] => destruct x
      end
    | apply Inert_pure | apply Inert_raise
    | apply Inert_say | apply Inert_ask ].

Lemma solveComplexTask_inert (S : Type) (promptText : string) :
  Inert (@solveComplexTask S promptText).
Proof. unfold solveComplexTask. inert. Qed.

Lemma generateImage_inert (S : Type) (promptText aspect : string) :
  Inert (@generateImage S promptText aspect).
Proof. unfold generateImage, firstImageBytes. inert. Qed.

Lemma firstInlineData_inert (S : Type) (ps : list GenAI.Part) :
  Inert (@firstInlineData S ps).
Proof.
  induction ps as [|part rest IH]; simpl; [constructor|].
  destruct (GenAI.inlineData part); [constructor | exact IH].
Qed.

Lemma editImage_inert (S : Type) (promptText : string) (file : GenAI.File) :
  Inert (@editImage S promptText file).
Proof.
  unfold editImage. apply inert_attempt; [|inert].
  apply inert_and_then; [unfold fileToGenerativePart; inert|].
  intros imagePart. apply inert_and_then; [inert|].
  intros answered. apply inert_and_then; [inert|].
  intros response. apply inert_and_then; [unfold firstCandidateParts; inert|].
  intros ps. apply firstInlineData_inert.
Qed.

Lemma analyzeImage_inert (S : Type) (promptText : string) (file : GenAI.File) :
  Inert (@analyzeImage S promptText file).
Proof. unfold analyzeImage, fileToGenerativePart. inert. Qed.

Lemma performGroundedSearch_inert (S : Type) (query : string)
    (tool : GenAI.Tool) (location : option GenAI.LatLng) :
  Inert (@performGroundedSearch S query tool location).
Proof. unfold performGroundedSearch. inert. Qed.

(* ================================================================= *)
(** ** The panels *)

Lemma blank_or_not (p : string) :
  (JS.blank p = true /\ JS.truthy (JS.trim p) = false)
  \/ (JS.blank p = false /\ JS.truthy (JS.trim p) = true).
Proof.
  destruct (JS.truthy (JS.trim p)) eqn:Ht.
  - right. split; [|reflexivity].
    destruct (JS.blank p) eqn:Hb; [|reflexivity].
    apply trim_blank in Hb. congruence.
  - left. split; [|reflexivity]. apply trim_blank. exact Ht.
Qed.

(** X18.  [handleSolve] never reports a failure of the model: on a
    non-blank prompt it ends with no error, [isLoading] down and the
    result set to what [solveComplexTask] resolved with, which for a
    failed model call is the apology text; its own failure message is
    never shown.  On a blank prompt it sets the prompt error and calls
    nothing. *)
Theorem handleSolve_never_reports_failure
    (W : Type) (h : Oracle W) (s : ComplexTaskSolver.State) (w : W) :
  let request :=
    {| GenAI.model := "gemini-2.5-pro";
       GenAI.contents := GenAI.Plain (ComplexTaskSolver.prompt s);
       GenAI.config :=
         Some (GenAI.mkConfig (Some 32768%N) None None None None) |} in
  let r := perform h (ComplexTaskSolver.handleSolve s) s w in
  result r = Resolved tt
  /\ if JS.blank (ComplexTaskSolver.prompt s)
     then ended r =
            {| ComplexTaskSolver.prompt := ComplexTaskSolver.prompt s;
               ComplexTaskSolver.result := ComplexTaskSolver.result s;
               ComplexTaskSolver.isLoading := ComplexTaskSolver.isLoading s;
               ComplexTaskSolver.error :=
                 Some "Please enter a prompt for the complex task." |}
          /\ trace r = []
     else ended r =
            {| ComplexTaskSolver.prompt := ComplexTaskSolver.prompt s;
               ComplexTaskSolver.result :=
                 match fst (h (GenerateContent request) w) with
                 | Resolved response => GenAI.responseText response
                 | Rejected _ =>
                     Some "An error occurred while processing the complex task."
                 end;
               ComplexTaskSolver.isLoading := false;
               ComplexTaskSolver.error := None |}.
Proof.
  cbv zeta. unfold ComplexTaskSolver.handleSolve.
  destruct (blank_or_not (ComplexTaskSolver.prompt s)) as [[Hb Ht]|[Hb Ht]];
    rewrite Hb, Ht; simpl.
  - auto.
  - match goal with
    | |- context [h (GenerateContent ?q) w] =>
        destruct (h (GenerateContent q) w) as [[response|e] w1]
    end; simpl; split; reflexivity.
Qed.

(** X20.  After [handleGenerate] on a non-blank prompt, [isLoading] is
    down and an image and an error are never shown together: when
    [generateImage] resolved, the image is what it resolved with and
    there is no error; when it rejected, there is no image, the previous
    one having been discarded, and the error is the fixed retry message.
    On a blank prompt it sets the prompt error, keeps the image and
    calls nothing. *)
Theorem handleGenerate_outcomes
    (W : Type) (h : Oracle W) (s : ImageGenerator.State) (w : W) :
  let generated :=
    perform h (generateImage (ImageGenerator.prompt s)
                 (ImageGenerator.aspectRatio s)) s w in
  let r := perform h (ImageGenerator.handleGenerate s) s w in
  result r = Resolved tt
  /\ if JS.blank (ImageGenerator.prompt s)
     then ended r =
            ImageGenerator.mkState (ImageGenerator.prompt s)
              (ImageGenerator.aspectRatio s) (ImageGenerator.generatedImage s)
              (ImageGenerator.isLoading s) (ImageGenerator.isSaving s)
              (Some "Please enter a prompt.") (ImageGenerator.user s)
          /\ trace r = []
     else ImageGenerator.isLoading (ended r) = false
          /\ (ImageGenerator.error (ended r) = None
              \/ ImageGenerator.generatedImage (ended r) = None)
          /\ match result generated with
             | Resolved bytes =>
                 ImageGenerator.generatedImage (ended r) = bytes
                 /\ ImageGenerator.error (ended r) = None
             | Rejected _ =>
                 ImageGenerator.generatedImage (ended r) = None
                 /\ ImageGenerator.error (ended r) =
                      Some "Failed to generate image. Please try again."
             end.
Proof.
  cbv zeta. unfold ImageGenerator.handleGenerate.
  destruct (blank_or_not (ImageGenerator.prompt s)) as [[Hb Ht]|[Hb Ht]];
    rewrite Hb, Ht; [simpl; auto|].
  remember (generateImage (ImageGenerator.prompt s)
              (ImageGenerator.aspectRatio s)) as service eqn:Eservice.
  assert (Hinert : Inert service) by (subst service; apply generateImage_inert).
  simpl.
  rewrite perform_ensure, perform_attempt, perform_and_then. cbv zeta.
  match goal with
  | |- context [perform h service ?s3 w] =>
      rewrite (inert_perform h s3 s w Hinert)
  end.
  cbv zeta. simpl.
  destruct (result (perform h service s w)) as [bytes|e]; simpl; auto.
Qed.

(** X23.  [handleEdit] without an image or on a blank prompt sets its
    input error and reads and calls nothing.  Otherwise it ends with
    [isLoading] down, and an edited image and an error are never shown
    together: when [editImage] resolved, the edited image is what it
    resolved with and there is no error; when it rejected, there is no
    edited image and the error is the fixed retry message. *)
Theorem handleEdit_outcomes
    (W : Type) (h : Oracle W) (s : ImageEditor.State) (w : W) :
  let r := perform h (ImageEditor.handleEdit s) s w in
  result r = Resolved tt
  /\ match ImageEditor.originalImage s with
     | Some file =>
         if JS.blank (ImageEditor.prompt s)
         then ImageEditor.error (ended r) =
                Some "Please provide an image and a prompt."
              /\ ImageEditor.editedImage (ended r) = ImageEditor.editedImage s
              /\ trace r = []
         else ImageEditor.isLoading (ended r) = false
              /\ (ImageEditor.error (ended r) = None
                  \/ ImageEditor.editedImage (ended r) = None)
              /\ match result (perform h (editImage (ImageEditor.prompt s)
                                            file) s w) with
                 | Resolved edited =>
                     ImageEditor.editedImage (ended r) = edited
                     /\ ImageEditor.error (ended r) = None
                 | Rejected _ =>
                     ImageEditor.editedImage (ended r) = None
                     /\ ImageEditor.error (ended r) =
                          Some "Failed to edit image. Please try again."
                 end
     | None =>
         ImageEditor.error (ended r) =
           Some "Please provide an image and a prompt."
         /\ ImageEditor.editedImage (ended r) = ImageEditor.editedImage s
         /\ trace r = []
     end.
Proof.
  cbv zeta. unfold ImageEditor.handleEdit.
  destruct (ImageEditor.originalImage s) as [file|]; [|simpl; auto].
  destruct (blank_or_not (ImageEditor.prompt s)) as [[Hb Ht]|[Hb Ht]];
    rewrite Hb, Ht; [simpl; auto|].
  remember (editImage (ImageEditor.prompt s) file) as service eqn:Eservice.
  assert (Hinert : Inert service) by (subst service; apply editImage_inert).
  simpl.
  rewrite perform_ensure, perform_attempt, perform_and_then. cbv zeta.
  match goal with
  | |- context [perform h service ?s3 w] =>
      rewrite (inert_perform h s3 s w Hinert)
  end.
  cbv zeta. simpl.
  destruct (result (perform h service s w)) as [edited|e]; simpl; auto.
Qed.

(** X24.  [handleAnalyze] shows the text of the model's response when
    the file is read and the model answers; when either the file read or
    the model call fails, it shows the fixed retry message and no
    analysis, and a failed file read means the model is not called.
    Without an image or on a blank prompt it reads and calls nothing. *)
Theorem handleAnalyze_outcomes
    (W : Type) (h : Oracle W) (s : ImageAnalyzer.State) (w : W) :
  let r := perform h (ImageAnalyzer.handleAnalyze s) s w in
  result r = Resolved tt
  /\ match ImageAnalyzer.imageFile s with
     | Some file =>
         if JS.blank (ImageAnalyzer.prompt s)
         then ImageAnalyzer.error (ended r) =
                Some "Please provide an image and a prompt."
              /\ trace r = []
         else
           ImageAnalyzer.isLoading (ended r) = false
           /\ match h (ReadAsDataURL file) w with
              | (Resolved dataUrl, w1) =>
                  let request :=
                    {| GenAI.model := "gemini-2.5-flash";
                       GenAI.contents :=
                         GenAI.Single
                           [ GenAI.inlinePart
                               (GenAI.mkInlineData (GenAI.fileType file)
                                  (afterFirstComma dataUrl));
                             GenAI.textPart (ImageAnalyzer.prompt s) ];
                       GenAI.config := None |} in
                  match fst (h (GenerateContent request) w1) with
                  | Resolved response =>
                      ImageAnalyzer.analysisResult (ended r) =
                        GenAI.responseText response
                      /\ ImageAnalyzer.error (ended r) = None
                  | Rejected _ =>
                      ImageAnalyzer.analysisResult (ended r) = None
                      /\ ImageAnalyzer.error (ended r) =
                           Some "Failed to analyze image. Please try again."
                  end
              | (Rejected _, _) =>
                  ImageAnalyzer.analysisResult (ended r) = None
                  /\ ImageAnalyzer.error (ended r) =
                       Some "Failed to analyze image. Please try again."
                  /\ filter isRequest (trace r) = []
              end
     | None =>
         ImageAnalyzer.error (ended r) =
           Some "Please provide an image and a prompt."
         /\ trace r = []
     end.
Proof.
  cbv zeta. unfold ImageAnalyzer.handleAnalyze.
  destruct (ImageAnalyzer.imageFile s) as [file|]; [|simpl; auto].
  destruct (blank_or_not (ImageAnalyzer.prompt s)) as [[Hb Ht]|[Hb Ht]];
    rewrite Hb, Ht; [simpl; auto|].
  unfold analyzeImage, fileToGenerativePart. simpl.
  destruct (h (ReadAsDataURL file) w) as [[dataUrl|e] w1]; simpl; auto.
  match goal with
  | |- context [h (GenerateContent ?q) w1] =>
      destruct (h (GenerateContent q) w1) as [[response|e] w2]
  end; simpl; auto.
Qed.

(** X26.  Whatever the state, [handleSearch] issues at most one model
    request, for the query as typed and with the selected tool alone;
    a Maps request always carries the position of the state, which is
    then known, and a Search request never carries a position.  In
    particular a Maps search without a position calls nothing. *)
Theorem handleSearch_requests
    (W : Type) (h : Oracle W) (s : GroundingSearch.State) (w : W) :
  let r := perform h (GroundingSearch.handleSearch s) s w in
  result r = Resolved tt
  /\ length (filter isRequest (trace r)) <= 1
  /\ Forall
       (fun a =>
          match a with
          | Asked (GenerateContent request) =>
              GenAI.contents request = GenAI.Plain (GroundingSearch.query s)
              /\ exists c,
                   GenAI.config request = Some c
                   /\ GenAI.tools c = Some [GroundingSearch.searchTool s]
                   /\ match GroundingSearch.searchTool s with
                      | GenAI.GoogleMaps =>
                          GenAI.latLng c = GroundingSearch.location s
                          /\ GroundingSearch.location s <> None
                      | GenAI.GoogleSearch => GenAI.latLng c = None
                      end
          | Asked _ => False
          | Said _ => True
          end)
       (trace r).
Proof.
  cbv zeta. unfold GroundingSearch.handleSearch.
  destruct (JS.truthy (JS.trim (GroundingSearch.query s))); simpl;
    [|repeat split; auto].
  unfold GroundingSearch.needsLocation, performGroundedSearch, searchConfig.
  destruct (GroundingSearch.searchTool s) eqn:Etool;
    destruct (GroundingSearch.location s) as [position|] eqn:Eloc; simpl;
    try (repeat split; auto; fail);
    match goal with
    | |- context [h (GenerateContent ?q) w] =>
        destruct (h (GenerateContent q) w) as [[response|e] w1]
    end; simpl;
    (split; [reflexivity|]; split; [lia|]);
    repeat constructor; simpl; eexists; repeat split; try reflexivity;
      discriminate.
Qed.

(** X27.  [fetchImages] for a signed-in user never rejects and always
    leaves [isLoading] down.  When [getUserImages] resolves, the gallery
    shows what it resolved with and no error; when it rejects, the
    gallery keeps the images it had and shows the error [Failed to load
    gallery: ] followed by the message of the rejection. *)
Theorem fetchImages_outcomes
    (W : Type) (h : Oracle W) (s : Gallery.State) (w : W) (u : User) :
  Gallery.user s = Some u ->
  let listed := run (baseOf h) (getUserImages (user_id u)) s w in
  let r := perform h (Gallery.fetchImages s) s w in
  result r = Resolved tt
  /\ Gallery.isLoading (ended r) = false
  /\ Gallery.user (ended r) = Gallery.user s
  /\ match outcome listed with
     | Resolved found =>
         Gallery.images (ended r) = found
         /\ Gallery.error (ended r) = None
     | Rejected e =>
         Gallery.images (ended r) = Gallery.images s
         /\ Gallery.error (ended r) =
              Some ("Failed to load gallery: " ++ message e)
     end.
Proof.
  intros Hu. cbv zeta. unfold Gallery.fetchImages. rewrite Hu.
  remember (getUserImages (user_id u)) as service eqn:Eservice.
  assert (Hplain : Plain service).
  { subst service. apply getUserImages_plain. }
  simpl.
  rewrite perform_ensure, perform_attempt, perform_and_then. cbv zeta.
  match goal with
  | |- context [perform h (lift service) ?s3 w] =>
      rewrite (inert_perform h s3 s w (inert_lift Hplain))
  end.
  rewrite perform_lift. cbv zeta. simpl.
  destruct (outcome (run (baseOf h) service s w)) as [found|e]; simpl; auto.
Qed.

(** X28.  [handleDelete] for a signed-in user asks for confirmation
    first.  Declined, it calls nothing and changes nothing.  Confirmed,
    it removes from the view exactly the entries that have the id of the
    picked image when [deleteImage] resolves; when [deleteImage] rejects
    (in either phase) it leaves the view as it is and alerts [Failed to
    delete image: ] followed by the message of the rejection. *)
Theorem handleDelete_outcomes
    (W : Type) (h : Oracle W) (s : Gallery.State) (w w1 : W) (u : User)
    (picked : GalleryImage) (confirmed : bool) :
  Gallery.user s = Some u ->
  h (Confirm "Are you sure you want to delete this image?") w
    = (confirmed, w1) ->
  let deleted :=
    run (baseOf h) (deleteImage (user_id u) (storage_path picked)) s w1 in
  let r := perform h (Gallery.handleDelete s picked) s w in
  result r = Resolved tt
  /\ if confirmed
     then match outcome deleted with
          | Resolved _ =>
              (forall img,
                  In img (Gallery.images (ended r)) <->
                  In img (Gallery.images s)
                  /\ image_id img <> image_id picked)
              /\ filter saysAlert (trace r) = []
          | Rejected e =>
              ended r = s
              /\ filter saysAlert (trace r) =
                   [ Said (Alert ("Failed to delete image: " ++ message e)) ]
          end
     else ended r = s
          /\ trace r =
               [ Asked (Confirm "Are you sure you want to delete this image?") ].
Proof.
  intros Hu Hconfirm. cbv zeta. unfold Gallery.handleDelete. rewrite Hu.
  remember (deleteImage (user_id u) (storage_path picked))
    as service eqn:Eservice.
  assert (Hplain : Plain service).
  { subst service. apply deleteImage_plain. }
  simpl. rewrite Hconfirm. destruct confirmed; simpl; [|auto].
  rewrite perform_attempt, perform_and_then. cbv zeta.
  rewrite perform_lift. cbv zeta. simpl.
  pose proof (@plain_final Gallery.State W unit (baseOf h) service s w1
                Hplain) as Hfinal.
  pose proof (@plain_no_alert Gallery.State W unit (baseOf h) service s w1
                Hplain) as Hquiet.
  destruct (outcome (run (baseOf h) service s w1)) as [done|e]; simpl.
  - split; [reflexivity|]. split.
    + intros img. rewrite Hfinal. unfold Gallery.without.
      rewrite filter_In, negb_true_iff, N.eqb_neq. reflexivity.
    + rewrite app_nil_r. exact Hquiet.
  - split; [reflexivity|]. split.
    + rewrite Hfinal. destruct s; reflexivity.
    + rewrite filter_app, Hquiet. reflexivity.
Qed.

(** X29.  [handleSave] of the image editor, with an edited image and a
    signed-in user, never rejects and always leaves [isSaving] down and
    the edited image and the prompt as they were.  It saves the edited
    image under the prompt of the state; when [saveImage] resolves it
    alerts the success and shows no error, and when [saveImage] rejects
    it shows [Failed to save image: ] followed by the message of the
    rejection and alerts nothing. *)
Theorem ImageEditor_handleSave_outcomes
    (W : Type) (h : Oracle W) (s : ImageEditor.State) (w : W) (u : User)
    (imageBytes : string) :
  ImageEditor.editedImage s = Some imageBytes ->
  imageBytes <> "" ->
  ImageEditor.user s = Some u ->
  let saved :=
    run (baseOf h) (saveImage (user_id u) (ImageEditor.prompt s) imageBytes)
      s w in
  let r := perform h (ImageEditor.handleSave s) s w in
  result r = Resolved tt
  /\ ImageEditor.isSaving (ended r) = false
  /\ ImageEditor.editedImage (ended r) = ImageEditor.editedImage s
  /\ ImageEditor.prompt (ended r) = ImageEditor.prompt s
  /\ match outcome saved with
     | Resolved _ =>
         ImageEditor.error (ended r) = None
         /\ filter saysAlert (trace r) =
              [ Said (Alert "Image saved to your gallery!") ]
     | Rejected e =>
         ImageEditor.error (ended r) =
           Some ("Failed to save image: " ++ message e)
         /\ filter saysAlert (trace r) = []
     end.
Proof.
  intros Himg Hne Hu. cbv zeta. unfold ImageEditor.handleSave.
  rewrite Himg, Hu.
  apply truthy_nonempty in Hne. rewrite Hne.
  remember (saveImage (user_id u) (ImageEditor.prompt s) imageBytes)
    as service eqn:Eservice.
  assert (Hplain : Plain service) by (subst service; apply saveImage_plain).
  simpl.
  rewrite perform_ensure, perform_attempt, perform_and_then. cbv zeta.
  match goal with
  | |- context [perform h (lift service) ?s3 w] =>
      rewrite (inert_perform h s3 s w (inert_lift Hplain))
  end.
  rewrite perform_lift. cbv zeta. simpl.
  pose proof (@plain_no_alert ImageEditor.State W unit (baseOf h) service s w
                Hplain) as Hquiet.
  destruct (outcome (run (baseOf h) service s w)) as [done|e]; simpl;
    rewrite ?filter_app, ?Hquiet; simpl; rewrite ?Himg; auto 10.
Qed.

(** X30.  [handleSave] of the image generator, with a generated image
    and a signed-in user, never rejects and always leaves [isSaving]
    down and the generated image as it was.  It saves the image under
    the prompt of the state, which may have been edited since the image
    was generated; when [saveImage] resolves it alerts the success and
    shows no error, and when [saveImage] rejects it shows [Failed to
    save image: ] followed by the message of the rejection and alerts
    nothing. *)
Theorem ImageGenerator_handleSave_outcomes
    (W : Type) (h : Oracle W) (s : ImageGenerator.State) (w : W) (u : User)
    (imageBytes : string) :
  ImageGenerator.generatedImage s = Some imageBytes ->
  imageBytes <> "" ->
  ImageGenerator.user s = Some u ->
  let saved :=
    run (baseOf h)
      (saveImage (user_id u) (ImageGenerator.prompt s) imageBytes) s w in
  let r := perform h (ImageGenerator.handleSave s) s w in
  result r = Resolved tt
  /\ ImageGenerator.isSaving (ended r) = false
  /\ ImageGenerator.generatedImage (ended r) = ImageGenerator.generatedImage s
  /\ match outcome saved with
     | Resolved _ =>
         ImageGenerator.error (ended r) = None
         /\ filter saysAlert (trace r) =
              [ Said (Alert "Image saved to your gallery!") ]
     | Rejected e =>
         ImageGenerator.error (ended r) =
           Some ("Failed to save image: " ++ message e)
         /\ filter saysAlert (trace r) = []
     end.
Proof.
  intros Himg Hne Hu. cbv zeta. unfold ImageGenerator.handleSave.
  rewrite Himg, Hu.
  apply truthy_nonempty in Hne. rewrite Hne.
  remember (saveImage (user_id u) (ImageGenerator.prompt s) imageBytes)
    as service eqn:Eservice.
  assert (Hplain : Plain service) by (subst service; apply saveImage_plain).
  simpl.
  rewrite perform_ensure, perform_attempt, perform_and_then. cbv zeta.
  match goal with
  | |- context [perform h (lift service) ?s3 w] =>
      rewrite (inert_perform h s3 s w (inert_lift Hplain))
  end.
  rewrite perform_lift. cbv zeta. simpl.
  pose proof (@plain_no_alert ImageGenerator.State W unit (baseOf h) service
                s w Hplain) as Hquiet.
  destruct (outcome (run (baseOf h) service s w)) as [done|e]; simpl;
    rewrite ?filter_app, ?Hquiet; simpl; rewrite ?Himg; auto 10.
Qed.

(* ================================================================= *)
(** ** The further theorems at work *)

(** *** The code on concrete inputs *)

Example downloadFileName_examples :
  downloadFileName "A majestic LION, wearing a crown: cinematic!"
    = "a_majestic_lion__wearing_a_cro"
  /\ downloadFileName "" = "gemini_image"
  /\ downloadFileName "***" = "___".
Proof. repeat split. Qed.

Example split_examples :
  Text.split ","%char "data:image/png;base64,aGk=" =
    [ "data:image/png;base64"; "aGk=" ]
  /\ Text.split ","%char "" = [ "" ]
  /\ Text.split ","%char "a,,b," = [ "a"; ""; "b"; "" ]
  /\ afterFirstComma "no comma" = None.
Proof. repeat split. Qed.

Example editImage_sound :
  result (perform (Studio.serve Backend.sound Studio.sound)
            (editImage "make it blue" Cases.photo) tt Backend.empty)
  = Resolved (Some "ZWRpdGVk").
Proof. reflexivity. Qed.

Example handleGenerate_then_handleSave :
  let h := Studio.serve Backend.sound Studio.sound in
  let s0 := ImageGenerator.mkState "a red fox" "1:1" None false false None
              (Some Scenario.alice) in
  let r1 := perform h (ImageGenerator.handleGenerate s0) s0 Backend.empty in
  let r2 := perform h (ImageGenerator.handleSave (ended r1)) (ended r1)
              (after r1) in
  ImageGenerator.generatedImage (ended r2) = Some "cGFpbnRlZA=="
  /\ map (fun p => prompt (snd p)) (Backend.user_images (after r2))
       = [ "a red fox" ].
Proof. split; reflexivity. Qed.

(** *** The theorems on concrete inputs *)

(** The bucket is full: the save stops at the upload. *)
Lemma saveImage_stops_at_failed_upload_witness :
  let r := run (Backend.serve Cases.uploadDown) (saveImage "alice" "cat" "aGk=")
             tt Backend.empty in
  outcome r =
    Rejected (Error "Failed to upload image to storage: quota exceeded")
  /\ Backend.user_images (world r) = [].
Proof.
  cbv zeta.
  destruct (@saveImage_stops_at_failed_upload unit Backend.Store
              (Backend.serve Cases.uploadDown) tt Backend.empty Backend.empty
              Backend.empty "alice" "cat" "aGk=" "2025-01-01T00:00:00.000Z"
              (mkBlob [97; 71; 107; 61]%N "image/png")
              (Backend.failed (Error "quota exceeded"))
              (Error "quota exceeded") eq_refl eq_refl eq_refl eq_refl)
    as [Hout [_ Hworld]].
  split; [exact Hout|]. rewrite Hworld. reflexivity.
Defined.

(** An input [atob] refuses: nothing is asked of the storage. *)
Lemma saveImage_rejects_undecodable_input_witness :
  let r := run (Backend.serve Cases.undecodable) (saveImage "alice" "cat" "%%")
             tt Backend.empty in
  outcome r =
    Rejected (Error "The string to be decoded is not correctly encoded.")
  /\ log r = [ Issued (Atob "%%") ].
Proof.
  cbv zeta.
  destruct (@saveImage_rejects_undecodable_input unit Backend.Store
              (Backend.serve Cases.undecodable) tt Backend.empty Backend.empty
              "alice" "cat" "%%"
              (Error "The string to be decoded is not correctly encoded.")
              eq_refl) as [Hout [Hlog _]].
  split; assumption.
Defined.

(** The two rows of [alice] are signed, newest first. *)
Lemma getUserImages_signs_each_row_once_witness :
  filter isCall
    (log (run (Backend.serve Backend.sound) (getUserImages "alice") tt
            Scenario.gallery))
  = [ Issued (ImagesSelectDesc "alice");
      Issued (StorageCreateSignedUrl "user_images" "alice/p3.png" 3600);
      Issued (StorageCreateSignedUrl "user_images" "alice/p1.png" 3600) ].
Proof.
  exact (@getUserImages_signs_each_row_once unit Backend.Store
           (Backend.serve Backend.sound) tt Scenario.gallery Scenario.gallery
           "alice"
           [ mkImageRow 3 "owl" "alice/p3.png" 30;
             mkImageRow 1 "cat" "alice/p1.png" 10 ]
           eq_refl).
Defined.

(** Both phases succeed, so the delete resolves. *)
Lemma deleteImage_resolves_iff_both_succeed_witness :
  outcome (run (Backend.serve Backend.sound)
             (deleteImage "alice" "alice/p1.png") tt Scenario.gallery)
  = Resolved tt.
Proof.
  apply (@deleteImage_resolves_iff_both_succeed unit Backend.Store
           (Backend.serve Backend.sound) tt Scenario.gallery Scenario.gallery
           (Backend.mkStore []
              [ ("bob", mkImageRow 2 "dog" "bob/p2.png" 20);
                ("alice", mkImageRow 3 "owl" "alice/p3.png" 30) ] [] 4)
           "alice" "alice/p1.png" (Backend.succeeded tt)
           (Backend.succeeded tt) eq_refl eq_refl).
  split; reflexivity.
Defined.

(** The history cannot be written: the exchange goes on all the same. *)
Lemma handleSend_insert_failure_is_silent_witness :
  let s := Scenario.readyState "hi" in
  let r := run (Backend.serve Cases.historyWriteDown) (handleSend s) s
             Backend.empty in
  messages (final r) =
    [ greeting; mkMessage "user" "hi"; mkMessage "bot" "You said: hi" ]
  /\ filter isAlert (log r) = [].
Proof.
  cbv zeta.
  destruct (@handleSend_insert_failure_is_silent Backend.Store
              (Backend.serve Cases.historyWriteDown) (Scenario.readyState "hi")
              Backend.empty Backend.empty Backend.empty Scenario.liveChat
              Scenario.alice "You said: hi"
              (Backend.failed (Error "permission denied"))
              (Error "permission denied")
              eq_refl eq_refl eq_refl eq_refl eq_refl eq_refl eq_refl)
    as [_ [Hfinal Hlog]].
  rewrite Hfinal, Hlog. split; reflexivity.
Defined.

(** The user turn is in the transcript at the first await. *)
Lemma handleSend_optimistic_update_witness :
  exists k,
    advance (handleSend (Scenario.readyState "hi")) (Scenario.readyState "hi")
    = ({| chat := Some Scenario.liveChat;
          messages := [ greeting; mkMessage "user" "hi" ];
          input := "";
          isLoading := true;
          user := Some Scenario.alice |},
       [],
       Blocked (ChatSendMessage Scenario.liveChat "hi") k).
Proof.
  exact (@handleSend_optimistic_update (Scenario.readyState "hi")
           Scenario.liveChat Scenario.alice eq_refl eq_refl eq_refl eq_refl).
Defined.

(** The rows of [alice] seed the chat; [assistant] becomes [model]. *)
Lemma initChat_seeds_history_witness :
  exists c seeds,
    chat (final (run (Backend.serve Backend.sound) (initChat "alice")
                   Scenario.initial Cases.talked)) = Some c
    /\ history c = Some seeds
    /\ map role seeds = [ "user"; "model" ].
Proof.
  destruct (@initChat_seeds_history Backend.Store
              (Backend.serve Backend.sound) Scenario.initial Cases.talked
              Cases.talked "alice"
              (Backend.succeeded
                 [ mkMessage "user" "hello";
                   mkMessage "assistant" "Hello, alice" ])
              eq_refl) as [c [seeds [Hc [Hh Hrows]]]].
  exists c, seeds. split; [exact Hc|]. split; [exact Hh|].
  cbv zeta in Hrows. simpl in Hrows.
  inversion Hrows as [|r1 s1 rs1 ss1 [_ [Hu1 _]] Hrest]; subst.
  inversion Hrest as [|r2 s2 rs2 ss2 [_ [_ Hm2]] Hnil]; subst.
  inversion Hnil; subst. simpl.
  rewrite (Hu1 eq_refl), Hm2; [reflexivity | discriminate].
Defined.

(** With the knowledge base at hand, it is the system instruction. *)
Lemma initChat_system_instruction_witness :
  exists c,
    chat (final (run (Backend.serve Backend.sound) (initChat "alice")
                   Scenario.initial Backend.empty)) = Some c
    /\ config c = Some "EBURON knowledge".
Proof.
  exact (@initChat_system_instruction Backend.Store
           (Backend.serve Backend.sound) Scenario.initial Backend.empty
           Backend.empty "alice" (Resolved (mkFetchResponse true 200))
           eq_refl).
Defined.

(** [alice] is handed out anew while the component is idle; in the
    exchange that follows, [isLoading] is up. *)
Lemma isLoading_tracks_flight_witness :
  isLoading (view Scenario.resumed) = true
  /\ exists t, In t (tasks Scenario.resumed) /\ origin t <> FromClear.
Proof.
  destruct (isLoading_tracks_flight resumed_reachable) as [Hup Hdown].
  assert (Hflag : isLoading (view Scenario.resumed) = true).
  { apply Hdown; [exact whenIdle_signs_in_when_idle|].
    eexists. split; [left; reflexivity | discriminate]. }
  split; [exact Hflag | exact (Hup Hflag)].
Defined.

(** Handed out anew in the middle of an exchange, the flag is down
    while that exchange is still pending. *)
Example isLoading_down_mid_exchange :
  let sys :=
    Scenario.settleAt 1 Scenario.recalled
      (Scenario.settleAt 1 Scenario.recalled
         (Scenario.settleAt 1 Scenario.recalled
            (userChanged (Some Scenario.alice)
               (Scenario.pressSend (Scenario.typing "hi" Scenario.opened))))) in
  reachable anytime (Some Scenario.alice) sys
  /\ isLoading (view sys) = false
  /\ map (fun t => origin t) (tasks sys) = [FromSend].
Proof.
  cbv zeta. split; [|split; reflexivity].
  do 3 apply settleAt_reachable.
  eapply reach_step; [|apply step_auth; exact I].
  apply pressSend_reachable, typing_reachable, opened_reachable.
Qed.

(** Even after [alice] was handed out anew in the middle of an
    exchange, the session is opened. *)
Lemma session_opened_after_init_witness :
  (exists c, chat (view Scenario.overtaken) = Some c)
  /\ messages (view Scenario.overtaken) <> [].
Proof.
  apply (session_opened_after_init overtaken_reachable).
  - intros t [Ht|[]]. rewrite <- Ht. discriminate.
  - discriminate.
Defined.

(** And once everything has settled, it accepts the next message. *)
Lemma send_accepted_when_settled_witness :
  let sys :=
    Scenario.settleHead Scenario.answers
      (Scenario.settleHead Scenario.answers Scenario.overtaken) in
  tasks sys = []
  /\ outstanding (Scenario.pressSend sys) = 1
  /\ messages (view (Scenario.pressSend sys)) =
       (messages (view sys) ++ [ mkMessage "user" "again" ])%list.
Proof.
  cbv zeta. split; [reflexivity|].
  assert (Hr : reachable anytime (Some Scenario.alice)
                 (Scenario.settleHead Scenario.answers
                    (Scenario.settleHead Scenario.answers Scenario.overtaken))).
  { do 2 apply settleHead_reachable. exact overtaken_reachable. }
  assert (Honly : forall t,
             In t (tasks (Scenario.settleHead Scenario.answers
                            (Scenario.settleHead Scenario.answers
                               Scenario.overtaken))) ->
             origin t = FromClear).
  { intros t Hin. destruct Hin. }
  assert (Hu : user (view (Scenario.settleHead Scenario.answers
                             (Scenario.settleHead Scenario.answers
                                Scenario.overtaken))) <> None)
    by discriminate.
  destruct (send_accepted_when_settled Hr Honly Hu eq_refl) as [Hone Hm].
  split; [exact Hone | exact Hm].
Defined.

(** A clean name is kept. *)
Lemma downloadFileName_keeps_names_witness :
  downloadFileName "red_fox_2" = "red_fox_2".
Proof.
  apply downloadFileName_keeps_names; [reflexivity | simpl; lia | simpl; lia].
Defined.


(** The payload of the data URL becomes the part's data. *)
Lemma fileToGenerativePart_takes_payload_witness :
  result (perform (Studio.serve Backend.sound Studio.sound)
            (fileToGenerativePart Cases.photo) tt Backend.empty)
  = Resolved (GenAI.mkInlineData "image/png" (Some "b3JpZ2luYWw=")).
Proof.
  exact (@fileToGenerativePart_takes_payload unit Backend.Store
           (Studio.serve Backend.sound Studio.sound) Cases.photo tt
           Backend.empty Backend.empty "data:image/png;base64" "b3JpZ2luYWw="
           eq_refl eq_refl eq_refl).
Defined.

(** The edited image is the data of the first inline part. *)
Lemma editImage_outcomes_witness :
  exists edited,
    result (perform (Studio.serve Backend.sound Studio.sound)
              (editImage "make it blue" Cases.photo) tt Backend.empty)
      = Resolved edited
    /\ exists ps part d,
         find hasInlineData ps = Some part
         /\ GenAI.inlineData part = Some d
         /\ GenAI.data d = edited.
Proof.
  eexists. split; [reflexivity|].
  destruct (@editImage_outcomes unit Backend.Store
              (Studio.serve Backend.sound Studio.sound) "make it blue"
              Cases.photo tt Backend.empty) as [_ [Hok _]].
  destruct (Hok _ eq_refl)
    as [request [w1 [response [candidate [others [ps [part [d H]]]]]]]].
  exists ps, part, d. tauto.
Defined.

(** The audio is the data of the first part, and it is not empty. *)
Lemma generateSpeech_outcomes_witness :
  exists audio,
    result (perform (Studio.serve Backend.sound Studio.speaking)
              (generateSpeech "Hello") tt Backend.empty)
      = Resolved audio
    /\ audio <> "".
Proof.
  eexists. split; [reflexivity|].
  destruct (@generateSpeech_outcomes unit Backend.Store
              (Studio.serve Backend.sound Studio.speaking) "Hello" tt
              Backend.empty) as [_ [Hok _]].
  exact (proj1 (Hok _ eq_refl)).
Defined.

(** The metadata read fails: the gallery keeps its images and shows the
    error. *)
Lemma fetchImages_outcomes_witness :
  let r := perform (Studio.serve Cases.imagesReadDown Studio.sound)
             (Gallery.fetchImages Cases.shown) Cases.shown Scenario.gallery in
  Gallery.isLoading (ended r) = false
  /\ Gallery.images (ended r) = [Cases.owl; Cases.cat]
  /\ Gallery.error (ended r) =
       Some "Failed to load gallery: Failed to fetch image records: permission denied".
Proof.
  cbv zeta.
  destruct (@fetchImages_outcomes Backend.Store
              (Studio.serve Cases.imagesReadDown Studio.sound) Cases.shown
              Scenario.gallery Scenario.alice eq_refl)
    as [_ [Hload [_ Hcase]]].
  split; [exact Hload|]. exact Hcase.
Defined.

(** The user confirms and both phases succeed: the picked image leaves
    the grid, the other one stays. *)
Lemma handleDelete_outcomes_witness :
  let r := perform (Studio.serve Backend.sound Studio.sound)
             (Gallery.handleDelete Cases.shown Cases.cat) Cases.shown
             Scenario.gallery in
  In Cases.owl (Gallery.images (ended r))
  /\ ~ In Cases.cat (Gallery.images (ended r)).
Proof.
  cbv zeta.
  destruct (@handleDelete_outcomes Backend.Store
              (Studio.serve Backend.sound Studio.sound) Cases.shown
              Scenario.gallery Scenario.gallery Scenario.alice Cases.cat true
              eq_refl eq_refl) as [_ Hcase].
  destruct Hcase as [Hin _].
  split.
  - apply Hin. split; [left; reflexivity | discriminate].
  - intros Hcat. apply Hin in Hcat. destruct Hcat as [_ Hne].
    apply Hne. reflexivity.
Defined.

(** The edited image is saved and the user is told so. *)
Lemma ImageEditor_handleSave_outcomes_witness :
  let r := perform (Studio.serve Backend.sound Studio.sound)
             (ImageEditor.handleSave Cases.edited) Cases.edited
             Backend.empty in
  ImageEditor.isSaving (ended r) = false
  /\ ImageEditor.error (ended r) = None
  /\ filter saysAlert (trace r) =
       [ Said (Alert "Image saved to your gallery!") ].
Proof.
  cbv zeta.
  assert (Hne : "aGk=" <> "") by discriminate.
  destruct (@ImageEditor_handleSave_outcomes Backend.Store
              (Studio.serve Backend.sound Studio.sound) Cases.edited
              Backend.empty Scenario.alice "aGk=" eq_refl Hne eq_refl)
    as [_ [Hsaving [_ [_ Hcase]]]].
  split; [exact Hsaving|]. exact Hcase.
Defined.

(** The bucket is full: the generator shows the error and no alert. *)
Lemma ImageGenerator_handleSave_outcomes_witness :
  let s := ImageGenerator.mkState "a red fox" "1:1" (Some "aGk=") false false
             None (Some Scenario.alice) in
  let r := perform (Studio.serve Cases.uploadDown Studio.sound)
             (ImageGenerator.handleSave s) s Backend.empty in
  ImageGenerator.isSaving (ended r) = false
  /\ ImageGenerator.error (ended r) =
       Some "Failed to save image: Failed to upload image to storage: quota exceeded"
  /\ filter saysAlert (trace r) = [].
Proof.
  cbv zeta.
  assert (Hne : "aGk=" <> "") by discriminate.
  destruct (@ImageGenerator_handleSave_outcomes Backend.Store
              (Studio.serve Cases.uploadDown Studio.sound)
              (ImageGenerator.mkState "a red fox" "1:1" (Some "aGk=") false
                 false None (Some Scenario.alice))
              Backend.empty Scenario.alice "aGk=" eq_refl Hne eq_refl)
    as [_ [Hsaving [_ Hcase]]].
  split; [exact Hsaving|]. exact Hcase.
Defined.
